(** * WM.Window: move / resize gesture engine (src/typescript/WM_Window.ts)

    A shallow embedding of the [Window] class of the window manager and
    proofs of the properties its specification states about edge
    hit-testing, resize arithmetic, minimum-size clamping, anchor-island
    discovery and anchor propagation.

    Pixel coordinates are JavaScript numbers holding integers; they are
    modelled as [Z].  Objects live in a store indexed by identity, methods
    are state transformers on that store, and a thrown [TypeError] is an
    explicit outcome that keeps the mutations made before the throw. *)

From Stdlib Require Import ZArith List Bool Lia String.
From stdpp Require Import base option list gmap.
Import ListNotations.

Local Open Scope Z_scope.

(** ** Geometry primitives *)

Record int2 : Type := mkint2 { x : Z; y : Z }.

(** Modelled from the spec: the [int2] class is not part of the source file;
    section 3 of the specification gives it as an integer vector with add,
    subtract, component-wise multiply, component-wise min/max and
    min-with-zero.  The one-argument constructor [new int2(v)] fills both
    components ([new int2(50)] is the minimum size on both axes). *)
Module Int2.
Definition splat (v : Z) : int2 := mkint2 v v.
Definition Zero : int2 := splat 0.
Definition One : int2 := splat 1.
Definition Add (a b : int2) : int2 := mkint2 (x a + x b) (y a + y b).
Definition Sub (a b : int2) : int2 := mkint2 (x a - x b) (y a - y b).
Definition Mul (a b : int2) : int2 := mkint2 (x a * x b) (y a * y b).
Definition Min (a b : int2) : int2 := mkint2 (Z.min (x a) (x b)) (Z.min (y a) (y b)).
Definition Max (a b : int2) : int2 := mkint2 (Z.max (x a) (x b)) (Z.max (y a) (y b)).
Definition Min0 (a : int2) : int2 := mkint2 (Z.min (x a) 0) (Z.min (y a) 0).
End Int2.

#[global] Instance int2_eq_dec : EqDecision int2.
Proof. solve_decision. Defined.

Record AABB : Type := mkAABB { aabb_min : int2; aabb_max : int2 }.

(** Modelled from the spec: [AABB.Expand] is not part of the source file;
    section 3 describes it as outward expansion by a fixed tolerance. *)
Definition AABB_Expand (b : AABB) (e : Z) : AABB :=
  mkAABB (Int2.Sub (aabb_min b) (Int2.splat e)) (Int2.Add (aabb_max b) (Int2.splat e)).

(** Modelled from the spec: [AABB.Intersect] is not part of the source file;
    section 4.1 describes the standard rectangle-overlap test on the min/max
    corners.  The development only uses it through the section variable
    [Intersect]; this instance serves the concrete examples. *)
Definition AABB_Intersect (a b : AABB) : bool :=
  (x (aabb_min a) <=? x (aabb_max b)) && (x (aabb_min b) <=? x (aabb_max a)) &&
  (y (aabb_min a) <=? y (aabb_max b)) && (y (aabb_min b) <=? y (aabb_max a)).

(** ** Objects *)

Abbreviation ControlId := nat.

(** [const enum Side { Left, Right, Top, Bottom }]: indices of [SnapRulers]. *)
Inductive Side : Type := Left | Right | Top | Bottom.

Inductive RulerOrient : Type := Vertical | Horizontal.

Record Ruler : Type := mkRuler { ruler_orient : RulerOrient; ruler_position : Z }.

(** [SnapRulers: Ruler[] = [ null, null, null, null ]] is only ever indexed
    by a [Side]; it is kept as four slots. *)
Record RulerSlots : Type := mkRulerSlots {
  slot_Left : option Ruler;
  slot_Right : option Ruler;
  slot_Top : option Ruler;
  slot_Bottom : option Ruler
}.

Definition no_rulers : RulerSlots := mkRulerSlots None None None None.

Definition get_slot (side : Side) (r : RulerSlots) : option Ruler :=
  match side with
  | Left => slot_Left r | Right => slot_Right r
  | Top => slot_Top r | Bottom => slot_Bottom r
  end.

Definition set_slot (side : Side) (v : option Ruler) (r : RulerSlots) : RulerSlots :=
  match side with
  | Left => mkRulerSlots v (slot_Right r) (slot_Top r) (slot_Bottom r)
  | Right => mkRulerSlots (slot_Left r) v (slot_Top r) (slot_Bottom r)
  | Top => mkRulerSlots (slot_Left r) (slot_Right r) v (slot_Bottom r)
  | Bottom => mkRulerSlots (slot_Left r) (slot_Right r) (slot_Top r) v
  end.

(** Modelled from the spec: [SnapCode] is declared outside the source file;
    section 3 gives it as a bitmask over X-axis snapped, Y-axis snapped and
    none. *)
Definition SnapCode : Type := Z.
Module SnapCodes.
Definition None : SnapCode := 0.
Definition X : SnapCode := 1.
Definition Y : SnapCode := 2.
End SnapCodes.

(** An entry of [AnchorControls : [Control, int2, number][]]: the control
    reference (possibly null), its mask and its offset scale. *)
Definition Anchor : Type := (option ControlId * int2 * Z)%type.

Definition anchor_control (a : Anchor) : option ControlId := fst (fst a).
Definition anchor_mask (a : Anchor) : int2 := snd (fst a).
Definition anchor_scale (a : Anchor) : Z := snd a.

(** The fields of a [Window] the gesture code reads or writes.  [Position]
    and [Size] are the inherited [Control] properties; [ParentNode] is the
    absolute position of the parent DOM node when there is one; [BodySize]
    is [ControlParentNode.Size]; a delegate holds the mask its closure
    captured. *)
Record Window : Type := mkWindow {
  Position : int2;
  Size : int2;
  ParentContainer : option ControlId;
  ParentNode : option int2;
  BodySize : int2;
  SideBarSize : Z;
  DragMouseStartPosition : int2;
  DragWindowStartPosition : int2;
  DragWindowStartSize : int2;
  AnchorControls : list Anchor;
  SnapRulers : RulerSlots;
  SizerMoved : bool;
  OnSizeDelegate : option int2;
  OnEndSizeDelegate : option int2
}.

(** A control that is not a [Window] (button, label, plain container). *)
Record Control : Type := mkControl { cPosition : int2; cSize : int2 }.

Inductive Panel : Type :=
| PWindow (w : Window)
| PControl (c : Control).

(** Modelled from the spec: the [TopLeft] / [BottomRight] accessors belong to
    [Control], outside the source file; section 3 gives TopLeft = position
    and BottomRight = position + size. *)
Definition TopLeft (w : Window) : int2 := Position w.
Definition BottomRight (w : Window) : int2 := Int2.Add (Position w) (Size w).

Definition Panel_TopLeft (p : Panel) : int2 :=
  match p with PWindow w => TopLeft w | PControl c => cPosition c end.
Definition Panel_BottomRight (p : Panel) : int2 :=
  match p with
  | PWindow w => BottomRight w
  | PControl c => Int2.Add (cPosition c) (cSize c)
  end.

(** Field updates (assignment to one property of [this]). *)
Definition set_Position (p : int2) (w : Window) : Window :=
  mkWindow p (Size w) (ParentContainer w) (ParentNode w) (BodySize w) (SideBarSize w)
    (DragMouseStartPosition w) (DragWindowStartPosition w) (DragWindowStartSize w)
    (AnchorControls w) (SnapRulers w) (SizerMoved w) (OnSizeDelegate w) (OnEndSizeDelegate w).
Definition set_Size (s : int2) (w : Window) : Window :=
  mkWindow (Position w) s (ParentContainer w) (ParentNode w) (BodySize w) (SideBarSize w)
    (DragMouseStartPosition w) (DragWindowStartPosition w) (DragWindowStartSize w)
    (AnchorControls w) (SnapRulers w) (SizerMoved w) (OnSizeDelegate w) (OnEndSizeDelegate w).
Definition set_DragMouseStartPosition (p : int2) (w : Window) : Window :=
  mkWindow (Position w) (Size w) (ParentContainer w) (ParentNode w) (BodySize w) (SideBarSize w)
    p (DragWindowStartPosition w) (DragWindowStartSize w)
    (AnchorControls w) (SnapRulers w) (SizerMoved w) (OnSizeDelegate w) (OnEndSizeDelegate w).
Definition set_DragWindowStartPosition (p : int2) (w : Window) : Window :=
  mkWindow (Position w) (Size w) (ParentContainer w) (ParentNode w) (BodySize w) (SideBarSize w)
    (DragMouseStartPosition w) p (DragWindowStartSize w)
    (AnchorControls w) (SnapRulers w) (SizerMoved w) (OnSizeDelegate w) (OnEndSizeDelegate w).
Definition set_DragWindowStartSize (s : int2) (w : Window) : Window :=
  mkWindow (Position w) (Size w) (ParentContainer w) (ParentNode w) (BodySize w) (SideBarSize w)
    (DragMouseStartPosition w) (DragWindowStartPosition w) s
    (AnchorControls w) (SnapRulers w) (SizerMoved w) (OnSizeDelegate w) (OnEndSizeDelegate w).
Definition set_AnchorControls (l : list Anchor) (w : Window) : Window :=
  mkWindow (Position w) (Size w) (ParentContainer w) (ParentNode w) (BodySize w) (SideBarSize w)
    (DragMouseStartPosition w) (DragWindowStartPosition w) (DragWindowStartSize w)
    l (SnapRulers w) (SizerMoved w) (OnSizeDelegate w) (OnEndSizeDelegate w).
Definition set_SnapRulers (r : RulerSlots) (w : Window) : Window :=
  mkWindow (Position w) (Size w) (ParentContainer w) (ParentNode w) (BodySize w) (SideBarSize w)
    (DragMouseStartPosition w) (DragWindowStartPosition w) (DragWindowStartSize w)
    (AnchorControls w) r (SizerMoved w) (OnSizeDelegate w) (OnEndSizeDelegate w).
Definition set_SizerMoved (b : bool) (w : Window) : Window :=
  mkWindow (Position w) (Size w) (ParentContainer w) (ParentNode w) (BodySize w) (SideBarSize w)
    (DragMouseStartPosition w) (DragWindowStartPosition w) (DragWindowStartSize w)
    (AnchorControls w) (SnapRulers w) b (OnSizeDelegate w) (OnEndSizeDelegate w).
Definition set_OnSizeDelegate (d : option int2) (w : Window) : Window :=
  mkWindow (Position w) (Size w) (ParentContainer w) (ParentNode w) (BodySize w) (SideBarSize w)
    (DragMouseStartPosition w) (DragWindowStartPosition w) (DragWindowStartSize w)
    (AnchorControls w) (SnapRulers w) (SizerMoved w) d (OnEndSizeDelegate w).
Definition set_OnEndSizeDelegate (d : option int2) (w : Window) : Window :=
  mkWindow (Position w) (Size w) (ParentContainer w) (ParentNode w) (BodySize w) (SideBarSize w)
    (DragMouseStartPosition w) (DragWindowStartPosition w) (DragWindowStartSize w)
    (AnchorControls w) (SnapRulers w) (SizerMoved w) (OnSizeDelegate w) d.

(** Modelled from the spec: the [BottomRight] and [TopLeft] setters belong to
    [Control]; with BottomRight derived as position + size, assigning
    BottomRight keeps the position and resizes, assigning TopLeft moves the
    position and keeps the opposite corner. *)
Definition set_BottomRight (br : int2) (w : Window) : Window :=
  set_Size (Int2.Sub br (Position w)) w.
Definition set_TopLeft (tl : int2) (w : Window) : Window :=
  let old_br := BottomRight w in
  set_BottomRight old_br (set_Position tl w).

(** ** Edge hit-testing: [GetSizeMask] *)

Definition GetSizeMask (w : Window) (mouse_pos : int2) : int2 :=
  let mouse_pos :=
    match ParentNode w with
    | Some parent_position => Int2.Sub mouse_pos parent_position
    | None => mouse_pos
    end in
  let offset_top_left := Int2.Sub mouse_pos (TopLeft w) in
  let offset_bottom_right := Int2.Sub (BottomRight w) mouse_pos in
  let mask_x := 0 in
  let mask_x :=
    if (x offset_bottom_right <? SideBarSize w) && (x offset_bottom_right >=? 0)
    then 1 else mask_x in
  let mask_x :=
    if (x offset_top_left <? SideBarSize w) && (x offset_top_left >=? 0)
    then -1 else mask_x in
  let mask_y := 0 in
  let mask_y :=
    if (y offset_bottom_right <? SideBarSize w) && (y offset_bottom_right >=? 0)
    then 1 else mask_y in
  let mask_y :=
    if (y offset_top_left <? SideBarSize w) && (y offset_top_left >=? 0)
    then -1 else mask_y in
  mkint2 mask_x mask_y.

(** The hit-test rule in the words of the specification (section 4.3), one
    axis at a time: the BottomRight side is tested first and wins. *)
Definition in_grab_zone (width offset : Z) : bool :=
  (0 <=? offset) && (offset <? width).

Definition spec_axis_mask (width to_bottom_right from_top_left : Z) : Z :=
  if in_grab_zone width to_bottom_right then 1
  else if in_grab_zone width from_top_left then -1
  else 0.

(** The rule the code implements: the TopLeft test runs last and overrides. *)
Definition code_axis_mask (width to_bottom_right from_top_left : Z) : Z :=
  if in_grab_zone width from_top_left then -1
  else if in_grab_zone width to_bottom_right then 1
  else 0.

Definition local_mouse (w : Window) (mouse_pos : int2) : int2 :=
  match ParentNode w with
  | Some parent_position => Int2.Sub mouse_pos parent_position
  | None => mouse_pos
  end.

(** ** Anchor-island discovery: the array loops *)

Inductive LoopExit : Type :=
| LoopDone    (* the loop condition became false *)
| LoopThrow   (* [MakeControlAABB] dereferenced a null control *)
| LoopFuel.   (* the iteration budget ran out *)

(** [arr[i] = arr[arr.length - 1]; arr.length--] *)
Definition swap_remove (i : nat) (pool : list Anchor) : list Anchor :=
  match last pool with
  | Some back => take (length pool - 1)%nat (<[i := back]> pool)
  | None => pool
  end.

(** The [for (let i = 0; i < this.AnchorControls.length; )] loop of
    [TakeConnectedAnchorControls], from index [i], on the pool
    [this.AnchorControls] and the output array [anchor_controls].  [box]
    is [MakeControlAABB] on the control of an entry. *)
Fixpoint take_loop (Intersect : AABB -> AABB -> bool) (box : Anchor -> option AABB)
    (aabb_0 : AABB) (fuel i : nat) (pool anchor_controls : list Anchor)
    : LoopExit * list Anchor * list Anchor :=
  match pool !! i with
  | None => (LoopDone, pool, anchor_controls)
  | Some anchor_control =>
      match fuel with
      | O => (LoopFuel, pool, anchor_controls)
      | S fuel' =>
          match box anchor_control with
          | None => (LoopThrow, pool, anchor_controls)
          | Some aabb_1 =>
              if Intersect aabb_0 aabb_1
              then take_loop Intersect box aabb_0 fuel' i
                     (swap_remove i pool) (anchor_controls ++ [anchor_control])
              else take_loop Intersect box aabb_0 fuel' (S i) pool anchor_controls
          end
      end
  end.

(** Each iteration either shortens the pool or advances [i], so
    [length pool] iterations are enough from index 0. *)
Definition take_connected (Intersect : AABB -> AABB -> bool) (box : Anchor -> option AABB)
    (aabb_0 : AABB) (pool anchor_controls : list Anchor)
    : LoopExit * list Anchor * list Anchor :=
  take_loop Intersect box aabb_0 (length pool) 0 pool anchor_controls.

(** The [for (let anchor_control of anchor_controls)] loop of
    [MakeAnchorControlIsland]: the array iterator re-reads the length at
    every step, so entries pushed by the body are visited too.  [j] is the
    iterator's index. *)
Fixpoint island_loop (Intersect : AABB -> AABB -> bool) (box : Anchor -> option AABB)
    (fuel j : nat) (pool anchor_controls : list Anchor)
    : LoopExit * list Anchor * list Anchor :=
  match anchor_controls !! j with
  | None => (LoopDone, pool, anchor_controls)
  | Some anchor_control =>
      match fuel with
      | O => (LoopFuel, pool, anchor_controls)
      | S fuel' =>
          match box anchor_control with
          | None => (LoopThrow, pool, anchor_controls)
          | Some aabb_0 =>
              match take_connected Intersect box aabb_0 pool anchor_controls with
              | (LoopDone, pool', anchor_controls') =>
                  island_loop Intersect box fuel' (S j) pool' anchor_controls'
              | stopped => stopped
              end
          end
      end
  end.

(** [MakeAnchorControlIsland] on the arrays: first everything connected to
    [this] (box [aabb_this]), then everything connected to what was found.
    The island never has more entries than the pool had, which bounds the
    second loop. *)
Definition make_island (Intersect : AABB -> AABB -> bool) (box : Anchor -> option AABB)
    (aabb_this : AABB) (pool : list Anchor) : LoopExit * list Anchor * list Anchor :=
  match take_connected Intersect box aabb_this pool [] with
  | (LoopDone, pool', anchor_controls) =>
      island_loop Intersect box (length pool) 0 pool' anchor_controls
  | stopped => stopped
  end.

(** Connectivity over the pool: an entry is connected to the seed when a
    chain of pairwise intersecting expanded boxes leads from the seed's box
    to it through pool entries. *)
Inductive connected (Intersect : AABB -> AABB -> bool) (box : Anchor -> option AABB)
    (aabb_this : AABB) (pool : list Anchor) : Anchor -> Prop :=
| connected_seed a b :
    a ∈ pool -> box a = Some b -> Intersect aabb_this b = true ->
    connected Intersect box aabb_this pool a
| connected_step a0 b0 a b :
    connected Intersect box aabb_this pool a0 -> box a0 = Some b0 ->
    a ∈ pool -> box a = Some b -> Intersect b0 b = true ->
    connected Intersect box aabb_this pool a.

(** An entry whose box is known and does not intersect [b0], and one whose
    box is known and does. *)
Definition misses (Intersect : AABB -> AABB -> bool) (box : Anchor -> option AABB)
    (b0 : AABB) (a : Anchor) : Prop :=
  exists b, box a = Some b /\ Intersect b0 b = false.

Definition hits (Intersect : AABB -> AABB -> bool) (box : Anchor -> option AABB)
    (b0 : AABB) (a : Anchor) : Prop :=
  exists b, box a = Some b /\ Intersect b0 b = true.

(** ** The store, effects on collaborators, and the method monad *)

Inductive Error : Type := TypeError.

(** How a handler ends: normally, by a thrown exception, or because the
    recursion budget of the embedding ran out.  The handlers call each other
    along the anchor lists; the budget makes that recursion structural, and
    the completion lemmas show which budget suffices. *)
Inductive Outcome (A : Type) : Type :=
| Ok (a : A)
| Threw (e : Error)
| OutOfFuel.
Arguments Ok {A} a.
Arguments Threw {A} e.
Arguments OutOfFuel {A}.

Inductive DocEvent : Type := MouseMoveEvent | MouseUpEvent.

Inductive Handler : Type :=
| HOnMove (this : ControlId)
| HOnEndMove (this : ControlId)
| HOnSize (this : ControlId) (mask : int2)
| HOnEndSize (this : ControlId) (mask : int2).

(** Calls into collaborators whose state the window never reads back. *)
Inductive Effect : Type :=
| ContainerAdd (container : ControlId) (r : Ruler)
| ContainerRemove (container : ControlId) (r : Ruler)
| UpdateControlSizes (container : ControlId)
| SetCursor (cursor : string)
| Subscribe (e : DocEvent) (h : Handler)
| Unsubscribe (e : DocEvent) (h : option Handler)
| StopDefaultAction.

(** The callback handed to [setTimeout] in [OnBeginSize]. *)
Inductive Timer : Type := DetachTimer (this : ControlId).

Record State : Type := mkState {
  heap : gmap nat Panel;
  effects : list Effect;
  timers : list (Z * Timer)
}.

Definition M (A : Type) : Type := State -> State * Outcome A.

Definition ret {A} (a : A) : M A := fun s => (s, Ok a).

Definition bind {A B} (m : M A) (k : A -> M B) : M B :=
  fun s =>
    match m s with
    | (s', Ok a) => k a s'
    | (s', Threw e) => (s', Threw e)
    | (s', OutOfFuel) => (s', OutOfFuel)
    end.

#[global] Instance M_ret : MRet M := @ret.
#[global] Instance M_bind : MBind M := fun A B k m => bind m k.

Definition throw {A} (e : Error) : M A := fun s => (s, Threw e).
Definition out_of_fuel {A} : M A := fun s => (s, OutOfFuel).

Definition get_heap : M (gmap nat Panel) := fun s => (s, Ok (heap s)).

Definition emit (e : Effect) : M unit :=
  fun s => (mkState (heap s) (effects s ++ [e]) (timers s), Ok tt).

Definition setTimeout (t : Timer) (delay : Z) : M unit :=
  fun s => (mkState (heap s) (effects s) (timers s ++ [(delay, t)]), Ok tt).

(** Reading [this]: the methods below are properties of [Window] instances,
    so [this] denotes a window of the store. *)
Definition this_window (this : ControlId) : M Window :=
  fun s =>
    match heap s !! this with
    | Some (PWindow w) => (s, Ok w)
    | _ => (s, Threw TypeError)
    end.

(** Assigning to properties of [this]. *)
Definition update_this (this : ControlId) (f : Window -> Window) : M unit :=
  fun s =>
    match heap s !! this with
    | Some (PWindow w) =>
        (mkState (<[this := PWindow (f w)]> (heap s)) (effects s) (timers s), Ok tt)
    | _ => (s, Threw TypeError)
    end.

Definition when (b : bool) (m : M unit) : M unit := if b then m else ret tt.

Fixpoint for_each {A} (l : list A) (body : A -> M unit) : M unit :=
  match l with
  | [] => ret tt
  | a :: l' => body a ;; for_each l' body
  end.

(** [let window = control[0] as Window; if (window != null) window.m(...)].
    A TypeScript type assertion is erased by the compiler: at run time
    [window] is [control[0]] itself, and the guard only filters null.  The
    handlers [OnBeginSize] / [OnSize] / [OnEndSize] are own properties of
    [Window] instances, so on any other control [window.m] is undefined and
    the call throws a TypeError.  (A reference to an object outside the
    store does not arise in a garbage-collected heap; the model throws there
    too.) *)
Definition call_as_Window (control : option ControlId) (method : ControlId -> M unit)
    : M unit :=
  match control with
  | None => ret tt
  | Some c =>
      h ← get_heap;
      match h !! c with
      | Some (PWindow _) => method c
      | _ => throw TypeError
      end
  end.

(** [this.ParentContainer.m()] with no guard: a TypeError on null. *)
Definition deref_ParentContainer (this : ControlId) : M ControlId :=
  w ← this_window this;
  match ParentContainer w with
  | Some pc => ret pc
  | None => throw TypeError
  end.

Definition positive_mask (mask : int2) : bool := (x mask >? 0) || (y mask >? 0).
Definition negative_mask (mask : int2) : bool := (x mask <? 0) || (y mask <? 0).

Definition min_window_size : int2 := Int2.splat 50.

(** [SetResizeCursor]: the cursor string built from the mask. *)
Definition resize_cursor (size_mask : int2) : string :=
  let cursor := EmptyString in
  let cursor := if y size_mask >? 0 then (cursor ++ "s")%string else cursor in
  let cursor := if y size_mask <? 0 then (cursor ++ "n")%string else cursor in
  let cursor := if x size_mask >? 0 then (cursor ++ "e")%string else cursor in
  let cursor := if x size_mask <? 0 then (cursor ++ "w")%string else cursor in
  if (0 <? String.length cursor)%nat then (cursor ++ "-resize")%string else cursor.

Section WindowMethods.

(** [Container.SnapBorderSize], declared outside the source file. *)
Variable SnapBorderSize : Z.

(** [AABB.Intersect], declared outside the source file. *)
Variable Intersect : AABB -> AABB -> bool.

(** The snap search of the Container collaborator (section 6 of the
    specification), as two functions of the store it inspects, the
    container, the reference point, the direction mask and the exclusion
    list: the (SnapCode, snapped point) answer, and the panels it would
    report as anchors, each with its inferred mask. *)
Variable snap_query :
  gmap nat Panel -> ControlId -> int2 -> int2 -> list (option ControlId) -> SnapCode * int2.
Variable snap_anchors :
  gmap nat Panel -> ControlId -> int2 -> int2 -> list (option ControlId) ->
  list (option ControlId * int2).

(** Modelled from the spec: [Container.GetSnapControls] is outside the
    source file.  Section 6: it returns (SnapCode, snappedPoint) and, if an
    out anchor list is provided, appends the panels it discovers as anchors
    with the given scale and the inferred mask.  [controls] names the
    window whose [AnchorControls] array is passed, or is null. *)
Definition GetSnapControls (container : ControlId) (pos mask : int2)
    (excluding : list (option ControlId)) (controls : option ControlId)
    (offset_scale : Z) : M (SnapCode * int2) :=
  h ← get_heap;
  match controls with
  | Some owner =>
      update_this owner (fun w =>
        set_AnchorControls
          (AnchorControls w ++
           map (fun found => (fst found, snd found, offset_scale))
               (snap_anchors h container pos mask excluding)) w)
  | None => ret tt
  end ;;
  ret (snap_query h container pos mask excluding).

(** *** Snap rulers *)

Definition SetSnapRuler (this : ControlId) (side : Side) (position : Z) : M unit :=
  w ← this_window this;
  match get_slot side (SnapRulers w) with
  | None =>
      let orient :=
        match side with
        | Left | Right => Vertical
        | Top | Bottom => Horizontal
        end in
      let ruler := mkRuler orient position in
      update_this this (fun w => set_SnapRulers (set_slot side (Some ruler) (SnapRulers w)) w) ;;
      match ParentContainer w with
      | Some pc => emit (ContainerAdd pc ruler)
      | None => ret tt
      end
  | Some ruler =>
      update_this this (fun w =>
        set_SnapRulers
          (set_slot side (Some (mkRuler (ruler_orient ruler) position)) (SnapRulers w)) w)
  end.

Definition RemoveSnapRuler (this : ControlId) (side : Side) : M unit :=
  w ← this_window this;
  match get_slot side (SnapRulers w) with
  | Some ruler =>
      match ParentContainer w with
      | Some pc => emit (ContainerRemove pc ruler)
      | None => ret tt
      end ;;
      update_this this (fun w => set_SnapRulers (set_slot side None (SnapRulers w)) w)
  | None => ret tt
  end.

Definition RemoveSnapRulers (this : ControlId) : M unit :=
  RemoveSnapRuler this Left ;;
  RemoveSnapRuler this Right ;;
  RemoveSnapRuler this Top ;;
  RemoveSnapRuler this Bottom.

Definition UpdateSnapRuler (this : ControlId) (side : Side) (show : bool) (position : Z)
    : M unit :=
  if show then SetSnapRuler this side position else RemoveSnapRuler this side.

Definition UpdateTLSnapRulers (this : ControlId) (snap_code : SnapCode) : M unit :=
  w ← this_window this;
  UpdateSnapRuler this Top (negb (Z.land snap_code SnapCodes.Y =? 0)) (y (TopLeft w) - 3) ;;
  w ← this_window this;
  UpdateSnapRuler this Left (negb (Z.land snap_code SnapCodes.X =? 0)) (x (TopLeft w) - 3).

Definition UpdateBRSnapRulers (this : ControlId) (snap_code : SnapCode) : M unit :=
  w ← this_window this;
  UpdateSnapRuler this Bottom (negb (Z.land snap_code SnapCodes.Y =? 0)) (y (BottomRight w) + 1) ;;
  w ← this_window this;
  UpdateSnapRuler this Right (negb (Z.land snap_code SnapCodes.X =? 0)) (x (BottomRight w) + 1).

(** *** Window movement.  A mouse event is its pointer position. *)

Definition OnBeginMove (this : ControlId) (event : int2) : M unit :=
  let mouse_pos := event in
  update_this this (set_DragMouseStartPosition mouse_pos) ;;
  update_this this (fun w => set_DragWindowStartPosition (Position w) w) ;;
  w ← this_window this;
  match ParentContainer w with
  | Some parent_container =>
      snap_tl ← GetSnapControls parent_container (TopLeft w) (mkint2 (-1) (-1))
                   [Some this] None 0;
      snap_br ← GetSnapControls parent_container (BottomRight w) (mkint2 1 1)
                   [Some this] None 0;
      UpdateTLSnapRulers this (fst snap_tl) ;;
      UpdateBRSnapRulers this (fst snap_br)
  | None => ret tt
  end ;;
  emit (Subscribe MouseMoveEvent (HOnMove this)) ;;
  emit (Subscribe MouseUpEvent (HOnEndMove this)) ;;
  emit StopDefaultAction.

(** Lines 218-227 of [OnMove]: the body of [if (parent_container != null)]. *)
Definition OnMove_snap (this parent_container : ControlId) : M unit :=
  w ← this_window this;
  snap_tl ← GetSnapControls parent_container (TopLeft w) (mkint2 (-1) (-1))
               [Some this] None 0;
  when (negb (fst snap_tl =? SnapCodes.None))
       (update_this this (set_Position (snd snap_tl))) ;;
  w ← this_window this;
  snap_br ← GetSnapControls parent_container (BottomRight w) (mkint2 1 1)
               [Some this] None 0;
  when (negb (fst snap_br =? SnapCodes.None))
       (update_this this (fun w => set_Position (Int2.Sub (snd snap_br) (Size w)) w)) ;;
  UpdateTLSnapRulers this (fst snap_tl) ;;
  UpdateBRSnapRulers this (fst snap_br).

Definition OnMove (this : ControlId) (event : int2) : M unit :=
  let mouse_pos := event in
  w ← this_window this;
  let offset := Int2.Sub mouse_pos (DragMouseStartPosition w) in
  update_this this (set_Position (Int2.Add (DragWindowStartPosition w) offset)) ;;
  w ← this_window this;
  match ParentContainer w with
  | Some parent_container => OnMove_snap this parent_container
  | None => ret tt
  end ;;
  pc ← deref_ParentContainer this;
  emit (UpdateControlSizes pc) ;;
  emit StopDefaultAction.

Definition OnEndMove (this : ControlId) : M unit :=
  RemoveSnapRulers this ;;
  emit (Unsubscribe MouseMoveEvent (Some (HOnMove this))) ;;
  emit (Unsubscribe MouseUpEvent (Some (HOnEndMove this))) ;;
  emit StopDefaultAction.

(** *** Window sizing *)

(** [OnMoveOverSize]: the cursor follows the edge under the pointer. *)
Definition OnMoveOverSize (this : ControlId) (event : int2) : M unit :=
  let mouse_pos := event in
  w ← this_window this;
  let mask := GetSizeMask w mouse_pos in
  emit (SetCursor (resize_cursor mask)).

(** [MakeControlAABB]: the control's box expanded by the snap border.
    Reading [TopLeft] of a null control throws; [None] stands for that. *)
Definition MakeControlAABB (h : gmap nat Panel) (control : option ControlId)
    : option AABB :=
  match control with
  | Some c =>
      match h !! c with
      | Some p => Some (AABB_Expand (mkAABB (Panel_TopLeft p) (Panel_BottomRight p))
                                    SnapBorderSize)
      | None => None
      end
  | None => None
  end.

Definition anchor_box (h : gmap nat Panel) (a : Anchor) : option AABB :=
  MakeControlAABB h (anchor_control a).

(** [MakeAnchorControlIsland]: runs the two loops on [this.AnchorControls]
    and a fresh [anchor_controls] array, then replaces the list.  When a
    box computation throws, the pool as mutated so far stays in
    [this.AnchorControls]. *)
Definition MakeAnchorControlIsland (this : ControlId) : M unit :=
  h ← get_heap;
  w ← this_window this;
  match MakeControlAABB h (Some this) with
  | Some aabb_0 =>
      match make_island Intersect (anchor_box h) aabb_0 (AnchorControls w) with
      | (LoopDone, _, anchor_controls) =>
          update_this this (set_AnchorControls anchor_controls)
      | (LoopThrow, pool, _) =>
          update_this this (set_AnchorControls pool) ;; throw TypeError
      | (LoopFuel, pool, _) =>
          update_this this (set_AnchorControls pool) ;; out_of_fuel
      end
  | None => throw TypeError
  end.

(** Lines 366-387 of [GatherAnchorControls]: anchors among the siblings,
    on side resizers only, cut down to the island connected to [this]. *)
Definition GatherAnchorControls_siblings (this parent_container : ControlId) (mask : int2)
    : M unit :=
  w ← this_window this;
  when (negb (Bool.eqb (negb (x mask =? 0)) (negb (y mask =? 0))))
    (when (positive_mask mask)
       (snap ← GetSnapControls parent_container (BottomRight w) mask
                 [Some this] (Some this) 1;
        UpdateBRSnapRulers this (fst snap)) ;;
     when (negative_mask mask)
       (snap ← GetSnapControls parent_container (TopLeft w) mask
                 [Some this] (Some this) 1;
        UpdateTLSnapRulers this (fst snap))) ;;
  MakeAnchorControlIsland this.

(** Lines 389-398 of [GatherAnchorControls]: anchors among the children. *)
Definition GatherAnchorControls_children (this : ControlId) (mask : int2) : M unit :=
  w ← this_window this;
  let this_br := Int2.Sub (BodySize w) Int2.One in
  when (positive_mask mask)
    (GetSnapControls this this_br mask [] (Some this) 1 ;; mret tt) ;;
  when (negative_mask mask)
    (GetSnapControls this this_br mask [] (Some this) (-1) ;; mret tt).

Definition GatherAnchorControls (this : ControlId) (mask : int2)
    (gather_sibling_anchors : bool) : M unit :=
  update_this this (set_AnchorControls []) ;;
  w ← this_window this;
  match gather_sibling_anchors, ParentContainer w with
  | true, Some parent_container => GatherAnchorControls_siblings this parent_container mask
  | _, _ => ret tt
  end ;;
  GatherAnchorControls_children this mask.

(** Lines 423-443 of [OnBeginSize]: the body of [if (master_control)]. *)
Definition OnBeginSize_arm (this : ControlId) (mask : int2) : M unit :=
  setTimeout (DetachTimer this) 1000 ;;
  update_this this (set_OnSizeDelegate (Some mask)) ;;
  update_this this (set_OnEndSizeDelegate (Some mask)) ;;
  emit (Subscribe MouseMoveEvent (HOnSize this mask)) ;;
  emit (Subscribe MouseUpEvent (HOnEndSize this mask)) ;;
  emit StopDefaultAction.

Fixpoint OnBeginSize (fuel : nat) (event : int2) (in_mask : option int2)
    (master_control : bool) (this : ControlId) : M unit :=
  match fuel with
  | O => out_of_fuel
  | S fuel' =>
      let mouse_pos := event in
      update_this this (set_DragMouseStartPosition mouse_pos) ;;
      update_this this (fun w => set_DragWindowStartPosition (Position w) w) ;;
      update_this this (fun w => set_DragWindowStartSize (Size w) w) ;;
      w ← this_window this;
      let mask :=
        match in_mask with
        | Some m => m
        | None => GetSizeMask w mouse_pos
        end in
      GatherAnchorControls this mask master_control ;;
      w ← this_window this;
      for_each (AnchorControls w) (fun control =>
        call_as_Window (anchor_control control)
          (OnBeginSize fuel' event (Some (anchor_mask control)) false)) ;;
      update_this this (set_SizerMoved false) ;;
      when master_control (OnBeginSize_arm this mask)
  end.

(** The body of the [setTimeout] callback armed by a master [OnBeginSize]. *)
Definition fire_timer (t : Timer) : M unit :=
  match t with
  | DetachTimer this =>
      w ← this_window this;
      if negb (SizerMoved w)
      then update_this this (set_AnchorControls []) ;; RemoveSnapRulers this
      else ret tt
  end.

(** Lines 445-508 of [OnSize]: everything up to and including the
    minimum-size clamp.  Returns the offset forwarded to the anchors. *)
Definition OnSize_resize (this : ControlId) (event : int2) (mask : int2)
    (offset_scale : Z) (master_offset : option int2) : M int2 :=
  update_this this (set_SizerMoved true) ;;
  let mouse_pos := event in
  w ← this_window this;
  let offset :=
    match master_offset with
    | Some o => o
    | None => Int2.Sub mouse_pos (DragMouseStartPosition w)
    end in
  let offset := Int2.Mul offset (Int2.splat offset_scale) in
  update_this this (set_Size (Int2.Add (DragWindowStartSize w) (Int2.Mul offset mask))) ;;
  let position_mask := Int2.Min0 mask in
  update_this this
    (set_Position (Int2.Sub (DragWindowStartPosition w) (Int2.Mul offset position_mask))) ;;
  w ← this_window this;
  let exclude_controls := Some this :: map anchor_control (AnchorControls w) in
  offset ←
    match ParentContainer w with
    | Some parent_container =>
        offset ←
          (if positive_mask mask then
             w ← this_window this;
             snap ← GetSnapControls parent_container (BottomRight w) mask
                       exclude_controls None 0;
             offset ←
               (if negb (fst snap =? SnapCodes.None) then
                  let offset := Int2.Add offset (Int2.Sub (snd snap) (BottomRight w)) in
                  update_this this (set_BottomRight (snd snap)) ;;
                  ret offset
                else ret offset);
             when (bool_decide (master_offset = None))
                  (UpdateBRSnapRulers this (fst snap)) ;;
             ret offset
           else ret offset);
        (if negative_mask mask then
           w ← this_window this;
           snap ← GetSnapControls parent_container (TopLeft w) mask
                     exclude_controls None 0;
           offset ←
             (if negb (fst snap =? SnapCodes.None) then
                let offset := Int2.Add offset (Int2.Sub (snd snap) (TopLeft w)) in
                update_this this (set_TopLeft (snd snap)) ;;
                ret offset
              else ret offset);
           when (bool_decide (master_offset = None))
                (UpdateTLSnapRulers this (fst snap)) ;;
           ret offset
         else ret offset)
    | None => ret offset
    end;
  update_this this (fun w => set_Size (Int2.Max (Size w) min_window_size) w) ;;
  update_this this (fun w =>
    set_Position
      (Int2.Min (Position w)
         (Int2.Sub (Int2.Add (DragWindowStartPosition w) (DragWindowStartSize w))
                   min_window_size)) w) ;;
  ret offset.

Fixpoint OnSize (fuel : nat) (event : int2) (mask : int2) (offset_scale : Z)
    (master_offset : option int2) (this : ControlId) : M unit :=
  match fuel with
  | O => out_of_fuel
  | S fuel' =>
      offset ← OnSize_resize this event mask offset_scale master_offset;
      w ← this_window this;
      for_each (AnchorControls w) (fun control =>
        call_as_Window (anchor_control control)
          (OnSize fuel' event (anchor_mask control) (anchor_scale control) (Some offset))) ;;
      emit (SetCursor (resize_cursor mask)) ;;
      pc ← deref_ParentContainer this;
      emit (UpdateControlSizes pc) ;;
      emit StopDefaultAction
  end.

(** Lines 537-550 of [OnEndSize]: what follows the loop over the anchors. *)
Definition OnEndSize_finish (this : ControlId) : M unit :=
  update_this this (set_AnchorControls []) ;;
  emit (SetCursor "auto") ;;
  RemoveSnapRulers this ;;
  w ← this_window this;
  emit (Unsubscribe MouseMoveEvent (option_map (HOnSize this) (OnSizeDelegate w))) ;;
  update_this this (set_OnSizeDelegate None) ;;
  emit (Unsubscribe MouseUpEvent (option_map (HOnEndSize this) (OnEndSizeDelegate w))) ;;
  update_this this (set_OnEndSizeDelegate None) ;;
  emit StopDefaultAction.

Fixpoint OnEndSize (fuel : nat) (event : int2) (mask : int2) (this : ControlId)
    : M unit :=
  match fuel with
  | O => out_of_fuel
  | S fuel' =>
      w ← this_window this;
      for_each (AnchorControls w) (fun control =>
        call_as_Window (anchor_control control) (OnEndSize fuel' event mask)) ;;
      OnEndSize_finish this
  end.

End WindowMethods.

(** ** Vocabulary of the statements *)

(** [this] denotes the window [w] in state [s]. *)
Definition is_win (s : State) (this : nat) (w : Window) : Prop :=
  heap s !! this = Some (PWindow w).

(** [m], run on a store [h] where [this] is a window [w], completes
    normally, changes no object but [this], arms no timer, and relates [h],
    [w], the new value [w'] of [this] and its result by [Q]. *)
Definition acts_on {A} (this : nat) (m : M A)
    (Q : gmap nat Panel -> Window -> Window -> A -> Prop) : Prop :=
  forall s w, is_win s this w ->
  exists s' w' a,
    m s = (s', Ok a) /\
    heap s' = <[this := PWindow w']> (heap s) /\
    timers s' = timers s /\
    Q (heap s) w w' a.

(** Only the ruler slots of the window differ. *)
Definition only_rulers (w w' : Window) : Prop :=
  exists r, w' = set_SnapRulers r w.

(** The state both clamps of [OnSize] establish: the size is at least the
    minimum on both axes, and the position is at most start position +
    start size - minimum size on both axes. *)
Definition clamped (w : Window) : Prop :=
  50 <= x (Size w) /\ 50 <= y (Size w) /\
  x (Position w) <= x (DragWindowStartPosition w) + x (DragWindowStartSize w) - 50 /\
  y (Position w) <= y (DragWindowStartPosition w) + y (DragWindowStartSize w) - 50.

(** The fields a resize tick leaves alone. *)
Definition keeps_gesture (w w' : Window) : Prop :=
  ParentContainer w' = ParentContainer w /\
  DragMouseStartPosition w' = DragMouseStartPosition w /\
  DragWindowStartPosition w' = DragWindowStartPosition w /\
  DragWindowStartSize w' = DragWindowStartSize w /\
  AnchorControls w' = AnchorControls w.

(** The offset a tick works with: the pointer offset from the gesture start
    for the master, the forwarded offset for an anchored window, scaled. *)
Definition tick_offset (w : Window) (event : int2) (offset_scale : Z)
    (master_offset : option int2) : int2 :=
  Int2.Mul
    (match master_offset with
     | Some o => o
     | None => Int2.Sub event (DragMouseStartPosition w)
     end)
    (Int2.splat offset_scale).

(** [m] maintains the property [P] of the store, whatever its outcome. *)
Definition preserves {A} (P : gmap nat Panel -> Prop) (m : M A) : Prop :=
  forall s, P (heap s) -> P (heap (m s).1).

(** The object [v] of the store is a window satisfying [W]. *)
Definition holds (W : Window -> Prop) (h : gmap nat Panel) (v : nat) : Prop :=
  exists w, h !! v = Some (PWindow w) /\ W w.

(** [W] survives a resize tick on the window it speaks about. *)
Definition tick_stable (W : Window -> Prop) : Prop :=
  forall w w', W w -> clamped w' -> keeps_gesture w w' -> W w'.

(** What the snap step of a move tick does to the window [w1] that already
    carries the dragged position, in the store [h] and the container [pc]:
    the result of the TopLeft query, the window after the TopLeft override,
    the result of the BottomRight query (asked on that window), and the
    window after the BottomRight override. *)
Section MoveSnap.
Variable snap_query :
  gmap nat Panel -> nat -> int2 -> int2 -> list (option nat) -> SnapCode * int2.
Variables (h : gmap nat Panel) (this pc : nat) (w1 : Window).

Definition move_snap_tl : SnapCode * int2 :=
  snap_query h pc (TopLeft w1) (mkint2 (-1) (-1)) [Some this].

Definition move_after_tl : Window :=
  if negb (fst move_snap_tl =? SnapCodes.None)
  then set_Position (snd move_snap_tl) w1 else w1.

Definition move_snap_br : SnapCode * int2 :=
  snap_query (<[this := PWindow move_after_tl]> h) pc (BottomRight move_after_tl)
    (mkint2 1 1) [Some this].

Definition move_after_br : Window :=
  if negb (fst move_snap_br =? SnapCodes.None)
  then set_Position (Int2.Sub (snd move_snap_br) (Size move_after_tl)) move_after_tl
  else move_after_tl.
End MoveSnap.

(** The window after the drag step of a move tick, before any snap. *)
Definition dragged (w : Window) (event : int2) : Window :=
  set_Position
    (Int2.Add (DragWindowStartPosition w) (Int2.Sub event (DragMouseStartPosition w))) w.

(** The state a finished gesture leaves a window in: no anchors, no rulers. *)
Definition ended (w : Window) : Prop :=
  AnchorControls w = [] /\ SnapRulers w = no_rulers.

(** [c] is anchored to the window [p] of the store [h]. *)
Definition anchored (h : gmap nat Panel) (p c : nat) : Prop :=
  exists w a, h !! p = Some (PWindow w) /\ a ∈ AnchorControls w /\ anchor_control a = Some c.

(** The panels taking part in the gesture of [master]: the master and,
    recursively, everything anchored. *)
Definition participates (h : gmap nat Panel) (master : nat) : nat -> Prop :=
  rtc (anchored h) master.

(** The entry of [p] is still [ref], or [p] is an ended window. *)
Definition stays (ref : option Panel) (p : nat) (h : gmap nat Panel) : Prop :=
  h !! p = ref \/ holds ended h p.

(** Every participant of the gesture of [p] in [h0] is ended in [h]. *)
Definition closed (h0 h : gmap nat Panel) (p : nat) : Prop :=
  forall p', participates h0 p p' -> holds ended h p'.

(** Invariant of the cascade that ends the gesture started on the store
    [h0]: every entry is untouched, or its whole gesture is ended. *)
Definition gesture_inv (h0 h : gmap nat Panel) : Prop :=
  forall p, h !! p = h0 !! p \/ closed h0 h p.

(** From [h] to [h'] entries only change by becoming ended windows. *)
Definition only_ends (h h' : gmap nat Panel) : Prop :=
  forall ref p, stays ref p h -> stays ref p h'.

(** Anchor lists as [GatherAnchorControls] builds them: every anchored
    control is a window, and anchoring descends along [rank] (a master
    anchors siblings and children, an anchored window only its children). *)
Definition gesture_wf (rank : nat -> nat) (h : gmap nat Panel) : Prop :=
  forall p c, anchored h p c ->
    (rank c < rank p)%nat /\ exists wc, h !! c = Some (PWindow wc).

(** Entries the snap search reports, tagged with the scale the caller
    passed. *)
Definition with_scale (offset_scale : Z) (found : list (option nat * int2)) : list Anchor :=
  map (fun f => (fst f, snd f, offset_scale)) found.

(** The window stored at [p], if [p] is a window. *)
Definition window_at (s : State) (p : nat) : option Window :=
  match heap s !! p with
  | Some (PWindow w) => Some w
  | _ => None
  end.

(** ** Concrete layouts used by the examples *)

Module Examples.

(** A snap search that finds nothing: code None, the point unchanged, no
    anchors. *)
Definition no_snap (h : gmap nat Panel) (container : nat) (pos mask : int2)
    (excluding : list (option nat)) : SnapCode * int2 := (SnapCodes.None, pos).
Definition no_anchors (h : gmap nat Panel) (container : nat) (pos mask : int2)
    (excluding : list (option nat)) : list (option nat * int2) := [].

(** A window at [position] with [size], its drag snapshot taken there with
    the pointer at the origin. *)
Definition window (position size : int2) (parent : option nat) (anchors : list Anchor)
    : Window :=
  mkWindow position size parent None (Int2.Sub size (mkint2 10 30)) 5
           (mkint2 0 0) position size anchors no_rulers false None None.

Definition store (panels : list (nat * Panel)) : State :=
  mkState (list_to_map panels) [] [].

(** One 100x100 window at the origin, in no container, anchoring nothing. *)
Definition alone_window : Window := window (mkint2 0 0) (mkint2 100 100) None [].

Definition alone : State := store [(1%nat, PWindow alone_window)].

(** A 4x4 window with a 5 pixel grab zone: both grab zones cover the middle. *)
Definition tiny : Window :=
  mkWindow (mkint2 0 0) (mkint2 4 4) None None (mkint2 4 4) 5
           (mkint2 0 0) (mkint2 0 0) (mkint2 4 4) [] no_rulers false None None.

(** Window 1 in container 0, anchoring a button (control 2, not a window). *)
Definition with_button : State :=
  store [(1%nat, PWindow (window (mkint2 0 0) (mkint2 100 100) (Some 0%nat)
                            [(Some 2%nat, mkint2 1 0, 1)]));
         (2%nat, PControl (mkControl (mkint2 80 80) (mkint2 10 10)))].

(** A snap search whose only finding is control 2 as a child of window 1. *)
Definition child_2 (h : gmap nat Panel) (container : nat) (pos mask : int2)
    (excluding : list (option nat)) : list (option nat * int2) :=
  if (container =? 1)%nat then [(Some 2%nat, mask)] else [].

(** Window 1 in container 0 with a child window 2 and a ruler on its right. *)
Definition with_child : State :=
  store [(1%nat, PWindow
            (mkWindow (mkint2 0 0) (mkint2 100 100) (Some 0%nat) None (mkint2 90 70) 5
               (mkint2 0 0) (mkint2 0 0) (mkint2 100 100) []
               (mkRulerSlots None (Some (mkRuler Vertical 101)) None None)
               false None None));
         (2%nat, PWindow (window (mkint2 30 10) (mkint2 60 60) (Some 1%nat) []))].

(** Master 1 anchors its sibling 2, which anchors its child 3; window 4 is
    not part of the gesture.  Windows 1 and 2 show rulers. *)
Definition chain_master : Window :=
  mkWindow (mkint2 0 0) (mkint2 100 100) (Some 0%nat) None (mkint2 90 70) 5
    (mkint2 0 0) (mkint2 0 0) (mkint2 100 100) [(Some 2%nat, mkint2 (-1) 0, 1)]
    (mkRulerSlots None (Some (mkRuler Vertical 101)) None None)
    false (Some (mkint2 1 0)) (Some (mkint2 1 0)).

Definition chain : State :=
  store [(1%nat, PWindow chain_master);
         (2%nat, PWindow
            (mkWindow (mkint2 100 0) (mkint2 100 100) (Some 0%nat) None (mkint2 90 70) 5
               (mkint2 0 0) (mkint2 100 0) (mkint2 100 100) [(Some 3%nat, mkint2 (-1) 0, -1)]
               (mkRulerSlots (Some (mkRuler Vertical 97)) None None None)
               false None None));
         (3%nat, PWindow (window (mkint2 0 0) (mkint2 60 60) (Some 2%nat) []));
         (4%nat, PWindow (window (mkint2 300 300) (mkint2 60 60) (Some 0%nat)
                            [(Some 1%nat, mkint2 1 0, 1)]))].

Definition chain_rank (p : nat) : nat :=
  match p with
  | 1 => 2 | 2 => 1 | 3 => 0 | _ => 3
  end%nat.

(** Window 1 with a pool of sibling anchors: 2 touches 1, 3 touches 2, 4 is
    far away.  The pool lists them in the order 4, 3, 2. *)
Definition row : State :=
  store [(1%nat, PWindow (window (mkint2 0 0) (mkint2 100 100) (Some 0%nat)
                            [(Some 4%nat, mkint2 (-1) 0, 1);
                             (Some 3%nat, mkint2 (-1) 0, 1);
                             (Some 2%nat, mkint2 (-1) 0, 1)]));
         (2%nat, PWindow (window (mkint2 100 0) (mkint2 100 100) (Some 0%nat) []));
         (3%nat, PWindow (window (mkint2 200 0) (mkint2 100 100) (Some 0%nat) []));
         (4%nat, PWindow (window (mkint2 500 500) (mkint2 100 100) (Some 0%nat) []))].

(** A snap search that snaps a TopLeft query (negative mask) to (10, 20) on
    the X axis and a BottomRight query to (300, 400) on the Y axis. *)
Definition snap_both (h : gmap nat Panel) (container : nat) (pos mask : int2)
    (excluding : list (option nat)) : SnapCode * int2 :=
  if x mask <? 0 then (SnapCodes.X, mkint2 10 20) else (SnapCodes.Y, mkint2 300 400).

(** Window 1 at (5, 5), 100x100, in container 0. *)
Definition in_container : State :=
  store [(1%nat, PWindow (window (mkint2 5 5) (mkint2 100 100) (Some 0%nat) []))].

End Examples.

(** [p] is a window of the store. *)
Definition is_window (h : gmap nat Panel) (p : nat) : Prop :=
  exists w, h !! p = Some (PWindow w).

(** A panel the snap search may report to the window [this]: a window of the
    store, below [this] in [rank]. *)
Definition good_found (rank : nat -> nat) (h : gmap nat Panel) (this : nat)
    (found : option nat * int2) : Prop :=
  exists c, fst found = Some c /\ is_window h c /\ (rank c < rank this)%nat.

Definition good_anchor (rank : nat -> nat) (h : gmap nat Panel) (this : nat)
    (a : Anchor) : Prop :=
  exists c, anchor_control a = Some c /\ is_window h c /\ (rank c < rank this)%nat.

(** The snap search as the gesture relies on it: asked for the children of
    a window (container [this], nothing excluded) or for its siblings (only
    [this] excluded), it reports windows of the store below [this]. *)
Definition search_wf (rank : nat -> nat)
    (snap_anchors : gmap nat Panel -> nat -> int2 -> int2 -> list (option nat) ->
                    list (option nat * int2)) : Prop :=
  forall h container pos mask excluding this found,
    (excluding = [] /\ container = this) \/ excluding = [Some this] ->
    found ∈ snap_anchors h container pos mask excluding ->
    good_found rank h this found.

(** Good anchors of [this] stay good. *)
Definition keeps_good (rank : nat -> nat) (this : nat) (h : gmap nat Panel)
    (w w' : Window) : Prop :=
  Forall (good_anchor rank h this) (AnchorControls w) ->
  Forall (good_anchor rank h this) (AnchorControls w').

(** The CSS cursor keyword for the signs of a mask: vertical letter first. *)
Definition cursor_of_signs (my mx : Z) : string :=
  match my, mx with
  | Z0, Z0 => ""
  | Zpos _, Z0 => "s-resize"
  | Zneg _, Z0 => "n-resize"
  | Z0, Zpos _ => "e-resize"
  | Z0, Zneg _ => "w-resize"
  | Zpos _, Zpos _ => "se-resize"
  | Zpos _, Zneg _ => "sw-resize"
  | Zneg _, Zpos _ => "ne-resize"
  | Zneg _, Zneg _ => "nw-resize"
  end.

(** A further pool for the examples: entry 9 is far from everything, entries
    7 and 8 sit at the origin. *)
Definition example_box (a : Anchor) : option AABB :=
  match anchor_control a with
  | Some 9%nat => Some (mkAABB (mkint2 500 500) (mkint2 600 600))
  | Some _ => Some (mkAABB (mkint2 0 0) (mkint2 10 10))
  | None => None
  end.

(** The state after a method that rewrote [this] to [w'] and made the
    collaborator calls [es], in order. *)
Definition put (s : State) (this : nat) (w' : Window) (es : list Effect) : State :=
  mkState (<[this := PWindow w']> (heap s)) (effects s ++ es) (timers s).

#[global] Instance Side_eq_dec : EqDecision Side.
Proof. solve_decision. Defined.

(** The orientation of a ruler created on a side. *)
Definition orient_of (side : Side) : RulerOrient :=
  match side with
  | Left | Right => Vertical
  | Top | Bottom => Horizontal
  end.

(** The window with the slot of one side replaced. *)
Definition with_slot (side : Side) (v : option Ruler) (w : Window) : Window :=
  set_SnapRulers (set_slot side v (SnapRulers w)) w.

(** The rulers of the window that its parent container holds: none without
    a container. *)
Definition container_calls (w : Window) (call : ControlId -> Effect) : list Effect :=
  match ParentContainer w with
  | Some pc => [call pc]
  | None => []
  end.

(** The [Remove] calls that clearing a slot makes. *)
Definition removal (side : Side) (w : Window) : list Effect :=
  match get_slot side (SnapRulers w) with
  | Some ruler => container_calls w (fun pc => ContainerRemove pc ruler)
  | None => []
  end.

(** A call that shows or hides a ruler in a container. *)
Definition ruler_call (e : Effect) : Prop :=
  match e with
  | ContainerAdd _ _ | ContainerRemove _ _ => True
  | _ => False
  end.

(** The window is where it was and as large as it was. *)
Definition same_layout (w w' : Window) : Prop :=
  Position w' = Position w /\ Size w' = Size w /\ ParentContainer w' = ParentContainer w.

(** The drag snapshot a resize begin at [event] takes of the window [w]. *)
Definition snapshot_of (event : int2) (w w' : Window) : Prop :=
  DragMouseStartPosition w' = event /\
  DragWindowStartPosition w' = Position w /\
  DragWindowStartSize w' = Size w /\
  same_layout w w'.

(** [m] leaves the component [proj] of the state as it was, whatever its
    outcome. *)
Definition keeps {A B} (proj : State -> B) (m : M A) : Prop :=
  forall s, proj (m s).1 = proj s.

(** [m], when it completes, has armed the timer [t] and no other. *)
Definition arms {A} (t : Z * Timer) (m : M A) : Prop :=
  forall s s' a, m s = (s', Ok a) -> timers s' = timers s ++ [t].

(** The calls and the timers of a state. *)
Definition outside (s : State) : list Effect * list (Z * Timer) := (effects s, timers s).

(** The window after a resize tick that snaps to nothing: the sizer has
    moved, the size is start size + d*mask clamped to the minimum, and the
    position is start position - d*min0(mask) clamped to the far corner. *)
Definition resized (w : Window) (d mask : int2) : Window :=
  set_Position
    (Int2.Min (Int2.Sub (DragWindowStartPosition w) (Int2.Mul d (Int2.Min0 mask)))
              (Int2.Sub (Int2.Add (DragWindowStartPosition w) (DragWindowStartSize w))
                        min_window_size))
    (set_Size (Int2.Max (Int2.Add (DragWindowStartSize w) (Int2.Mul d mask)) min_window_size)
       (set_SizerMoved true w)).

(** Two siblings in container 0: master 1 at the origin anchors window 2,
    which touches its right edge, with mask (-1, 0) and scale 1. *)
Definition anchored_pair : State :=
  Examples.store
    [(1%nat, PWindow (Examples.window (mkint2 0 0) (mkint2 100 100) (Some 0%nat)
                        [(Some 2%nat, mkint2 (-1) 0, 1)]));
     (2%nat, PWindow (Examples.window (mkint2 100 0) (mkint2 100 100) (Some 0%nat) []))].

(** The anchor list of the window stored at [p], if [p] is a window. *)
Definition anchors_at (h : gmap nat Panel) (p : nat) : option (list Anchor) :=
  match h !! p with
  | Some (PWindow w) => Some (AnchorControls w)
  | _ => None
  end.

(** [h] has the windows of [h0] with the anchor lists of [h0]. *)
Definition same_anchors (h0 h : gmap nat Panel) : Prop :=
  forall p, anchors_at h p = anchors_at h0 p.

(** A 4x4 window at the origin, in container 0, anchoring nothing. *)
Definition tiny_in_container : State :=
  Examples.store [(1%nat, PWindow (Examples.window (mkint2 0 0) (mkint2 4 4) (Some 0%nat) []))].

(** Three windows before any gesture: 1 and 2 are siblings in container 0
    and touch, 3 is a child of 2.  No anchor list holds anything. *)
Definition detach_layout : State :=
  Examples.store
    [(1%nat, PWindow (Examples.window (mkint2 0 0) (mkint2 100 100) (Some 0%nat) []));
     (2%nat, PWindow (Examples.window (mkint2 100 0) (mkint2 100 100) (Some 0%nat) []));
     (3%nat, PWindow (Examples.window (mkint2 0 0) (mkint2 60 60) (Some 2%nat) []))].

(** A snap search for that layout: among the siblings of window 1 it finds
    window 2, whose left edge follows; in the body of window 2 it finds
    window 3. *)
Definition detach_search (h : gmap nat Panel) (container : nat) (pos mask : int2)
    (excluding : list (option nat)) : list (option nat * int2) :=
  match container, excluding with
  | 0%nat, [Some 1%nat] => [(Some 2%nat, mkint2 (-1) 0)]
  | 2%nat, [] => [(Some 3%nat, mask)]
  | _, _ => []
  end.

(** * Properties *)

Lemma int2_eq (a b : int2) : x a = x b -> y a = y b -> a = b.
Proof. destruct a, b; simpl; intros; subst; reflexivity. Qed.

(** ** Edge hit-testing *)

Lemma GetSizeMask_axes (w : Window) (mouse_pos : int2) :
  let m := local_mouse w mouse_pos in
  GetSizeMask w mouse_pos =
  mkint2
    (code_axis_mask (SideBarSize w) (x (BottomRight w) - x m) (x m - x (TopLeft w)))
    (code_axis_mask (SideBarSize w) (y (BottomRight w) - y m) (y m - y (TopLeft w))).
Proof.
  unfold GetSizeMask, local_mouse, code_axis_mask, in_grab_zone.
  destruct (ParentNode w) as [pp|]; simpl;
    repeat match goal with
    | |- context [if ?b then _ else _] => destruct b eqn:?
    end; try reflexivity; exfalso; lia.
Qed.

Example hit_test_small_window :
  let w := mkWindow (mkint2 0 0) (mkint2 4 4) None None (mkint2 4 4) 5
             (mkint2 0 0) (mkint2 0 0) (mkint2 4 4) [] no_rulers false None None in
  GetSizeMask w (mkint2 2 2) = mkint2 (-1) (-1).
Proof. reflexivity. Qed.

(** ** Anchor-island discovery *)

Section Island.

Variable Intersect : AABB -> AABB -> bool.
Variable box : Anchor -> option AABB.

Local Abbreviation misses := (misses Intersect box).
Local Abbreviation hits := (hits Intersect box).

Lemma swap_remove_split (i : nat) (pool : list Anchor) (a : Anchor) :
  pool !! i = Some a ->
  pool ≡ₚ a :: swap_remove i pool /\
  take i (swap_remove i pool) = take i pool /\
  S (length (swap_remove i pool)) = length pool.
Proof.
  intros Hi.
  destruct (list_elem_of_split_length pool i a Hi) as (l1 & l2 & -> & Hlen).
  unfold swap_remove.
  destruct (decide (l2 = [])) as [-> | Hne].
  - rewrite last_snoc.
    rewrite (list_insert_id _ _ _ Hi).
    assert (Hl : (length (l1 ++ [a]) - 1)%nat = length l1).
    { rewrite length_app. simpl. lia. }
    rewrite Hl, take_app_length. subst i.
    split; [| split].
    + symmetry. apply Permutation_cons_append.
    + rewrite take_app_length. apply take_ge. lia.
    + rewrite length_app. simpl. lia.
  - destruct (exists_last Hne) as (l2' & back & ->).
    assert (Hl : last (l1 ++ a :: l2' ++ [back]) = Some back).
    { rewrite app_comm_cons, app_assoc. apply last_snoc. }
    rewrite Hl. subst i.
    assert (Hins : <[length l1 := back]> (l1 ++ a :: l2' ++ [back])
                   = (l1 ++ back :: l2') ++ [back]).
    { rewrite insert_app_r_alt by lia.
      replace (length l1 - length l1)%nat with 0%nat by lia.
      simpl. rewrite <- app_assoc. reflexivity. }
    rewrite Hins.
    assert (Hlen : (length (l1 ++ a :: l2' ++ [back]) - 1)%nat
                   = length (l1 ++ back :: l2')).
    { rewrite !length_app. simpl. rewrite length_app. simpl. lia. }
    rewrite Hlen, take_app_length.
    split; [| split].
    + rewrite <- !Permutation_middle, app_nil_r.
      apply perm_skip. reflexivity.
    + rewrite !take_app_length'; reflexivity.
    + rewrite !length_app. simpl. rewrite length_app. simpl. lia.
Qed.

Lemma take_loop_spec (b0 : AABB) (fuel : nat) :
  forall (i : nat) (pool out : list Anchor) e pool' out',
  take_loop Intersect box b0 fuel i pool out = (e, pool', out') ->
  (exists taken, out' = out ++ taken /\ Forall (hits b0) taken /\
                 pool ≡ₚ pool' ++ taken) /\
  take i pool' = take i pool /\
  (e = LoopDone -> Forall (misses b0) (drop i pool')) /\
  (length pool - i <= fuel -> e <> LoopFuel)%nat /\
  (Forall (fun a => is_Some (box a)) pool -> e <> LoopThrow).
Proof.
  induction fuel as [| fuel IH]; intros i pool out e pool' out' Hrun;
    simpl in Hrun; destruct (pool !! i) as [a |] eqn:Hi.
  - inversion Hrun; subst. repeat split; try discriminate.
    + exists []. rewrite !app_nil_r. auto.
    + apply lookup_lt_Some in Hi. lia.
  - inversion Hrun; subst. repeat split; try discriminate.
    + exists []. rewrite !app_nil_r. auto.
    + intros _. apply lookup_ge_None in Hi. rewrite drop_ge by lia. constructor.
  - destruct (box a) as [b1 |] eqn:Hbox.
    + destruct (swap_remove_split i pool a Hi) as (Hperm & Htake & Hlen).
      destruct (Intersect b0 b1) eqn:Hint.
      * destruct (IH _ _ _ _ _ _ Hrun) as ((taken & -> & Hhits & Hp) & Ht & Hd & Hf & Hth).
        repeat split.
        -- exists (a :: taken). rewrite <- app_assoc. split; [reflexivity |].
           split.
           ++ constructor; [exists b1; auto | exact Hhits].
           ++ rewrite Hperm, Hp. apply Permutation_middle.
        -- congruence.
        -- exact Hd.
        -- intros Hle. apply Hf. lia.
        -- intros Hall. apply Hth. rewrite Hperm in Hall.
           inversion Hall; assumption.
      * destruct (IH _ _ _ _ _ _ Hrun) as ((taken & -> & Hhits & Hp) & Ht & Hd & Hf & Hth).
        assert (Hi' : pool' !! i = Some a).
        { rewrite <- (lookup_take_lt pool' (S i) i) by lia.
          rewrite Ht, lookup_take_lt by lia. exact Hi. }
        repeat split.
        -- exists taken. auto.
        -- replace i with (i `min` S i)%nat at 1 2 by lia.
           rewrite <- !take_take, Ht. reflexivity.
        -- intros He. rewrite (drop_S _ _ _ Hi').
           constructor; [exists b1; auto | auto].
        -- intros Hle. apply Hf. apply lookup_lt_Some in Hi. lia.
        -- exact Hth.
    + inversion Hrun; subst.
      split; [exists []; rewrite !app_nil_r; auto |].
      split; [reflexivity |].
      split; [discriminate |].
      split; [discriminate |].
      intros Hall _. rewrite Forall_forall in Hall.
      assert (Hin : a ∈ pool') by (eapply list_elem_of_lookup_2; eauto).
      destruct (Hall a Hin) as [? Hsome]. congruence.
  - inversion Hrun; subst. repeat split; try discriminate.
    + exists []. rewrite !app_nil_r. auto.
    + intros _. apply lookup_ge_None in Hi. rewrite drop_ge by lia. constructor.
Qed.

Lemma take_connected_spec (b0 : AABB) (pool out : list Anchor) e pool' out' :
  take_connected Intersect box b0 pool out = (e, pool', out') ->
  e <> LoopFuel /\
  (Forall (fun a => is_Some (box a)) pool -> e <> LoopThrow) /\
  (e = LoopDone -> Forall (misses b0) pool') /\
  exists taken, out' = out ++ taken /\ Forall (hits b0) taken /\
                pool ≡ₚ pool' ++ taken.
Proof.
  unfold take_connected. intros Hrun.
  destruct (take_loop_spec _ _ _ _ _ _ _ _ Hrun) as (Ht & _ & Hd & Hf & Hth).
  repeat split; auto.
  apply Hf. lia.
Qed.

Lemma Forall_misses_perm (b : AABB) (pool pool1 taken : list Anchor) :
  pool ≡ₚ pool1 ++ taken -> Forall (misses b) pool -> Forall (misses b) pool1.
Proof.
  intros Hp Hall. rewrite Hp in Hall. apply Forall_app in Hall. tauto.
Qed.

Section Loop.

Variable b_this : AABB.
Variable pool0 : list Anchor.
Hypothesis boxes : Forall (fun a => is_Some (box a)) pool0.

Local Abbreviation conn := (connected Intersect box b_this pool0).

Lemma island_loop_spec (fuel : nat) :
  forall (j : nat) (pool out : list Anchor) e rest island,
  island_loop Intersect box fuel j pool out = (e, rest, island) ->
  pool0 ≡ₚ pool ++ out ->
  Forall (misses b_this) pool ->
  Forall conn out ->
  (forall a b, a ∈ take j out -> box a = Some b -> Forall (misses b) pool) ->
  (length pool + length out <= fuel + j)%nat ->
  e = LoopDone /\
  pool0 ≡ₚ rest ++ island /\
  Forall (misses b_this) rest /\
  Forall conn island /\
  (forall a b, a ∈ island -> box a = Some b -> Forall (misses b) rest).
Proof.
  induction fuel as [| fuel IH]; intros j pool out e rest island Hrun Hperm Hseed Hconn Hdone Hfuel;
    simpl in Hrun; destruct (out !! j) as [a |] eqn:Hj.
  - apply lookup_lt_Some in Hj. lia.
  - inversion Hrun; subst. apply lookup_ge_None in Hj.
    rewrite take_ge in Hdone by lia. auto.
  - assert (Ha0 : a ∈ pool0).
    { rewrite Hperm. apply elem_of_app. right. eapply list_elem_of_lookup_2; eauto. }
    assert (Hpool : Forall (fun a => is_Some (box a)) pool).
    { rewrite Hperm in boxes. apply Forall_app in boxes. tauto. }
    rewrite Forall_forall in boxes.
    destruct (boxes a Ha0) as [b0 Hb0]. rewrite Hb0 in Hrun.
    destruct (take_connected Intersect box b0 pool out) as [[e1 pool1] out1] eqn:Htake.
    destruct (take_connected_spec _ _ _ _ _ _ Htake)
      as (Hnf & Hnt & Hmiss & taken & -> & Hhits & Hp1).
    destruct e1; [| exfalso; apply Hnt; auto | exfalso; apply Hnf; auto].
    specialize (Hmiss eq_refl).
    assert (Haconn : conn a).
    { rewrite Forall_forall in Hconn. apply Hconn.
      eapply list_elem_of_lookup_2; eauto. }
    apply (IH _ _ _ _ _ _ Hrun).
    + rewrite Hperm, Hp1. rewrite <- !app_assoc.
      apply Permutation_app_head. apply Permutation_app_comm.
    + eapply Forall_misses_perm; eauto.
    + apply Forall_app. split; [exact Hconn |].
      rewrite Forall_forall in Hhits |- *. intros t Ht.
      destruct (Hhits t Ht) as (bt & Hbt & Hint).
      eapply connected_step; eauto.
      rewrite Hperm, Hp1. rewrite !elem_of_app. auto.
    + intros c bc Hc Hbc.
      assert (Hlt : (j < length out)%nat) by (eapply lookup_lt_Some; eauto).
      rewrite take_app_le in Hc by lia.
      rewrite (take_S_r _ _ _ Hj) in Hc.
      apply elem_of_app in Hc as [Hc | Hc].
      * eapply Forall_misses_perm; eauto.
      * apply list_elem_of_singleton in Hc. rewrite Hc in Hbc.
        assert (Hb : bc = b0) by congruence. rewrite Hb. exact Hmiss.
    + apply Permutation_length in Hp1. rewrite !length_app in *. lia.
  - inversion Hrun; subst. apply lookup_ge_None in Hj.
    rewrite take_ge in Hdone by lia. auto.
Qed.

Lemma make_island_spec :
  exists rest island,
    make_island Intersect box b_this pool0 = (LoopDone, rest, island) /\
    pool0 ≡ₚ rest ++ island /\
    (forall a, a ∈ island <-> conn a) /\
    Forall (misses b_this) rest /\
    (forall a b, a ∈ island -> box a = Some b -> Forall (misses b) rest).
Proof.
  unfold make_island.
  destruct (take_connected Intersect box b_this pool0 []) as [[e1 pool1] out1] eqn:Htake.
  destruct (take_connected_spec _ _ _ _ _ _ Htake)
    as (Hnf & Hnt & Hmiss & taken & -> & Hhits & Hp1).
  destruct e1; [| exfalso; apply Hnt; auto | exfalso; apply Hnf; auto].
  specialize (Hmiss eq_refl). simpl.
  destruct (island_loop Intersect box (length pool0) 0 pool1 taken)
    as [[e rest] island] eqn:Hloop.
  destruct (island_loop_spec _ _ _ _ _ _ _ Hloop) as (-> & Hp & Hseed & Hconn & Hdone).
  - exact Hp1.
  - exact Hmiss.
  - rewrite Forall_forall in Hhits |- *. intros t Ht.
    destruct (Hhits t Ht) as (bt & Hbt & Hint).
    eapply connected_seed; eauto. rewrite Hp1. rewrite elem_of_app. auto.
  - intros a b Ha. rewrite take_0 in Ha. inversion Ha.
  - apply Permutation_length in Hp1. rewrite length_app in Hp1. lia.
  - exists rest, island. repeat split; auto.
    + rewrite Forall_forall in Hconn. auto.
    + intros Hc. induction Hc as [a b Ha Hb Hint | a0 b0 a b Hc0 IHc Hb0 Ha Hb Hint].
      * rewrite Hp in Ha. apply elem_of_app in Ha as [Ha | Ha]; [| exact Ha].
        rewrite Forall_forall in Hseed.
        destruct (Hseed a Ha) as (b' & Hb' & Hno). congruence.
      * rewrite Hp in Ha. apply elem_of_app in Ha as [Ha | Ha]; [| exact Ha].
        specialize (Hdone a0 b0 IHc Hb0). rewrite Forall_forall in Hdone.
        destruct (Hdone a Ha) as (b' & Hb' & Hno). congruence.
Qed.

End Loop.

End Island.

(** ** Running methods on the store *)

Lemma bind_unfold {A B} (m : M A) (k : A -> M B) (s : State) :
  (m ≫= k) s =
  match m s with
  | (s', Ok a) => k a s'
  | (s', Threw e) => (s', Threw e)
  | (s', OutOfFuel) => (s', OutOfFuel)
  end.
Proof. reflexivity. Qed.

Lemma bind_Ok {A B} (m : M A) (k : A -> M B) (s s1 : State) (a : A) :
  m s = (s1, Ok a) -> (m ≫= k) s = k a s1.
Proof. intros H. rewrite bind_unfold, H. reflexivity. Qed.

Lemma bind_Ok_inv {A B} (m : M A) (k : A -> M B) (s s' : State) (b : B) :
  (m ≫= k) s = (s', Ok b) ->
  exists s1 a, m s = (s1, Ok a) /\ k a s1 = (s', Ok b).
Proof.
  rewrite bind_unfold. destruct (m s) as [s1 [a | e |]]; intros H;
    [eauto | discriminate | discriminate].
Qed.

Lemma is_win_insert (h : gmap nat Panel) (this : nat) (w : Window) :
  <[this := PWindow w]> h !! this = Some (PWindow w).
Proof. apply lookup_insert_eq. Qed.

Lemma acts_on_ret {A} (this : nat) (a : A) :
  acts_on this (mret a) (fun _ w w' b => w' = w /\ b = a).
Proof.
  intros s w Hw. exists s, w, a. repeat split.
  symmetry. apply insert_id. exact Hw.
Qed.

Lemma acts_on_conseq {A} (this : nat) (m : M A)
    (Q Q' : gmap nat Panel -> Window -> Window -> A -> Prop) :
  acts_on this m Q ->
  (forall h w w' a, h !! this = Some (PWindow w) -> Q h w w' a -> Q' h w w' a) ->
  acts_on this m Q'.
Proof.
  intros Hm HQ s w Hw. destruct (Hm s w Hw) as (s' & w' & a & ? & ? & ? & ?).
  exists s', w', a. auto.
Qed.

Lemma acts_on_bind {A B} (this : nat) (m : M A) (k : A -> M B)
    (Q1 : gmap nat Panel -> Window -> Window -> A -> Prop)
    (Q2 : A -> gmap nat Panel -> Window -> Window -> B -> Prop) :
  acts_on this m Q1 ->
  (forall a, acts_on this (k a) (Q2 a)) ->
  acts_on this (m ≫= k)
    (fun h w w'' b =>
       exists w' a, Q1 h w w' a /\ Q2 a (<[this := PWindow w']> h) w' w'' b).
Proof.
  intros Hm Hk s w Hw.
  destruct (Hm s w Hw) as (s1 & w1 & a & Hrun1 & Hh1 & Ht1 & HQ1).
  assert (Hw1 : is_win s1 this w1) by (unfold is_win; rewrite Hh1; apply is_win_insert).
  destruct (Hk a s1 w1 Hw1) as (s2 & w2 & b & Hrun2 & Hh2 & Ht2 & HQ2).
  exists s2, w2, b. split; [| split; [| split]].
  - rewrite (bind_Ok _ _ _ _ _ Hrun1). exact Hrun2.
  - rewrite Hh2, Hh1. apply insert_insert_eq.
  - congruence.
  - exists w1, a. rewrite <- Hh1. auto.
Qed.

Lemma acts_on_this_window (this : nat) :
  acts_on this (this_window this) (fun _ w w' a => w' = w /\ a = w).
Proof.
  intros s w Hw. exists s, w, w. unfold this_window. rewrite Hw.
  repeat split. symmetry. apply insert_id. exact Hw.
Qed.

Lemma acts_on_update_this (this : nat) (f : Window -> Window) :
  acts_on this (update_this this f) (fun _ w w' _ => w' = f w).
Proof.
  intros s w Hw. eexists _, (f w), tt. unfold update_this. rewrite Hw.
  repeat split.
Qed.

Lemma acts_on_emit (this : nat) (e : Effect) :
  acts_on this (emit e) (fun _ w w' _ => w' = w).
Proof.
  intros s w Hw. eexists _, w, tt. unfold emit. repeat split.
  simpl. symmetry. apply insert_id. exact Hw.
Qed.

Lemma acts_on_get_heap (this : nat) :
  acts_on this get_heap (fun h w w' a => w' = w /\ a = h).
Proof.
  intros s w Hw. exists s, w, (heap s). repeat split.
  symmetry. apply insert_id. exact Hw.
Qed.

Lemma acts_on_if {A} (this : nat) (c : bool) (m1 m2 : M A)
    (Q1 Q2 : gmap nat Panel -> Window -> Window -> A -> Prop) :
  acts_on this m1 Q1 -> acts_on this m2 Q2 ->
  acts_on this (if c then m1 else m2)
    (fun h w w' a => if c then Q1 h w w' a else Q2 h w w' a).
Proof. destruct c; auto. Qed.

Lemma acts_on_when (this : nat) (c : bool) (m : M unit)
    (Q : gmap nat Panel -> Window -> Window -> unit -> Prop) :
  acts_on this m Q ->
  acts_on this (when c m) (fun h w w' a => if c then Q h w w' a else w' = w).
Proof.
  intros Hm. destruct c; simpl; [exact Hm |].
  eapply acts_on_conseq; [apply acts_on_ret |]. simpl. tauto.
Qed.

Lemma acts_on_option {A B} (this : nat) (o : option B) (f : B -> M A) (g : M A)
    (Q1 : B -> gmap nat Panel -> Window -> Window -> A -> Prop)
    (Q2 : gmap nat Panel -> Window -> Window -> A -> Prop) :
  (forall b, acts_on this (f b) (Q1 b)) -> acts_on this g Q2 ->
  acts_on this (match o with Some b => f b | None => g end)
    (fun h w w' a => match o with Some b => Q1 b h w w' a | None => Q2 h w w' a end).
Proof. destruct o; auto. Qed.

Ltac acts_basic :=
  first
    [ apply acts_on_ret
    | apply acts_on_this_window
    | apply acts_on_update_this
    | apply acts_on_emit
    | apply acts_on_get_heap
    | eapply acts_on_bind; [| intros ?]
    | apply acts_on_when
    | apply acts_on_if
    | apply acts_on_option; [intros ? |] ].

Ltac acts_post :=
  simpl; intros;
  repeat match goal with
  | H : exists _, _ |- _ => destruct H
  | H : _ /\ _ |- _ => destruct H
  | H : match ?o with Some _ => _ | None => _ end |- _ => destruct o eqn:?
  | H : if ?c then _ else _ |- _ => destruct c eqn:?
  end; subst.

Lemma set_slot_None_id (side : Side) (w : Window) :
  get_slot side (SnapRulers w) = None ->
  set_SnapRulers (set_slot side None (SnapRulers w)) w = w.
Proof.
  destruct w as [? ? ? ? ? ? ? ? ? ? [l r t b] ? ? ?].
  destruct side; simpl; intros ->; reflexivity.
Qed.

Lemma acts_on_RemoveSnapRuler (this : nat) (side : Side) :
  acts_on this (RemoveSnapRuler this side)
    (fun _ w w' _ => w' = set_SnapRulers (set_slot side None (SnapRulers w)) w).
Proof.
  unfold RemoveSnapRuler.
  eapply acts_on_conseq; [repeat acts_basic |].
  acts_post; try reflexivity.
  symmetry. apply set_slot_None_id. assumption.
Qed.

Lemma acts_on_RemoveSnapRulers (this : nat) :
  acts_on this (RemoveSnapRulers this)
    (fun _ w w' _ => w' = set_SnapRulers no_rulers w).
Proof.
  unfold RemoveSnapRulers.
  eapply acts_on_conseq;
    [repeat first [apply acts_on_RemoveSnapRuler | acts_basic] |].
  acts_post. reflexivity.
Qed.

Lemma acts_on_SetSnapRuler (this : nat) (side : Side) (position : Z) :
  acts_on this (SetSnapRuler this side position) (fun _ w w' _ => only_rulers w w').
Proof.
  unfold SetSnapRuler.
  eapply acts_on_conseq; [repeat acts_basic |].
  acts_post; eexists; reflexivity.
Qed.

Lemma only_rulers_refl (w : Window) : only_rulers w w.
Proof. exists (SnapRulers w). destruct w; reflexivity. Qed.

Lemma only_rulers_trans (w1 w2 w3 : Window) :
  only_rulers w1 w2 -> only_rulers w2 w3 -> only_rulers w1 w3.
Proof. intros [r1 ->] [r2 ->]. exists r2. reflexivity. Qed.

Lemma acts_on_UpdateSnapRuler (this : nat) (side : Side) (show : bool) (position : Z) :
  acts_on this (UpdateSnapRuler this side show position) (fun _ w w' _ => only_rulers w w').
Proof.
  unfold UpdateSnapRuler. destruct show.
  - apply acts_on_SetSnapRuler.
  - eapply acts_on_conseq; [apply acts_on_RemoveSnapRuler |].
    intros h w w' _ _ ->. eexists; reflexivity.
Qed.

Lemma acts_on_UpdateTLSnapRulers (this : nat) (snap_code : SnapCode) :
  acts_on this (UpdateTLSnapRulers this snap_code) (fun _ w w' _ => only_rulers w w').
Proof.
  unfold UpdateTLSnapRulers.
  eapply acts_on_conseq;
    [repeat first [apply acts_on_UpdateSnapRuler | acts_basic] |].
  acts_post. eauto using only_rulers_trans.
Qed.

Lemma acts_on_UpdateBRSnapRulers (this : nat) (snap_code : SnapCode) :
  acts_on this (UpdateBRSnapRulers this snap_code) (fun _ w w' _ => only_rulers w w').
Proof.
  unfold UpdateBRSnapRulers.
  eapply acts_on_conseq;
    [repeat first [apply acts_on_UpdateSnapRuler | acts_basic] |].
  acts_post. eauto using only_rulers_trans.
Qed.

Section Sizing.

Variable SnapBorderSize : Z.
Variable Intersect : AABB -> AABB -> bool.
Variable snap_query :
  gmap nat Panel -> nat -> int2 -> int2 -> list (option nat) -> SnapCode * int2.
Variable snap_anchors :
  gmap nat Panel -> nat -> int2 -> int2 -> list (option nat) -> list (option nat * int2).

Lemma acts_on_GetSnapControls_query (this container : nat) (pos mask : int2)
    (excluding : list (option nat)) (offset_scale : Z) :
  acts_on this
    (GetSnapControls snap_query snap_anchors container pos mask excluding None offset_scale)
    (fun h w w' r => w' = w /\ r = snap_query h container pos mask excluding).
Proof.
  unfold GetSnapControls.
  eapply acts_on_conseq; [repeat acts_basic |].
  acts_post. auto.
Qed.

Lemma acts_on_OnSize_resize (this : nat) (event mask : int2) (offset_scale : Z)
    (master_offset : option int2) :
  acts_on this
    (OnSize_resize snap_query snap_anchors this event mask offset_scale master_offset)
    (fun _ w w' offset =>
       clamped w' /\ keeps_gesture w w' /\
       (ParentContainer w = None ->
        let d := tick_offset w event offset_scale master_offset in
        offset = d /\
        Size w' = Int2.Max (Int2.Add (DragWindowStartSize w) (Int2.Mul d mask))
                           min_window_size /\
        Position w' =
          Int2.Min (Int2.Sub (DragWindowStartPosition w) (Int2.Mul d (Int2.Min0 mask)))
                   (Int2.Sub (Int2.Add (DragWindowStartPosition w) (DragWindowStartSize w))
                             min_window_size))).
Proof.
  unfold OnSize_resize.
  eapply acts_on_conseq;
    [repeat first [ apply acts_on_GetSnapControls_query
                  | apply acts_on_UpdateBRSnapRulers
                  | apply acts_on_UpdateTLSnapRulers
                  | acts_basic ] |].
  simpl. intros h w w' offset _ H.
  repeat match goal with
  | H : exists _, _ |- _ => destruct H
  | H : _ /\ _ |- _ => destruct H
  end; subst; simpl in *.
  destruct (ParentContainer w) eqn:Hpc.
  - repeat match goal with
    | H : exists _, _ |- _ => destruct H
    | H : _ /\ _ |- _ => destruct H
    | H : only_rulers _ _ |- _ => destruct H
    | H : if ?c then _ else _ |- _ => destruct c eqn:?
    | _ => progress (subst; simpl in * )
    end;
    (split; [unfold clamped; simpl; lia |]);
    (split; [unfold keeps_gesture; simpl; auto |]);
    intros; discriminate.
  - repeat match goal with
    | H : exists _, _ |- _ => destruct H
    | H : _ /\ _ |- _ => destruct H
    | _ => progress (subst; simpl in * )
    end.
    split; [unfold clamped; simpl; lia |].
    split; [unfold keeps_gesture; simpl; auto |].
    intros _. auto.
Qed.


(** *** Properties of the whole store *)

Lemma preserves_ret {A} (P : gmap nat Panel -> Prop) (a : A) : preserves P (mret a).
Proof. intros s H. exact H. Qed.

Lemma preserves_throw {A} (P : gmap nat Panel -> Prop) (e : Error) :
  preserves P (@throw A e).
Proof. intros s H. exact H. Qed.

Lemma preserves_out_of_fuel {A} (P : gmap nat Panel -> Prop) :
  preserves P (@out_of_fuel A).
Proof. intros s H. exact H. Qed.

Lemma preserves_bind {A B} (P : gmap nat Panel -> Prop) (m : M A) (k : A -> M B) :
  preserves P m -> (forall a, preserves P (k a)) -> preserves P (m ≫= k).
Proof.
  intros Hm Hk s H. rewrite bind_unfold. specialize (Hm s H).
  destruct (m s) as [s1 [a | e |]]; simpl in *; auto.
  apply Hk. exact Hm.
Qed.

Lemma preserves_emit (P : gmap nat Panel -> Prop) (e : Effect) : preserves P (emit e).
Proof. intros s H. exact H. Qed.

Lemma preserves_get_heap (P : gmap nat Panel -> Prop) : preserves P get_heap.
Proof. intros s H. exact H. Qed.

Lemma preserves_this_window (P : gmap nat Panel -> Prop) (this : nat) :
  preserves P (this_window this).
Proof.
  intros s H. unfold this_window.
  destruct (heap s !! this) as [[w | c] |]; exact H.
Qed.

Lemma preserves_deref_ParentContainer (P : gmap nat Panel -> Prop) (this : nat) :
  preserves P (deref_ParentContainer this).
Proof.
  unfold deref_ParentContainer. apply preserves_bind.
  - apply preserves_this_window.
  - intros w. destruct (ParentContainer w); [apply preserves_ret | apply preserves_throw].
Qed.

Lemma preserves_for_each {A} (P : gmap nat Panel -> Prop) (l : list A) (body : A -> M unit) :
  (forall a, a ∈ l -> preserves P (body a)) -> preserves P (for_each l body).
Proof.
  induction l as [| a l IH]; intros Hbody; simpl.
  - apply preserves_ret.
  - apply preserves_bind.
    + apply Hbody. left.
    + intros _. apply IH. intros b Hb. apply Hbody. right. exact Hb.
Qed.

Lemma preserves_call_as_Window (P : gmap nat Panel -> Prop) (control : option nat)
    (method : nat -> M unit) :
  (forall c s w, control = Some c -> is_win s c w -> P (heap s) -> P (heap (method c s).1)) ->
  preserves P (call_as_Window control method).
Proof.
  intros Hm. unfold call_as_Window. destruct control as [c |]; [| apply preserves_ret].
  intros s H. rewrite bind_unfold. simpl.
  destruct (heap s !! c) as [[w | ?] |] eqn:Hc; simpl; auto.
  eapply Hm; eauto.
Qed.

Lemma acts_on_preserves_other {A} (this v : nat) (m : M A) (W : Window -> Prop)
    (Q : gmap nat Panel -> Window -> Window -> A -> Prop) (s : State) (w : Window) :
  acts_on this m Q -> is_win s this w -> v <> this ->
  holds W (heap s) v -> holds W (heap (m s).1) v.
Proof.
  intros Hm Hw Hne (wv & Hv & HW).
  destruct (Hm s w Hw) as (s' & w' & a & -> & Hh & _ & _). simpl.
  exists wv. rewrite Hh, lookup_insert_ne by auto. auto.
Qed.

Lemma OnSize_preserves (W : Window -> Prop) (HW : tick_stable W) (fuel : nat) :
  forall (event mask : int2) (offset_scale : Z) (master_offset : option int2)
         (this : nat) (s : State) (w : Window) (v : nat),
  is_win s this w ->
  holds W (heap s) v ->
  holds W (heap (OnSize snap_query snap_anchors fuel event mask offset_scale
                   master_offset this s).1) v.
Proof.
  induction fuel as [| fuel IH]; intros event mask offset_scale master_offset this s w v Hw Hv;
    simpl; [exact Hv |].
  destruct (acts_on_OnSize_resize this event mask offset_scale master_offset s w Hw)
    as (s1 & w1 & offset & Hrun & Hh1 & _ & Hcl & Hkeep & _).
  rewrite (bind_Ok _ _ _ _ _ Hrun).
  assert (Hv1 : holds W (heap s1) v).
  { destruct Hv as (wv & Hv & HWv). rewrite Hh1.
    destruct (decide (v = this)) as [-> | Hne].
    - exists w1. rewrite lookup_insert_eq. split; [reflexivity |].
      unfold is_win in Hw. assert (wv = w) by congruence. subst wv. eauto.
    - exists wv. rewrite lookup_insert_ne by auto. auto. }
  revert Hv1. generalize s1. clear - IH.
  change (preserves (fun h => holds W h v)
    (w ← this_window this;
     for_each (AnchorControls w) (fun control =>
       call_as_Window (anchor_control control)
         (OnSize snap_query snap_anchors fuel event (anchor_mask control)
            (anchor_scale control) (Some offset))) ;;
     emit (SetCursor (resize_cursor mask)) ;;
     pc ← deref_ParentContainer this;
     emit (UpdateControlSizes pc) ;;
     emit StopDefaultAction)).
  apply preserves_bind; [apply preserves_this_window | intros w'].
  apply preserves_bind.
  - apply preserves_for_each. intros control _.
    apply preserves_call_as_Window. intros c s w0 _ Hc Hs. eapply IH; eauto.
  - intros _. apply preserves_bind; [apply preserves_emit | intros _].
    apply preserves_bind; [apply preserves_deref_ParentContainer | intros pc].
    apply preserves_bind; [apply preserves_emit | intros _].
    apply preserves_emit.
Qed.

Lemma OnSize_establishes (fuel : nat) (event mask : int2) (offset_scale : Z)
    (master_offset : option int2) (this : nat) (s : State) (w : Window) :
  is_win s this w ->
  holds (fun w' => clamped w' /\ keeps_gesture w w')
    (heap (OnSize snap_query snap_anchors (S fuel) event mask offset_scale
             master_offset this s).1) this.
Proof.
  intros Hw.
  destruct (acts_on_OnSize_resize this event mask offset_scale master_offset s w Hw)
    as (s1 & w1 & offset & Hrun & Hh1 & _ & Hcl & Hkeep & _).
  pose (W := fun w' => clamped w' /\ keeps_gesture w w').
  assert (HW : tick_stable W).
  { intros w2 w3 [_ Hk2] Hcl3 Hk3. split; [exact Hcl3 |].
    unfold keeps_gesture in *. intuition congruence. }
  assert (H1 : holds W (heap s1) this).
  { exists w1. rewrite Hh1, lookup_insert_eq. split; [reflexivity | split; assumption]. }
  simpl. rewrite (bind_Ok _ _ _ _ _ Hrun).
  revert H1. generalize s1.
  change (preserves (fun h => holds W h this)
    (w ← this_window this;
     for_each (AnchorControls w) (fun control =>
       call_as_Window (anchor_control control)
         (OnSize snap_query snap_anchors fuel event (anchor_mask control)
            (anchor_scale control) (Some offset))) ;;
     emit (SetCursor (resize_cursor mask)) ;;
     pc ← deref_ParentContainer this;
     emit (UpdateControlSizes pc) ;;
     emit StopDefaultAction)).
  apply preserves_bind; [apply preserves_this_window | intros w'].
  apply preserves_bind.
  - apply preserves_for_each. intros control _.
    apply preserves_call_as_Window. intros c s0 w0 _ Hc Hs.
    eapply OnSize_preserves; eauto.
  - intros _. apply preserves_bind; [apply preserves_emit | intros _].
    apply preserves_bind; [apply preserves_deref_ParentContainer | intros pc].
    apply preserves_bind; [apply preserves_emit | intros _].
    apply preserves_emit.
Qed.


Lemma set_AnchorControls_id (w : Window) : set_AnchorControls (AnchorControls w) w = w.
Proof. destruct w; reflexivity. Qed.

Lemma this_window_run (this : nat) (s : State) (w : Window) :
  is_win s this w -> this_window this s = (s, Ok w).
Proof. intros Hw. unfold this_window. rewrite Hw. reflexivity. Qed.

Lemma update_this_run (this : nat) (f : Window -> Window) (s : State) (w : Window) :
  is_win s this w ->
  update_this this f s =
  (mkState (<[this := PWindow (f w)]> (heap s)) (effects s) (timers s), Ok tt).
Proof. intros Hw. unfold update_this. rewrite Hw. reflexivity. Qed.

Lemma for_each_OnSize_preserves (W : Window -> Prop) (HW : tick_stable W) (fuel : nat)
    (event offset : int2) (l : list Anchor) (v : nat) :
  preserves (fun h => holds W h v)
    (for_each l (fun control =>
       call_as_Window (anchor_control control)
         (OnSize snap_query snap_anchors fuel event (anchor_mask control)
            (anchor_scale control) (Some offset)))).
Proof.
  apply preserves_for_each. intros control _.
  apply preserves_call_as_Window. intros c s w _ Hc Hs.
  eapply OnSize_preserves; eauto.
Qed.

(** A tick on a window with no parent container never completes, whatever it
    anchors: if the propagation completes, the unguarded
    [this.ParentContainer.UpdateControlSizes()] throws. *)
Lemma OnSize_without_container_fails (fuel : nat) (event mask : int2) (offset_scale : Z)
    (master_offset : option int2) (this : nat) (s : State) (w : Window) :
  is_win s this w ->
  ParentContainer w = None ->
  (OnSize snap_query snap_anchors fuel event mask offset_scale master_offset this s).2
  <> Ok tt.
Proof.
  intros Hw Hpc. destruct fuel as [| fuel]; [discriminate |].
  destruct (acts_on_OnSize_resize this event mask offset_scale master_offset s w Hw)
    as (s1 & w1 & offset & Hrun & Hh1 & _ & _ & Hkeep & _).
  destruct Hkeep as (Hpc1 & _).
  assert (Hw1 : is_win s1 this w1) by (unfold is_win; rewrite Hh1; apply is_win_insert).
  simpl OnSize. rewrite (bind_Ok _ _ _ _ _ Hrun).
  rewrite (bind_Ok _ _ _ _ _ (this_window_run _ _ _ Hw1)).
  rewrite bind_unfold.
  pose proof (for_each_OnSize_preserves (fun w' => ParentContainer w' = None)) as Hloop.
  specialize (Hloop ltac:(intros ? ? ? ? (-> & _); assumption)
                fuel event offset (AnchorControls w1) this s1).
  destruct (for_each (AnchorControls w1) _ s1) as [s2 o2].
  destruct Hloop as (w2 & Hw2 & Hpc2); [exists w1; split; [exact Hw1 | congruence] |].
  destruct o2 as [[] | e |]; [| discriminate | discriminate].
  simpl in Hw2.
  unfold deref_ParentContainer, this_window, emit, mbind, M_bind, bind, mret, M_ret, ret,
    throw.
  cbn [heap effects timers]. rewrite Hw2, Hpc2. discriminate.
Qed.

(** A tick on a window with no parent container and no anchors: the resize
    and the clamp are applied, then the unguarded
    [this.ParentContainer.UpdateControlSizes()] throws. *)
Lemma OnSize_alone (fuel : nat) (event mask : int2) (offset_scale : Z)
    (master_offset : option int2) (this : nat) (s : State) (w : Window) :
  is_win s this w ->
  ParentContainer w = None ->
  AnchorControls w = [] ->
  let d := tick_offset w event offset_scale master_offset in
  exists s' w',
    OnSize snap_query snap_anchors (S fuel) event mask offset_scale master_offset this s
    = (s', Threw TypeError) /\
    heap s' = <[this := PWindow w']> (heap s) /\
    Size w' = Int2.Max (Int2.Add (DragWindowStartSize w) (Int2.Mul d mask))
                       min_window_size /\
    Position w' =
      Int2.Min (Int2.Sub (DragWindowStartPosition w) (Int2.Mul d (Int2.Min0 mask)))
               (Int2.Sub (Int2.Add (DragWindowStartPosition w) (DragWindowStartSize w))
                         min_window_size).
Proof.
  intros Hw Hpc Hanch d.
  destruct (acts_on_OnSize_resize this event mask offset_scale master_offset s w Hw)
    as (s1 & w1 & offset & Hrun & Hh1 & _ & _ & Hkeep & Hexact).
  destruct (Hexact Hpc) as (_ & Hsize & Hpos).
  destruct Hkeep as (Hpc1 & _ & _ & _ & Hanch1).
  assert (Hw1 : is_win s1 this w1) by (unfold is_win; rewrite Hh1; apply is_win_insert).
  simpl OnSize. rewrite (bind_Ok _ _ _ _ _ Hrun).
  rewrite (bind_Ok _ _ _ _ _ (this_window_run _ _ _ Hw1)).
  rewrite Hanch1, Hanch. simpl for_each.
  exists (mkState (heap s1) (effects s1 ++ [SetCursor (resize_cursor mask)]) (timers s1)), w1.
  split; [| auto].
  unfold deref_ParentContainer, this_window, emit, mbind, M_bind, bind, mret, M_ret, ret,
    throw.
  cbn [heap effects timers]. rewrite Hw1, Hpc1, Hpc. reflexivity.
Qed.


(** *** Move ticks *)

Lemma acts_on_OnMove_snap (this pc : nat) :
  acts_on this (OnMove_snap snap_query snap_anchors this pc)
    (fun h w w' _ => only_rulers (move_after_br snap_query h this pc w) w').
Proof.
  unfold OnMove_snap.
  eapply acts_on_conseq;
    [repeat first [ apply acts_on_GetSnapControls_query
                  | apply acts_on_UpdateBRSnapRulers
                  | apply acts_on_UpdateTLSnapRulers
                  | acts_basic ] |].
  simpl. intros h w w' _ Hw H.
  repeat match goal with
  | H : exists _, _ |- _ => destruct H
  | H : _ /\ _ |- _ => destruct H
  end; subst.
  rewrite ?insert_insert_eq, ?(insert_id h this (PWindow w) Hw) in *.
  unfold move_after_br, move_snap_br, move_after_tl, move_snap_tl.
  repeat match goal with
  | H : if ?c then _ else _ |- _ => destruct c eqn:?
  | _ => progress (subst; rewrite ?insert_insert_eq, ?(insert_id h this (PWindow w) Hw) in * )
  end;
  repeat match goal with
  | H : ?c = _ |- context [if ?c then _ else _] => rewrite H
  end; eauto using only_rulers_trans.
Qed.


Lemma OnMove_with_container (this pc : nat) (event : int2) (s : State) (w : Window) :
  is_win s this w ->
  ParentContainer w = Some pc ->
  let w1 := dragged w event in
  exists s' w',
    OnMove snap_query snap_anchors this event s = (s', Ok tt) /\
    heap s' = <[this := PWindow w']> (heap s) /\
    only_rulers
      (move_after_br snap_query (<[this := PWindow w1]> (heap s)) this pc w1) w'.
Proof.
  intros Hw Hpc w1. unfold OnMove.
  rewrite (bind_Ok _ _ _ _ _ (this_window_run _ _ _ Hw)).
  rewrite (bind_Ok _ _ _ _ _ (update_this_run _ _ _ _ Hw)).
  fold (dragged w event). fold w1.
  set (s1 := mkState (<[this := PWindow w1]> (heap s)) (effects s) (timers s)).
  assert (Hw1 : is_win s1 this w1) by apply is_win_insert.
  rewrite (bind_Ok _ _ _ _ _ (this_window_run _ _ _ Hw1)).
  replace (ParentContainer w1) with (Some pc) by (symmetry; exact Hpc).
  destruct (acts_on_OnMove_snap this pc s1 w1 Hw1) as (s2 & w2 & [] & Hrun & Hh2 & _ & Hr).
  rewrite (bind_Ok _ _ _ _ _ Hrun).
  assert (Hw2 : is_win s2 this w2) by (unfold is_win; rewrite Hh2; apply is_win_insert).
  assert (Hpc2 : ParentContainer w2 = Some pc).
  { destruct Hr as [r ->]. simpl.
    unfold move_after_br, move_after_tl.
    repeat match goal with |- context [if ?c then _ else _] => destruct c end;
      simpl; exact Hpc. }
  eexists _, w2. split; [| split; [| exact Hr]].
  - unfold deref_ParentContainer, this_window, emit, mbind, M_bind, bind, mret, M_ret, ret.
    cbn [heap effects timers]. rewrite Hw2, Hpc2. reflexivity.
  - simpl. rewrite Hh2. simpl. apply insert_insert_eq.
Qed.

Lemma OnMove_without_container (this : nat) (event : int2) (s : State) (w : Window) :
  is_win s this w ->
  ParentContainer w = None ->
  OnMove snap_query snap_anchors this event s =
  (mkState (<[this := PWindow (dragged w event)]> (heap s)) (effects s) (timers s),
   Threw TypeError).
Proof.
  intros Hw Hpc. unfold OnMove.
  rewrite (bind_Ok _ _ _ _ _ (this_window_run _ _ _ Hw)).
  rewrite (bind_Ok _ _ _ _ _ (update_this_run _ _ _ _ Hw)).
  fold (dragged w event).
  set (s1 := mkState (<[this := PWindow (dragged w event)]> (heap s)) (effects s) (timers s)).
  assert (Hw1 : is_win s1 this (dragged w event)) by apply is_win_insert.
  rewrite (bind_Ok _ _ _ _ _ (this_window_run _ _ _ Hw1)).
  replace (ParentContainer (dragged w event)) with (@None nat) by (symmetry; exact Hpc).
  unfold deref_ParentContainer, this_window, mbind, M_bind, bind, mret, M_ret, ret, throw.
  rewrite Hw1. simpl. rewrite Hpc. reflexivity.
Qed.


(** *** Ending a resize *)

Lemma acts_on_OnEndSize_finish (this : nat) :
  acts_on this (OnEndSize_finish this) (fun _ _ w' _ => ended w').
Proof.
  unfold OnEndSize_finish.
  eapply acts_on_conseq;
    [repeat first [apply acts_on_RemoveSnapRulers | acts_basic] |].
  acts_post. split; reflexivity.
Qed.

Lemma OnEndSize_finish_not_window (this : nat) (s : State) :
  (forall w, ~ is_win s this w) ->
  OnEndSize_finish this s = (s, Threw TypeError).
Proof.
  intros Hn. unfold OnEndSize_finish. rewrite bind_unfold.
  unfold update_this. destruct (heap s !! this) as [[w | c] |] eqn:Hl; try reflexivity.
  exfalso. eapply Hn. exact Hl.
Qed.

Lemma stays_finish (ref : option Panel) (p this : nat) :
  preserves (stays ref p) (OnEndSize_finish this).
Proof.
  intros s Hs.
  destruct (heap s !! this) as [[w | c] |] eqn:Hl.
  - destruct (acts_on_OnEndSize_finish this s w Hl) as (s' & w' & [] & -> & Hh & _ & He).
    simpl. unfold stays in *. rewrite Hh.
    destruct (decide (p = this)) as [-> | Hne].
    + right. exists w'. rewrite lookup_insert_eq. auto.
    + unfold holds. rewrite lookup_insert_ne by auto. exact Hs.
  - rewrite OnEndSize_finish_not_window; [exact Hs |].
    intros w Hw. unfold is_win in Hw. congruence.
  - rewrite OnEndSize_finish_not_window; [exact Hs |].
    intros w Hw. unfold is_win in Hw. congruence.
Qed.

Lemma OnEndSize_stays (ref : option Panel) (p : nat) (event mask : int2) (fuel : nat) :
  forall this, preserves (stays ref p) (OnEndSize fuel event mask this).
Proof.
  induction fuel as [| fuel IH]; intros this; simpl.
  - apply preserves_out_of_fuel.
  - apply preserves_bind; [apply preserves_this_window | intros w].
    apply preserves_bind; [| intros _; apply stays_finish].
    apply preserves_for_each. intros control _.
    apply preserves_call_as_Window. intros c s w0 _ _ Hs. apply IH. exact Hs.
Qed.

Lemma OnEndSize_keeps_ended (p : nat) (event mask : int2) (fuel this : nat) (s : State) :
  holds ended (heap s) p ->
  holds ended (heap (OnEndSize fuel event mask this s).1) p.
Proof.
  intros Hp.
  destruct (OnEndSize_stays (heap s !! p) p event mask fuel this s) as [Heq | He].
  - left. reflexivity.
  - unfold holds in *. rewrite Heq. exact Hp.
  - exact He.
Qed.

Lemma OnEndSize_keeps_closed (h0 : gmap nat Panel) (p : nat) (event mask : int2)
    (fuel this : nat) (s : State) :
  closed h0 (heap s) p ->
  closed h0 (heap (OnEndSize fuel event mask this s).1) p.
Proof. intros Hc p' Hp'. apply OnEndSize_keeps_ended. auto. Qed.


Lemma only_ends_ended (h h' : gmap nat Panel) (p : nat) :
  only_ends h h' -> holds ended h p -> holds ended h' p.
Proof.
  intros Hoe Hp. destruct (Hoe (h !! p) p) as [Heq | He].
  - left. reflexivity.
  - unfold holds in *. rewrite Heq. exact Hp.
  - exact He.
Qed.

Lemma only_ends_closed (h0 h h' : gmap nat Panel) (p : nat) :
  only_ends h h' -> closed h0 h p -> closed h0 h' p.
Proof. intros Hoe Hc p' Hp'. eapply only_ends_ended; eauto. Qed.

Lemma only_ends_insert (h : gmap nat Panel) (this : nat) (w' : Window) :
  ended w' -> only_ends h (<[this := PWindow w']> h).
Proof.
  intros He ref p Hs. unfold stays, holds in *.
  destruct (decide (p = this)) as [-> | Hne].
  - right. exists w'. rewrite lookup_insert_eq. auto.
  - rewrite lookup_insert_ne by auto. exact Hs.
Qed.

Lemma for_each_OnEndSize_only_ends (event mask : int2) (fuel : nat) (l : list Anchor)
    (s : State) :
  only_ends (heap s)
    (heap (for_each l (fun control =>
             call_as_Window (anchor_control control) (OnEndSize fuel event mask)) s).1).
Proof.
  intros ref p. revert s.
  change (preserves (stays ref p)
            (for_each l (fun control =>
               call_as_Window (anchor_control control) (OnEndSize fuel event mask)))).
  apply preserves_for_each. intros control _.
  apply preserves_call_as_Window. intros c s w _ _ Hs.
  apply OnEndSize_stays. exact Hs.
Qed.

Section Cascade.

Variable h0 : gmap nat Panel.
Variables event mask : int2.
Variable fuel : nat.

(** The statement proved by induction on the recursion budget. *)
Hypothesis IH :
  forall this s s' o,
    gesture_inv h0 (heap s) ->
    OnEndSize fuel event mask this s = (s', o) ->
    gesture_inv h0 (heap s') /\ (o = Ok tt -> closed h0 (heap s') this).

Lemma call_OnEndSize_closes (control : option nat) (s s' : State) (o : Outcome unit) :
  gesture_inv h0 (heap s) ->
  call_as_Window control (OnEndSize fuel event mask) s = (s', o) ->
  gesture_inv h0 (heap s') /\
  (o = Ok tt -> forall c, control = Some c -> closed h0 (heap s') c).
Proof.
  intros Hinv Hrun. unfold call_as_Window in Hrun.
  destruct control as [c |].
  - rewrite bind_unfold in Hrun. simpl in Hrun.
    destruct (heap s !! c) as [[w | ?] |] eqn:Hc.
    + destruct (IH _ _ _ _ Hinv Hrun) as [Hinv' Hcl].
      split; [exact Hinv' |]. intros Ho c' [= <-]. auto.
    + inversion Hrun; subst. split; [exact Hinv | discriminate].
    + inversion Hrun; subst. split; [exact Hinv | discriminate].
  - inversion Hrun; subst. split; [exact Hinv |]. intros _ c [=].
Qed.

Lemma for_each_OnEndSize_closes (l : list Anchor) :
  forall (s s' : State) (o : Outcome unit),
  gesture_inv h0 (heap s) ->
  for_each l (fun control =>
    call_as_Window (anchor_control control) (OnEndSize fuel event mask)) s = (s', o) ->
  gesture_inv h0 (heap s') /\
  (o = Ok tt ->
   forall a c, a ∈ l -> anchor_control a = Some c -> closed h0 (heap s') c).
Proof.
  induction l as [| a l IHl]; intros s s' o Hinv Hrun; simpl in Hrun.
  - inversion Hrun; subst. split; [exact Hinv |].
    intros _ a c Ha. inversion Ha.
  - rewrite bind_unfold in Hrun.
    destruct (call_as_Window (anchor_control a) (OnEndSize fuel event mask) s)
      as [s1 o1] eqn:Hcall.
    destruct (call_OnEndSize_closes _ _ _ _ Hinv Hcall) as [Hinv1 Hcl1].
    destruct o1 as [[] | e |].
    + destruct (IHl _ _ _ Hinv1 Hrun) as [Hinv' Hcl'].
      split; [exact Hinv' |].
      intros Ho b c Hb Hbc. apply elem_of_cons in Hb as [-> | Hb].
      * eapply only_ends_closed; [| apply (Hcl1 eq_refl c Hbc)].
        pose proof (for_each_OnEndSize_only_ends event mask fuel l s1) as Hoe.
        rewrite Hrun in Hoe. exact Hoe.
      * eapply Hcl'; eauto.
    + inversion Hrun; subst. split; [exact Hinv1 | discriminate].
    + inversion Hrun; subst. split; [exact Hinv1 | discriminate].
Qed.

Lemma OnEndSize_step_closes (this : nat) (s s' : State) (o : Outcome unit) :
  gesture_inv h0 (heap s) ->
  OnEndSize (S fuel) event mask this s = (s', o) ->
  gesture_inv h0 (heap s') /\ (o = Ok tt -> closed h0 (heap s') this).
Proof.
  intros Hinv Hrun. simpl in Hrun. rewrite bind_unfold in Hrun.
  unfold this_window in Hrun.
  destruct (heap s !! this) as [[w | ?] |] eqn:Hthis;
    [| inversion Hrun; subst; split; [exact Hinv | discriminate] ..].
  rewrite bind_unfold in Hrun.
  destruct (for_each (AnchorControls w) _ s) as [s1 o1] eqn:Hloop.
  destruct (for_each_OnEndSize_closes _ _ _ _ Hinv Hloop) as [Hinv1 Hcl1].
  pose proof (for_each_OnEndSize_only_ends event mask fuel (AnchorControls w) s) as Hoe.
  rewrite Hloop in Hoe. simpl in Hoe.
  destruct o1 as [[] | e |];
    [| inversion Hrun; subst; split; [exact Hinv1 | discriminate] ..].
  assert (Hwin1 : exists w1, is_win s1 this w1).
  { destruct (Hoe (heap s !! this) this) as [Heq | (w1 & Hw1 & _)].
    - left. reflexivity.
    - exists w. unfold is_win. congruence.
    - exists w1. exact Hw1. }
  destruct Hwin1 as [w1 Hw1].
  destruct (acts_on_OnEndSize_finish this s1 w1 Hw1) as (s2 & w2 & [] & Hfin & Hh2 & _ & He).
  rewrite Hfin in Hrun. inversion Hrun; subst s2 o. clear Hrun.
  pose proof (only_ends_insert (heap s1) this w2 He) as Hoe2. rewrite <- Hh2 in Hoe2.
  assert (Hclosed : closed h0 (heap s') this).
  { intros p' Hp'. apply rtc_inv in Hp' as [<- | (c & Hanch & Hreach)].
    - exists w2. rewrite Hh2, lookup_insert_eq. auto.
    - apply (only_ends_ended _ _ _ Hoe2).
      destruct (Hinv this) as [Heq | Hcl].
      + destruct Hanch as (w0 & a & Hw0 & Ha & Hac).
        assert (w0 = w) by congruence. subst w0.
        exact (Hcl1 eq_refl a c Ha Hac p' Hreach).
      + apply (only_ends_ended _ _ _ Hoe). apply Hcl.
        eapply rtc_l; eauto. }
  split; [| intros _; exact Hclosed].
  intros p. destruct (decide (p = this)) as [-> | Hne]; [right; exact Hclosed |].
  destruct (Hinv1 p) as [Heq | Hcl].
  - left. rewrite Hh2, lookup_insert_ne by auto. exact Heq.
  - right. eapply only_ends_closed; eauto.
Qed.

End Cascade.

Lemma OnEndSize_closes (h0 : gmap nat Panel) (event mask : int2) (fuel : nat) :
  forall this s s' o,
    gesture_inv h0 (heap s) ->
    OnEndSize fuel event mask this s = (s', o) ->
    gesture_inv h0 (heap s') /\ (o = Ok tt -> closed h0 (heap s') this).
Proof.
  induction fuel as [| fuel IH]; intros this s s' o Hinv Hrun.
  - inversion Hrun; subst. split; [exact Hinv | discriminate].
  - eapply OnEndSize_step_closes; eauto.
Qed.


Lemma only_ends_window (h h' : gmap nat Panel) (p : nat) (w : Window) :
  only_ends h h' -> h !! p = Some (PWindow w) -> exists w', h' !! p = Some (PWindow w').
Proof.
  intros Hoe Hp. destruct (Hoe (h !! p) p) as [Heq | (w' & Hw' & _)].
  - left. reflexivity.
  - exists w. congruence.
  - exists w'. exact Hw'.
Qed.

Lemma only_ends_wf (rank : nat -> nat) (h h' : gmap nat Panel) :
  only_ends h h' -> gesture_wf rank h -> gesture_wf rank h'.
Proof.
  intros Hoe Hwf p c (w & a & Hp & Ha & Hac).
  destruct (Hoe (h !! p) p) as [Heq | (w' & Hw' & Hanch & _)].
  - left. reflexivity.
  - destruct (Hwf p c) as [Hlt (wc & Hc)].
    + exists w, a. rewrite <- Heq. auto.
    + split; [exact Hlt |]. eapply only_ends_window; eauto.
  - assert (w' = w) by congruence. subst w'. rewrite Hanch in Ha. inversion Ha.
Qed.

Lemma OnEndSize_only_ends (event mask : int2) (fuel this : nat) (s : State) :
  only_ends (heap s) (heap (OnEndSize fuel event mask this s).1).
Proof. intros ref p. apply OnEndSize_stays. Qed.

Lemma for_each_OnEndSize_completes (rank : nat -> nat) (event mask : int2) (fuel : nat)
    (IH : forall this s w, gesture_wf rank (heap s) -> is_win s this w ->
                           (rank this < fuel)%nat ->
                           exists s', OnEndSize fuel event mask this s = (s', Ok tt))
    (l : list Anchor) :
  forall s,
  gesture_wf rank (heap s) ->
  (forall a c, a ∈ l -> anchor_control a = Some c ->
               (rank c < fuel)%nat /\ exists wc, is_win s c wc) ->
  exists s',
    for_each l (fun control =>
      call_as_Window (anchor_control control) (OnEndSize fuel event mask)) s = (s', Ok tt).
Proof.
  induction l as [| a l IHl]; intros s Hwf Hl; simpl.
  - eexists. reflexivity.
  - assert (Hcall : exists s1,
              call_as_Window (anchor_control a) (OnEndSize fuel event mask) s = (s1, Ok tt) /\
              only_ends (heap s) (heap s1)).
    { unfold call_as_Window. destruct (anchor_control a) as [c |] eqn:Hac.
      - destruct (Hl a c) as [Hlt (wc & Hc)]; [left | exact Hac |].
        rewrite bind_unfold. simpl. rewrite Hc.
        destruct (IH c s wc Hwf Hc Hlt) as [s1 Hrun].
        exists s1. split; [exact Hrun |].
        pose proof (OnEndSize_only_ends event mask fuel c s) as Hoe.
        rewrite Hrun in Hoe. exact Hoe.
      - exists s. split; [reflexivity |]. intros ref p H. exact H. }
    destruct Hcall as (s1 & Hrun1 & Hoe).
    rewrite (bind_Ok _ _ _ _ _ Hrun1).
    apply IHl.
    + eapply only_ends_wf; eauto.
    + intros b c Hb Hbc. destruct (Hl b c) as [Hlt (wc & Hc)]; [right; exact Hb | exact Hbc |].
      split; [exact Hlt |]. eapply only_ends_window; eauto.
Qed.

(** On anchor lists made of windows the cascade completes: a budget above
    the rank of the master is enough. *)
Lemma OnEndSize_completes (rank : nat -> nat) (event mask : int2) (fuel : nat) :
  forall this s w,
    gesture_wf rank (heap s) -> is_win s this w -> (rank this < fuel)%nat ->
    exists s', OnEndSize fuel event mask this s = (s', Ok tt).
Proof.
  induction fuel as [| fuel IH]; intros this s w Hwf Hw Hlt; [lia |].
  simpl. rewrite (bind_Ok _ _ _ _ _ (this_window_run _ _ _ Hw)).
  destruct (for_each_OnEndSize_completes rank event mask fuel IH (AnchorControls w) s Hwf)
    as [s1 Hloop].
  { intros a c Ha Hac. destruct (Hwf this c) as [Hr Hc].
    - exists w, a. auto.
    - split; [lia | exact Hc]. }
  rewrite (bind_Ok _ _ _ _ _ Hloop).
  pose proof (for_each_OnEndSize_only_ends event mask fuel (AnchorControls w) s) as Hoe.
  rewrite Hloop in Hoe. simpl in Hoe.
  destruct (only_ends_window _ _ _ _ Hoe Hw) as [w1 Hw1].
  destruct (acts_on_OnEndSize_finish this s1 w1 Hw1) as (s2 & w2 & [] & Hfin & _).
  exists s2. exact Hfin.
Qed.


(** *** Beginning a resize *)

Lemma acts_on_GetSnapControls_into (this container : nat) (pos mask : int2)
    (excluding : list (option nat)) (offset_scale : Z) :
  acts_on this
    (GetSnapControls snap_query snap_anchors container pos mask excluding (Some this)
       offset_scale)
    (fun h w w' r =>
       w' = set_AnchorControls
              (AnchorControls w ++
               with_scale offset_scale (snap_anchors h container pos mask excluding)) w /\
       r = snap_query h container pos mask excluding).
Proof.
  unfold GetSnapControls.
  eapply acts_on_conseq; [repeat acts_basic |].
  acts_post. auto.
Qed.

Lemma acts_on_GatherAnchorControls_children (this : nat) (mask : int2) :
  acts_on this (GatherAnchorControls_children snap_query snap_anchors this mask)
    (fun h w w' _ =>
       let this_br := Int2.Sub (BodySize w) Int2.One in
       let grown :=
         if positive_mask mask
         then with_scale 1 (snap_anchors h this this_br mask [])
         else [] in
       let h1 := <[this := PWindow (set_AnchorControls (AnchorControls w ++ grown) w)]> h in
       let shrunk :=
         if negative_mask mask
         then with_scale (-1) (snap_anchors h1 this this_br mask [])
         else [] in
       w' = set_AnchorControls (AnchorControls w ++ grown ++ shrunk) w).
Proof.
  unfold GatherAnchorControls_children.
  eapply acts_on_conseq;
    [repeat first [apply acts_on_GetSnapControls_into | acts_basic] |].
  simpl. intros h w w' u Hw H.
  repeat match goal with
  | H : exists _, _ |- _ => destruct H
  | H : _ /\ _ |- _ => destruct H
  end; subst.
  rewrite ?insert_insert_eq, ?(insert_id h this (PWindow w) Hw) in *.
  destruct (positive_mask mask), (negative_mask mask);
    repeat match goal with
    | H : exists _, _ |- _ => destruct H
    | H : _ /\ _ |- _ => destruct H
    | _ => progress (subst; simpl in *;
                     rewrite ?insert_insert_eq, ?(insert_id h this (PWindow w) Hw) in * )
    end;
    rewrite ?app_nil_r, <- ?app_assoc;
    try reflexivity.
  - rewrite (set_AnchorControls_id w), (insert_id h this (PWindow w) Hw). reflexivity.
  - symmetry. apply set_AnchorControls_id.
Qed.


Lemma update_this_Ok_inv (this : nat) (f : Window -> Window) (s s' : State) :
  update_this this f s = (s', Ok tt) ->
  exists w, is_win s this w /\
            s' = mkState (<[this := PWindow (f w)]> (heap s)) (effects s) (timers s).
Proof.
  unfold update_this, is_win.
  destruct (heap s !! this) as [[w | c] |]; intros H; inversion H; eauto.
Qed.

Lemma OnBeginSize_arm_run (this : nat) (mask : int2) (s : State) (w : Window) :
  is_win s this w ->
  exists eff,
    OnBeginSize_arm this mask s =
    (mkState (<[this := PWindow (set_OnEndSizeDelegate (Some mask)
                                   (set_OnSizeDelegate (Some mask) w))]> (heap s))
             eff (timers s ++ [(1000, DetachTimer this)]), Ok tt).
Proof.
  intros Hw. unfold OnBeginSize_arm.
  set (s1 := mkState (heap s) (effects s) (timers s ++ [(1000, DetachTimer this)])).
  rewrite (bind_Ok (setTimeout (DetachTimer this) 1000) _ s s1 tt eq_refl).
  assert (Hw1 : is_win s1 this w) by exact Hw.
  rewrite (bind_Ok _ _ _ _ _ (update_this_run _ _ _ _ Hw1)).
  match goal with
  | |- context [(update_this _ _ ≫= _) ?st] =>
      assert (Hw2 : is_win st this (set_OnSizeDelegate (Some mask) w))
        by apply is_win_insert;
      rewrite (bind_Ok _ _ _ _ _ (update_this_run _ _ _ _ Hw2))
  end.
  unfold emit, mbind, M_bind, bind. cbn [heap effects timers].
  rewrite insert_insert_eq. eexists. reflexivity.
Qed.

Lemma acts_on_fire_timer (this : nat) :
  acts_on this (fire_timer (DetachTimer this))
    (fun _ w w' _ =>
       if SizerMoved w then w' = w
       else w' = set_SnapRulers no_rulers (set_AnchorControls [] w)).
Proof.
  unfold fire_timer.
  eapply acts_on_conseq;
    [repeat first [apply acts_on_RemoveSnapRulers | acts_basic] |].
  simpl. intros h w w' u Hw H.
  repeat match goal with
  | H : exists _, _ |- _ => destruct H
  | H : _ /\ _ |- _ => destruct H
  end; subst.
  destruct (SizerMoved w); simpl in *;
    repeat match goal with
    | H : exists _, _ |- _ => destruct H
    | H : _ /\ _ |- _ => destruct H
    end; subst; reflexivity.
Qed.

(** A master [OnBeginSize] that completes leaves [this] with [SizerMoved]
    false and the detach timer armed with a 1000 ms delay. *)
Lemma OnBeginSize_master_arms (fuel : nat) (event : int2) (in_mask : option int2)
    (this : nat) (s s' : State) :
  OnBeginSize SnapBorderSize Intersect snap_query snap_anchors fuel event in_mask true this s
  = (s', Ok tt) ->
  exists w', is_win s' this w' /\ SizerMoved w' = false /\
             (1000, DetachTimer this) ∈ timers s'.
Proof.
  destruct fuel as [| fuel]; [discriminate |]. simpl. intros Hrun.
  repeat match type of Hrun with
  | (update_this _ (set_SizerMoved false) ≫= _) _ = _ => fail 1
  | (_ ≫= _) _ = _ =>
      apply bind_Ok_inv in Hrun; destruct Hrun as (? & ? & _ & Hrun)
  end.
  apply bind_Ok_inv in Hrun. destruct Hrun as (s1 & [] & Hupd & Hrun).
  apply update_this_Ok_inv in Hupd. destruct Hupd as (w1 & Hw1 & ->).
  simpl in Hrun.
  match type of Hrun with
  | OnBeginSize_arm _ ?mask ?st = _ =>
      destruct (OnBeginSize_arm_run this mask st (set_SizerMoved false w1)) as [eff Harm];
        [apply is_win_insert |]; rewrite Harm in Hrun
  end.
  inversion Hrun; subst s'. clear Hrun.
  eexists. split; [apply is_win_insert |]. split; [reflexivity |].
  simpl. apply elem_of_app. right. left.
Qed.


(** [MakeAnchorControlIsland] on a store where every pooled control exists:
    it completes and replaces the anchor list by the island. *)
Lemma MakeAnchorControlIsland_run (this : nat) (s : State) (w : Window) :
  is_win s this w ->
  Forall (fun a => is_Some (anchor_box SnapBorderSize (heap s) a)) (AnchorControls w) ->
  exists b_this rest island,
    MakeControlAABB SnapBorderSize (heap s) (Some this) = Some b_this /\
    make_island Intersect (anchor_box SnapBorderSize (heap s)) b_this (AnchorControls w)
    = (LoopDone, rest, island) /\
    MakeAnchorControlIsland SnapBorderSize Intersect this s =
    (mkState (<[this := PWindow (set_AnchorControls island w)]> (heap s))
             (effects s) (timers s), Ok tt).
Proof.
  intros Hw Hboxes.
  assert (Hb : exists b_this,
             MakeControlAABB SnapBorderSize (heap s) (Some this) = Some b_this).
  { unfold MakeControlAABB. rewrite Hw. eauto. }
  destruct Hb as [b_this Hb].
  destruct (make_island_spec Intersect (anchor_box SnapBorderSize (heap s)) b_this
              (AnchorControls w) Hboxes) as (rest & island & Hrun & _).
  exists b_this, rest, island. split; [exact Hb |]. split; [exact Hrun |].
  unfold MakeAnchorControlIsland.
  rewrite (bind_Ok _ _ s s (heap s) eq_refl).
  rewrite (bind_Ok _ _ _ _ _ (this_window_run _ _ _ Hw)).
  rewrite Hb, Hrun. apply update_this_run. exact Hw.
Qed.

(** *** Completion of a resize begin *)

Lemma preserves_update_this_window (p this : nat) (f : Window -> Window) :
  preserves (fun h => is_window h p) (update_this this f).
Proof.
  intros s Hp. unfold update_this.
  destruct (heap s !! this) as [[w | c] |] eqn:Hthis; simpl; try exact Hp.
  unfold is_window. destruct (decide (p = this)) as [-> | Hne].
  - rewrite lookup_insert_eq. eauto.
  - rewrite lookup_insert_ne by auto. exact Hp.
Qed.

Lemma preserves_setTimeout (P : gmap nat Panel -> Prop) (t : Timer) (delay : Z) :
  preserves P (setTimeout t delay).
Proof. intros s H. exact H. Qed.

Ltac pres_step :=
  lazymatch goal with
  | |- preserves _ (_ ≫= _) => apply preserves_bind; [| intros ?]
  | |- preserves _ (mret _) => apply preserves_ret
  | |- preserves _ (ret _) => apply preserves_ret
  | |- preserves _ (throw _) => apply preserves_throw
  | |- preserves _ out_of_fuel => apply preserves_out_of_fuel
  | |- preserves _ (emit _) => apply preserves_emit
  | |- preserves _ get_heap => apply preserves_get_heap
  | |- preserves _ (this_window _) => apply preserves_this_window
  | |- preserves _ (update_this _ _) => apply preserves_update_this_window
  | |- preserves _ (setTimeout _ _) => apply preserves_setTimeout
  | |- preserves _ (when ?b _) => destruct b; unfold when
  | |- preserves _ (if ?b then _ else _) => destruct b
  | |- preserves _ (match ?o with Some _ => _ | None => _ end) => destruct o
  end.

Lemma windows_GetSnapControls (p container : nat) (pos mask : int2)
    (excluding : list (option nat)) (controls : option nat) (offset_scale : Z) :
  preserves (fun h => is_window h p)
    (GetSnapControls snap_query snap_anchors container pos mask excluding controls
       offset_scale).
Proof. unfold GetSnapControls. repeat pres_step. Qed.

Lemma windows_RemoveSnapRuler (p this : nat) (side : Side) :
  preserves (fun h => is_window h p) (RemoveSnapRuler this side).
Proof. unfold RemoveSnapRuler. repeat pres_step. Qed.

Lemma windows_SetSnapRuler (p this : nat) (side : Side) (position : Z) :
  preserves (fun h => is_window h p) (SetSnapRuler this side position).
Proof. unfold SetSnapRuler. repeat pres_step. Qed.

Lemma windows_UpdateSnapRuler (p this : nat) (side : Side) (show : bool) (position : Z) :
  preserves (fun h => is_window h p) (UpdateSnapRuler this side show position).
Proof.
  unfold UpdateSnapRuler. destruct show;
    [apply windows_SetSnapRuler | apply windows_RemoveSnapRuler].
Qed.

Lemma windows_UpdateBRSnapRulers (p this : nat) (snap_code : SnapCode) :
  preserves (fun h => is_window h p) (UpdateBRSnapRulers this snap_code).
Proof.
  unfold UpdateBRSnapRulers.
  repeat first [apply windows_UpdateSnapRuler | pres_step].
Qed.

Lemma windows_UpdateTLSnapRulers (p this : nat) (snap_code : SnapCode) :
  preserves (fun h => is_window h p) (UpdateTLSnapRulers this snap_code).
Proof.
  unfold UpdateTLSnapRulers.
  repeat first [apply windows_UpdateSnapRuler | pres_step].
Qed.

Lemma windows_MakeAnchorControlIsland (p this : nat) :
  preserves (fun h => is_window h p)
    (MakeAnchorControlIsland SnapBorderSize Intersect this).
Proof.
  unfold MakeAnchorControlIsland.
  apply preserves_bind; [apply preserves_get_heap | intros h].
  apply preserves_bind; [apply preserves_this_window | intros w].
  destruct (MakeControlAABB SnapBorderSize h (Some this)); [| apply preserves_throw].
  destruct (make_island _ _ _ _) as [[[] pool] island]; repeat pres_step.
Qed.

Lemma windows_GatherAnchorControls (p this : nat) (mask : int2) (gather : bool) :
  preserves (fun h => is_window h p)
    (GatherAnchorControls SnapBorderSize Intersect snap_query snap_anchors this mask gather).
Proof.
  unfold GatherAnchorControls, GatherAnchorControls_siblings, GatherAnchorControls_children.
  repeat first [ apply windows_GetSnapControls
               | apply windows_UpdateBRSnapRulers
               | apply windows_UpdateTLSnapRulers
               | apply windows_MakeAnchorControlIsland
               | pres_step ].
Qed.

Lemma windows_OnBeginSize (p : nat) (event : int2) (fuel : nat) :
  forall (in_mask : option int2) (master_control : bool) (this : nat),
  preserves (fun h => is_window h p)
    (OnBeginSize SnapBorderSize Intersect snap_query snap_anchors fuel event in_mask
       master_control this).
Proof.
  induction fuel as [| fuel IH]; intros in_mask master_control this; simpl.
  - apply preserves_out_of_fuel.
  - unfold OnBeginSize_arm.
    repeat first [ apply windows_GatherAnchorControls
                 | apply preserves_for_each; intros control _;
                   apply preserves_call_as_Window; intros c s w _ _ Hs; apply IH; exact Hs
                 | pres_step ].
Qed.

Section Completion.

Variable rank : nat -> nat.
Hypothesis search_ok : search_wf rank snap_anchors.

Lemma is_window_insert_ne (h : gmap nat Panel) (this c : nat) (w' : Window) :
  c <> this -> (is_window (<[this := PWindow w']> h) c <-> is_window h c).
Proof. intros Hne. unfold is_window. rewrite lookup_insert_ne by auto. tauto. Qed.

Lemma good_anchor_insert (h : gmap nat Panel) (this : nat) (w' : Window) (a : Anchor) :
  good_anchor rank (<[this := PWindow w']> h) this a <-> good_anchor rank h this a.
Proof.
  split; intros (c & Hc & Hwin & Hlt); exists c; (split; [exact Hc |]);
    (split; [| exact Hlt]);
    [apply (is_window_insert_ne h this c w') | apply is_window_insert_ne];
    try exact Hwin; intros ->; lia.
Qed.

Lemma Forall_good_insert (h : gmap nat Panel) (this : nat) (w' : Window) (l : list Anchor) :
  Forall (good_anchor rank (<[this := PWindow w']> h) this) l <->
  Forall (good_anchor rank h this) l.
Proof.
  rewrite !Forall_forall. split; intros H a Ha.
  - apply (good_anchor_insert h this w' a). auto.
  - apply good_anchor_insert. auto.
Qed.

Local Abbreviation good this := (fun h w w' (_ : unit) => keeps_good rank this h w w').

Lemma good_same (this : nat) (h : gmap nat Panel) (w w' : Window) :
  AnchorControls w' = AnchorControls w -> keeps_good rank this h w w'.
Proof. intros Heq H. rewrite Heq. exact H. Qed.

Lemma good_bind {A} (this : nat) (m : M A) (k : A -> M unit) :
  acts_on this m (fun h w w' _ => keeps_good rank this h w w') ->
  (forall a, acts_on this (k a) (good this)) ->
  acts_on this (m ≫= k) (good this).
Proof.
  intros Hm Hk. eapply acts_on_conseq; [eapply acts_on_bind; [exact Hm | exact Hk] |].
  simpl. intros h w w'' _ _ (w' & a & H1 & H2) Hgood.
  apply (Forall_good_insert h this w'). apply H2.
  apply Forall_good_insert. auto.
Qed.

Lemma good_this_window (this : nat) :
  acts_on this (this_window this) (fun h w w' _ => keeps_good rank this h w w').
Proof.
  eapply acts_on_conseq; [apply acts_on_this_window |].
  intros h w w' a _ [-> _]. apply good_same. reflexivity.
Qed.

Lemma good_ret (this : nat) : acts_on this (mret tt) (good this).
Proof.
  eapply acts_on_conseq; [apply acts_on_ret |].
  intros h w w' a _ [-> _]. apply good_same. reflexivity.
Qed.

Lemma good_when (this : nat) (c : bool) (m : M unit) :
  acts_on this m (good this) -> acts_on this (when c m) (good this).
Proof. intros Hm. destruct c; [exact Hm | apply good_ret]. Qed.

Lemma good_rulers {A} (this : nat) (m : M A) :
  acts_on this m (fun _ w w' _ => only_rulers w w') ->
  acts_on this m (fun h w w' _ => keeps_good rank this h w w').
Proof.
  intros Hm. eapply acts_on_conseq; [exact Hm |].
  intros h w w' a _ [r ->]. apply good_same. reflexivity.
Qed.

Lemma good_GetSnapControls (this container : nat) (pos mask : int2)
    (excluding : list (option nat)) (offset_scale : Z) :
  (excluding = [] /\ container = this) \/ excluding = [Some this] ->
  acts_on this
    (GetSnapControls snap_query snap_anchors container pos mask excluding (Some this)
       offset_scale)
    (fun h w w' _ => keeps_good rank this h w w').
Proof.
  intros Hcall. eapply acts_on_conseq; [apply acts_on_GetSnapControls_into |].
  intros h w w' r _ [-> _] Hgood. simpl.
  apply Forall_app. split; [exact Hgood |].
  unfold with_scale. apply Forall_map. apply Forall_forall. intros found Hfound.
  destruct (search_ok h container pos mask excluding this found Hcall Hfound)
    as (c & Hc & Hwin & Hlt).
  exists c. auto.
Qed.

Lemma good_children (this : nat) (mask : int2) :
  acts_on this (GatherAnchorControls_children snap_query snap_anchors this mask)
    (good this).
Proof.
  unfold GatherAnchorControls_children.
  apply good_bind; [apply good_this_window | intros w].
  apply good_bind.
  - apply good_when. apply good_bind; [| intros; apply good_ret].
    apply good_GetSnapControls. auto.
  - intros _. apply good_when. apply good_bind; [| intros; apply good_ret].
    apply good_GetSnapControls. auto.
Qed.

Lemma good_sibling_queries (this pc : nat) (mask : int2) (w : Window) :
  acts_on this
    (when (negb (Bool.eqb (negb (x mask =? 0)) (negb (y mask =? 0))))
       (when (positive_mask mask)
          (snap ← GetSnapControls snap_query snap_anchors pc (BottomRight w) mask
                    [Some this] (Some this) 1;
           UpdateBRSnapRulers this (fst snap)) ;;
        when (negative_mask mask)
          (snap ← GetSnapControls snap_query snap_anchors pc (TopLeft w) mask
                    [Some this] (Some this) 1;
           UpdateTLSnapRulers this (fst snap))))
    (good this).
Proof.
  apply good_when. apply good_bind.
  - apply good_when. apply good_bind; [apply good_GetSnapControls; auto | intros snap].
    apply good_rulers. apply acts_on_UpdateBRSnapRulers.
  - intros _. apply good_when.
    apply good_bind; [apply good_GetSnapControls; auto | intros snap].
    apply good_rulers. apply acts_on_UpdateTLSnapRulers.
Qed.

Lemma good_anchor_box (h : gmap nat Panel) (this : nat) (l : list Anchor) :
  Forall (good_anchor rank h this) l ->
  Forall (fun a => is_Some (anchor_box SnapBorderSize h a)) l.
Proof.
  intros H. eapply Forall_impl; [exact H |].
  intros a (c & Hc & (wc & Hwc) & _).
  unfold anchor_box, MakeControlAABB. rewrite Hc, Hwc. eauto.
Qed.

Lemma siblings_run (this pc : nat) (mask : int2) (s : State) (w : Window) :
  is_win s this w ->
  Forall (good_anchor rank (heap s) this) (AnchorControls w) ->
  exists s' w',
    GatherAnchorControls_siblings SnapBorderSize Intersect snap_query snap_anchors
      this pc mask s = (s', Ok tt) /\
    heap s' = <[this := PWindow w']> (heap s) /\
    Forall (good_anchor rank (heap s) this) (AnchorControls w').
Proof.
  intros Hw Hgood. unfold GatherAnchorControls_siblings.
  rewrite (bind_Ok _ _ _ _ _ (this_window_run _ _ _ Hw)).
  destruct (good_sibling_queries this pc mask w s w Hw)
    as (s1 & w1 & [] & Hrun1 & Hh1 & _ & Hkeep).
  rewrite (bind_Ok _ _ _ _ _ Hrun1).
  specialize (Hkeep Hgood).
  assert (Hw1 : is_win s1 this w1) by (unfold is_win; rewrite Hh1; apply is_win_insert).
  assert (Hgood1 : Forall (good_anchor rank (heap s1) this) (AnchorControls w1)).
  { rewrite Hh1. apply Forall_good_insert. exact Hkeep. }
  pose proof (good_anchor_box _ _ _ Hgood1) as Hboxes.
  destruct (MakeAnchorControlIsland_run this s1 w1 Hw1 Hboxes)
    as (b_this & rest & island & Hb & Hisland & Hrun2).
  destruct (make_island_spec Intersect (anchor_box SnapBorderSize (heap s1)) b_this
              (AnchorControls w1) Hboxes) as (rest' & island' & Hisland' & Hperm & _).
  rewrite Hisland in Hisland'. inversion Hisland'; subst rest' island'. clear Hisland'.
  eexists _, (set_AnchorControls island w1).
  split; [exact Hrun2 |]. split.
  - simpl. rewrite Hh1. apply insert_insert_eq.
  - simpl. rewrite Hperm in Hkeep. apply Forall_app in Hkeep. tauto.
Qed.

Lemma GatherAnchorControls_run (this : nat) (mask : int2) (gather : bool)
    (s : State) (w : Window) :
  is_win s this w ->
  exists s' w',
    GatherAnchorControls SnapBorderSize Intersect snap_query snap_anchors this mask gather s
    = (s', Ok tt) /\
    is_win s' this w' /\
    Forall (good_anchor rank (heap s') this) (AnchorControls w').
Proof.
  intros Hw. unfold GatherAnchorControls.
  rewrite (bind_Ok _ _ _ _ _ (update_this_run _ _ _ _ Hw)).
  set (w1 := set_AnchorControls [] w).
  set (s1 := mkState (<[this := PWindow w1]> (heap s)) (effects s) (timers s)).
  assert (Hw1 : is_win s1 this w1) by apply is_win_insert.
  rewrite (bind_Ok _ _ _ _ _ (this_window_run _ _ _ Hw1)).
  assert (Hsib : exists s2 w2,
             (match gather, ParentContainer w1 with
              | true, Some parent_container =>
                  GatherAnchorControls_siblings SnapBorderSize Intersect snap_query
                    snap_anchors this parent_container mask
              | _, _ => ret tt
              end) s1 = (s2, Ok tt) /\
             heap s2 = <[this := PWindow w2]> (heap s1) /\
             Forall (good_anchor rank (heap s1) this) (AnchorControls w2)).
  { destruct gather, (ParentContainer w1) as [pc |];
      try (exists s1, w1; split; [reflexivity |];
           split; [symmetry; apply insert_id; exact Hw1 | constructor]).
    apply (siblings_run this pc mask s1 w1 Hw1). constructor. }
  destruct Hsib as (s2 & w2 & Hrun2 & Hh2 & Hgood2).
  rewrite (bind_Ok _ _ _ _ _ Hrun2).
  assert (Hw2 : is_win s2 this w2) by (unfold is_win; rewrite Hh2; apply is_win_insert).
  destruct (good_children this mask s2 w2 Hw2) as (s3 & w3 & [] & Hrun3 & Hh3 & _ & Hkeep).
  exists s3, w3. split; [exact Hrun3 |].
  split; [unfold is_win; rewrite Hh3; apply is_win_insert |].
  rewrite Hh3. apply Forall_good_insert. apply Hkeep.
  rewrite Hh2. apply Forall_good_insert. exact Hgood2.
Qed.

Lemma for_each_OnBeginSize_completes (event : int2) (fuel : nat)
    (IH : forall in_mask master this s w,
            is_win s this w -> (rank this < fuel)%nat ->
            exists s', OnBeginSize SnapBorderSize Intersect snap_query snap_anchors fuel
                         event in_mask master this s = (s', Ok tt))
    (bound : nat) (l : list Anchor) :
  forall s,
  (bound <= fuel)%nat ->
  Forall (fun a => exists c, anchor_control a = Some c /\ is_window (heap s) c /\
                             (rank c < bound)%nat) l ->
  exists s',
    for_each l (fun control =>
      call_as_Window (anchor_control control)
        (OnBeginSize SnapBorderSize Intersect snap_query snap_anchors fuel event
           (Some (anchor_mask control)) false)) s = (s', Ok tt) /\
    (forall p, is_window (heap s) p -> is_window (heap s') p).
Proof.
  induction l as [| a l IHl]; intros s Hle Hl; simpl.
  - exists s. split; [reflexivity | auto].
  - apply Forall_cons in Hl as [(c & Hc & (wc & Hwc) & Hlt) Hl].
    destruct (IH (Some (anchor_mask a)) false c s wc Hwc ltac:(lia)) as [s1 Hrun1].
    assert (Hcall : call_as_Window (anchor_control a)
                      (OnBeginSize SnapBorderSize Intersect snap_query snap_anchors fuel
                         event (Some (anchor_mask a)) false) s = (s1, Ok tt)).
    { unfold call_as_Window. rewrite Hc, bind_unfold. simpl. rewrite Hwc. exact Hrun1. }
    rewrite (bind_Ok _ _ _ _ _ Hcall).
    assert (Hkept : forall p, is_window (heap s) p -> is_window (heap s1) p).
    { intros p Hp.
      pose proof (windows_OnBeginSize p event fuel (Some (anchor_mask a)) false c s Hp) as H.
      rewrite Hrun1 in H. exact H. }
    destruct (IHl s1 Hle) as (s' & Hrun' & Hkept').
    + eapply Forall_impl; [exact Hl |]. intros b (cb & Hcb & Hwb & Hltb). eauto.
    + exists s'. split; [exact Hrun' | auto].
Qed.

(** [OnBeginSize] completes on every window, for every mask and both as
    master and as anchored window, within a budget above the window's
    rank. *)
Lemma OnBeginSize_completes (event : int2) (fuel : nat) :
  forall in_mask master this s w,
    is_win s this w -> (rank this < fuel)%nat ->
    exists s', OnBeginSize SnapBorderSize Intersect snap_query snap_anchors fuel
                 event in_mask master this s = (s', Ok tt).
Proof.
  induction fuel as [| fuel IH]; intros in_mask master this s w Hw Hlt; [lia |].
  simpl.
  rewrite (bind_Ok _ _ _ _ _ (update_this_run _ _ _ _ Hw)).
  match goal with
  | |- context [(update_this _ _ ≫= _) ?st] =>
      assert (Hw1 : is_win st this (set_DragMouseStartPosition event w))
        by apply is_win_insert;
      rewrite (bind_Ok _ _ _ _ _ (update_this_run _ _ _ _ Hw1))
  end.
  match goal with
  | |- context [(update_this _ _ ≫= _) ?st] =>
      match goal with
      | |- context [<[this := PWindow ?w2]> _] =>
          assert (Hw2 : is_win st this w2) by apply is_win_insert;
          rewrite (bind_Ok _ _ _ _ _ (update_this_run _ _ _ _ Hw2))
      end
  end.
  match goal with
  | |- context [(this_window _ ≫= _) ?st] =>
      match goal with
      | |- context [<[this := PWindow ?w3]> (heap _)] =>
          assert (Hw3 : is_win st this w3) by apply is_win_insert;
          rewrite (bind_Ok _ _ _ _ _ (this_window_run _ _ _ Hw3))
      end
  end.
  match goal with
  | |- context [(GatherAnchorControls _ _ _ _ _ ?mask _ ≫= _) ?st] =>
      match type of Hw3 with
      | is_win _ _ ?w3 =>
          destruct (GatherAnchorControls_run this mask master st w3 Hw3)
            as (s4 & w4 & Hrun4 & Hw4 & Hgood4)
      end
  end.
  rewrite (bind_Ok _ _ _ _ _ Hrun4).
  rewrite (bind_Ok _ _ _ _ _ (this_window_run _ _ _ Hw4)).
  destruct (for_each_OnBeginSize_completes event fuel IH (rank this) (AnchorControls w4) s4)
    as (s5 & Hrun5 & Hkept); [lia | exact Hgood4 |].
  rewrite (bind_Ok _ _ _ _ _ Hrun5).
  destruct (Hkept this (ex_intro _ w4 Hw4)) as [w5 Hw5].
  rewrite (bind_Ok _ _ _ _ _ (update_this_run _ _ _ _ Hw5)).
  destruct master; simpl.
  - match goal with
    | |- context [OnBeginSize_arm _ ?mask ?st] =>
        destruct (OnBeginSize_arm_run this mask st (set_SizerMoved false w5)) as [eff Harm];
          [apply is_win_insert | rewrite Harm; eauto]
    end.
  - eauto.
Qed.

End Completion.

End Sizing.

(** * Properties stated by the specification *)

(** ** Resize arithmetic *)

(** Without a container and without anchors the far corner of a shrinking
    window stays where the gesture found it: the BottomRight corner for a
    top/left edge, and the position for a bottom/right edge of a window that
    started at least as large as the minimum. *)
Lemma OnSize_alone_far_corner snap_query snap_anchors (fuel : nat) (event mask : int2)
    (offset_scale : Z) (master_offset : option int2) (this : nat) (s : State) (w : Window) :
  is_win s this w ->
  ParentContainer w = None ->
  AnchorControls w = [] ->
  exists w',
    window_at (OnSize snap_query snap_anchors (S fuel) event mask offset_scale
                 master_offset this s).1 this = Some w' /\
    (x mask = -1 ->
     x (BottomRight w') = x (DragWindowStartPosition w) + x (DragWindowStartSize w)) /\
    (y mask = -1 ->
     y (BottomRight w') = y (DragWindowStartPosition w) + y (DragWindowStartSize w)) /\
    (0 <= x mask -> 50 <= x (DragWindowStartSize w) ->
     x (TopLeft w') = x (DragWindowStartPosition w)) /\
    (0 <= y mask -> 50 <= y (DragWindowStartSize w) ->
     y (TopLeft w') = y (DragWindowStartPosition w)).
Proof.
  intros Hw Hpc Hanch.
  destruct (OnSize_alone snap_query snap_anchors fuel event mask offset_scale
              master_offset this s w Hw Hpc Hanch) as (s' & w' & -> & Hh & Hsize & Hpos).
  exists w'. unfold window_at. simpl. rewrite Hh, lookup_insert_eq.
  split; [reflexivity |].
  unfold BottomRight, TopLeft. rewrite Hsize, Hpos.
  unfold min_window_size. simpl.
  repeat split; intros; try rewrite H; nia.
Qed.

(** C1 (amended): a resize tick on a window with no parent container and an
    empty anchor list, whose minimum-size clamp does not engage (the start
    size and start size + d*mask are at least 50 on both axes), sets size =
    start size + d*mask
    and position = start position - d*min0(mask), [d] being the offset the
    tick works with (the pointer offset for the master).  So an axis with
    mask 0 keeps its size and position, and an axis with a positive mask
    keeps its position.  This holds for every mask, in particular for the
    masks with exactly one nonzero axis. *)
Theorem OnSize_resizes_by_offset_times_mask snap_query snap_anchors
    (fuel : nat) (event mask : int2) (offset_scale : Z) (master_offset : option int2)
    (this : nat) (s : State) (w : Window) :
  is_win s this w ->
  ParentContainer w = None ->
  AnchorControls w = [] ->
  let d := tick_offset w event offset_scale master_offset in
  50 <= x (DragWindowStartSize w) -> 50 <= y (DragWindowStartSize w) ->
  50 <= x (DragWindowStartSize w) + x d * x mask ->
  50 <= y (DragWindowStartSize w) + y d * y mask ->
  exists w',
    window_at (OnSize snap_query snap_anchors (S fuel) event mask offset_scale
                 master_offset this s).1 this = Some w' /\
    Size w' = Int2.Add (DragWindowStartSize w) (Int2.Mul d mask) /\
    Position w' = Int2.Sub (DragWindowStartPosition w) (Int2.Mul d (Int2.Min0 mask)) /\
    (x mask = 0 -> x (Size w') = x (DragWindowStartSize w) /\
                   x (Position w') = x (DragWindowStartPosition w)) /\
    (y mask = 0 -> y (Size w') = y (DragWindowStartSize w) /\
                   y (Position w') = y (DragWindowStartPosition w)) /\
    (0 < x mask -> x (Position w') = x (DragWindowStartPosition w)) /\
    (0 < y mask -> y (Position w') = y (DragWindowStartPosition w)).
Proof.
  intros Hw Hpc Hanch d Hx0 Hy0 Hx Hy.
  destruct (OnSize_alone snap_query snap_anchors fuel event mask offset_scale
              master_offset this s w Hw Hpc Hanch) as (s' & w' & -> & Hh & Hsize & Hpos).
  fold d in Hsize, Hpos. clearbody d.
  exists w'. unfold window_at. simpl. rewrite Hh, lookup_insert_eq.
  split; [reflexivity |].
  assert (Hs : Size w' = Int2.Add (DragWindowStartSize w) (Int2.Mul d mask)).
  { rewrite Hsize. apply int2_eq; unfold min_window_size; simpl; lia. }
  assert (Hp : Position w'
               = Int2.Sub (DragWindowStartPosition w) (Int2.Mul d (Int2.Min0 mask))).
  { rewrite Hpos. apply int2_eq; unfold min_window_size; simpl; nia. }
  rewrite Hs, Hp. simpl.
  repeat split; intros; try rewrite H; nia.
Qed.

Lemma OnSize_resizes_by_offset_times_mask_witness :
  is_win Examples.alone 1%nat Examples.alone_window /\
  exists w',
    window_at (OnSize Examples.no_snap Examples.no_anchors 1 (mkint2 20 7) (mkint2 1 0) 1
                 None 1%nat Examples.alone).1 1%nat = Some w' /\
    Size w' = mkint2 120 100 /\ Position w' = mkint2 0 0.
Proof.
  split; [reflexivity |].
  destruct (OnSize_resizes_by_offset_times_mask Examples.no_snap Examples.no_anchors
              0 (mkint2 20 7) (mkint2 1 0) 1 None 1%nat Examples.alone
              Examples.alone_window)
    as (w' & Hw' & Hs & Hp & _);
    [reflexivity | reflexivity | reflexivity | | | | |].
  - vm_compute. discriminate.
  - vm_compute. discriminate.
  - vm_compute. discriminate.
  - vm_compute. discriminate.
  - exists w'. split; [exact Hw' |]. split; [exact Hs | exact Hp].
Defined.

(** C1 as stated fails when the clamp engages: dragging the right edge of a
    100-wide window by -80 leaves it 50 wide, not 100 + (-80)*1 = 20. *)
Lemma OnSize_clamp_breaks_exact_delta :
  let s' := (OnSize Examples.no_snap Examples.no_anchors 1 (mkint2 (-80) 0) (mkint2 1 0) 1
               None 1%nat Examples.alone).1 in
  (x ∘ Size) <$> window_at s' 1%nat = Some 50 /\
  (x ∘ DragWindowStartSize) <$> window_at s' 1%nat = Some 100 /\
  50 <> 100 + (-80) * 1.
Proof. vm_compute. repeat split; discriminate. Qed.

(** ** Edge hit-testing *)

(** C3 (amended): each axis of the mask is -1 when the offset from TopLeft
    to the pointer lies in [0, grab-zone width); otherwise +1 when the
    offset from the pointer to BottomRight lies in that range; otherwise 0.
    When both offsets are in range the TopLeft side wins. *)
Theorem GetSizeMask_hit_test (w : Window) (mouse_pos : int2) :
  let m := local_mouse w mouse_pos in
  let to_br := Int2.Sub (BottomRight w) m in
  let from_tl := Int2.Sub m (TopLeft w) in
  GetSizeMask w mouse_pos =
    mkint2 (code_axis_mask (SideBarSize w) (x to_br) (x from_tl))
           (code_axis_mask (SideBarSize w) (y to_br) (y from_tl)) /\
  (in_grab_zone (SideBarSize w) (x to_br) = true ->
   in_grab_zone (SideBarSize w) (x from_tl) = true -> x (GetSizeMask w mouse_pos) = -1) /\
  (in_grab_zone (SideBarSize w) (y to_br) = true ->
   in_grab_zone (SideBarSize w) (y from_tl) = true -> y (GetSizeMask w mouse_pos) = -1).
Proof.
  intros m to_br from_tl.
  pose proof (GetSizeMask_axes w mouse_pos) as H. simpl in H. fold m in H.
  split; [exact H |].
  rewrite H. simpl. unfold code_axis_mask.
  split; intros _ ->; reflexivity.
Qed.

Lemma GetSizeMask_hit_test_witness :
  let w := Examples.tiny in
  in_grab_zone 5 2 = true /\ x (GetSizeMask w (mkint2 2 2)) = -1.
Proof.
  split; [reflexivity |].
  apply (GetSizeMask_hit_test Examples.tiny (mkint2 2 2)); reflexivity.
Defined.

(** C3 as stated fails where both grab zones overlap: the specification's
    rule gives +1, the code gives -1. *)
Lemma GetSizeMask_BottomRight_does_not_win :
  ~ (forall (w : Window) (mouse_pos : int2),
       let m := local_mouse w mouse_pos in
       GetSizeMask w mouse_pos =
       mkint2 (spec_axis_mask (SideBarSize w) (x (BottomRight w) - x m) (x m - x (TopLeft w)))
              (spec_axis_mask (SideBarSize w) (y (BottomRight w) - y m) (y m - y (TopLeft w)))).
Proof.
  intros H. specialize (H Examples.tiny (mkint2 2 2)). vm_compute in H. discriminate.
Qed.

(** ** Anchor-island discovery *)

(** C4: [MakeAnchorControlIsland] terminates and replaces the anchor list
    by the full connected component of the seed window in the pool, for the
    relation "the snap-border-expanded boxes intersect".  If the box of the
    window [this] intersects the box of a pooled panel B and B's box
    intersects the box of a pooled panel C, the island contains B and C; the
    island is exactly the set of pooled entries connected to the seed, and
    no panel left in the pool intersects the seed or an island member. *)
Theorem MakeAnchorControlIsland_connected_component
    (SnapBorderSize : Z) (Intersect : AABB -> AABB -> bool)
    (this : nat) (s : State) (w : Window) :
  is_win s this w ->
  Forall (fun a => is_Some (anchor_box SnapBorderSize (heap s) a)) (AnchorControls w) ->
  let box := anchor_box SnapBorderSize (heap s) in
  let pool := AnchorControls w in
  exists b_this rest island,
    MakeControlAABB SnapBorderSize (heap s) (Some this) = Some b_this /\
    MakeAnchorControlIsland SnapBorderSize Intersect this s =
      (mkState (<[this := PWindow (set_AnchorControls island w)]> (heap s))
               (effects s) (timers s), Ok tt) /\
    pool ≡ₚ rest ++ island /\
    (forall B C bB bC,
       B ∈ pool -> C ∈ pool -> box B = Some bB -> box C = Some bC ->
       Intersect b_this bB = true -> Intersect bB bC = true ->
       B ∈ island /\ C ∈ island) /\
    (forall a, a ∈ island <-> connected Intersect box b_this pool a) /\
    (forall r br, r ∈ rest -> box r = Some br ->
       Intersect b_this br = false /\
       forall a ba, a ∈ island -> box a = Some ba -> Intersect ba br = false).
Proof.
  intros Hw Hboxes box pool.
  destruct (MakeAnchorControlIsland_run SnapBorderSize Intersect this s w Hw Hboxes)
    as (b_this & rest & island & Hb & Hisland & Hrun).
  destruct (make_island_spec Intersect box b_this pool Hboxes)
    as (rest' & island' & Hisland' & Hperm & Hconn & Hseed & Hdone).
  fold box pool in Hisland. rewrite Hisland in Hisland'.
  inversion Hisland'; subst rest' island'. clear Hisland'.
  exists b_this, rest, island.
  split; [exact Hb |]. split; [exact Hrun |]. split; [exact Hperm |].
  split; [| split; [exact Hconn |]].
  - intros B C bB bC HB HC HbB HbC H1 H2.
    assert (HcB : connected Intersect box b_this pool B)
      by (eapply connected_seed; eauto).
    split; apply Hconn; [exact HcB |].
    eapply connected_step; eauto.
  - intros r br Hr Hbr. rewrite Forall_forall in Hseed.
    destruct (Hseed r Hr) as (br' & Hbr' & Hmiss).
    assert (br' = br) by congruence. subst br'.
    split; [exact Hmiss |].
    intros a ba Ha Hba. specialize (Hdone a ba Ha Hba).
    rewrite Forall_forall in Hdone.
    destruct (Hdone r Hr) as (br' & Hbr'' & Hmiss').
    congruence.
Qed.

Lemma MakeAnchorControlIsland_connected_component_witness :
  is_win Examples.row 1%nat
    (Examples.window (mkint2 0 0) (mkint2 100 100) (Some 0%nat)
       [(Some 4%nat, mkint2 (-1) 0, 1); (Some 3%nat, mkint2 (-1) 0, 1);
        (Some 2%nat, mkint2 (-1) 0, 1)]) /\
  exists island,
    AnchorControls <$>
      window_at (MakeAnchorControlIsland 5 AABB_Intersect 1%nat Examples.row).1 1%nat
    = Some island /\
    (Some 2%nat, mkint2 (-1) 0, 1) ∈ island /\
    (Some 3%nat, mkint2 (-1) 0, 1) ∈ island.
Proof.
  split; [reflexivity |].
  destruct (MakeAnchorControlIsland_connected_component 5 AABB_Intersect 1%nat Examples.row
              (Examples.window (mkint2 0 0) (mkint2 100 100) (Some 0%nat)
                 [(Some 4%nat, mkint2 (-1) 0, 1); (Some 3%nat, mkint2 (-1) 0, 1);
                  (Some 2%nat, mkint2 (-1) 0, 1)]))
    as (b_this & rest & island & Hb & Hrun & _ & Hchain & _).
  - reflexivity.
  - repeat constructor; vm_compute; eauto.
  - exists island. rewrite Hrun. unfold window_at. simpl. rewrite lookup_insert_eq.
    split; [reflexivity |].
    vm_compute in Hb. inversion Hb; subst b_this. clear Hb.
    eapply (Hchain (Some 2%nat, mkint2 (-1) 0, 1) (Some 3%nat, mkint2 (-1) 0, 1)).
    + right. right. left.
    + right. left.
    + vm_compute. reflexivity.
    + vm_compute. reflexivity.
    + reflexivity.
    + reflexivity.
Defined.

Example island_of_row :
  AnchorControls <$>
    window_at (MakeAnchorControlIsland 5 AABB_Intersect 1%nat Examples.row).1 1%nat
  = Some [(Some 2%nat, mkint2 (-1) 0, 1); (Some 3%nat, mkint2 (-1) 0, 1)].
Proof. vm_compute. reflexivity. Qed.

(** ** The detach timer *)



(** Once a tick has run, the callback leaves the window alone. *)
Lemma detach_timer_after_move (this : nat) (s : State) (w : Window) :
  is_win s this w -> SizerMoved w = true ->
  exists s', fire_timer (DetachTimer this) s = (s', Ok tt) /\ heap s' = heap s.
Proof.
  intros Hw Hmoved.
  destruct (acts_on_fire_timer this s w Hw) as (s' & w' & [] & Hfire & Hh & _ & HQ).
  rewrite Hmoved in HQ. subst w'.
  exists s'. split; [exact Hfire |]. rewrite Hh. apply insert_id. exact Hw.
Qed.

(** ** Ending a resize *)


Lemma Examples_chain_wf : gesture_wf Examples.chain_rank (heap Examples.chain).
Proof.
  intros p c (w & a & Hp & Ha & Hac).
  unfold Examples.chain, Examples.store in Hp. simpl in Hp.
  destruct (decide (p = 1%nat)) as [-> | H1].
  { rewrite lookup_insert_eq in Hp. inversion Hp; subst w. clear Hp.
    apply list_elem_of_singleton in Ha. subst a. inversion Hac; subst c.
    split; [simpl; lia | eexists; vm_compute; reflexivity]. }
  rewrite lookup_insert_ne in Hp by auto.
  destruct (decide (p = 2%nat)) as [-> | H2].
  { rewrite lookup_insert_eq in Hp. inversion Hp; subst w. clear Hp.
    apply list_elem_of_singleton in Ha. subst a. inversion Hac; subst c.
    split; [simpl; lia | eexists; vm_compute; reflexivity]. }
  rewrite lookup_insert_ne in Hp by auto.
  destruct (decide (p = 3%nat)) as [-> | H3].
  { rewrite lookup_insert_eq in Hp. inversion Hp; subst w. inversion Ha. }
  rewrite lookup_insert_ne in Hp by auto.
  destruct (decide (p = 4%nat)) as [-> | H4].
  { rewrite lookup_insert_eq in Hp. inversion Hp; subst w. clear Hp.
    apply list_elem_of_singleton in Ha. subst a. inversion Hac; subst c.
    split; [simpl; lia | eexists; vm_compute; reflexivity]. }
  rewrite lookup_insert_ne in Hp by auto. rewrite lookup_empty in Hp. discriminate.
Qed.



(** ** Gathering anchors *)

(** C9: the children stage of anchor gathering appends to the anchor list
    the panels the snap search finds in the window's body, with scale +1
    exactly when the mask has a positive component and, after those, with
    scale -1 exactly when the mask has a negative component; it recruits
    nothing else. *)
Theorem GatherAnchorControls_children_scales snap_query snap_anchors
    (this : nat) (mask : int2) (s : State) (w : Window) :
  is_win s this w ->
  let this_br := Int2.Sub (BodySize w) Int2.One in
  let grown :=
    if positive_mask mask
    then with_scale 1 (snap_anchors (heap s) this this_br mask [])
    else [] in
  let h1 := <[this := PWindow (set_AnchorControls (AnchorControls w ++ grown) w)]> (heap s) in
  let shrunk :=
    if negative_mask mask
    then with_scale (-1) (snap_anchors h1 this this_br mask [])
    else [] in
  exists s',
    GatherAnchorControls_children snap_query snap_anchors this mask s = (s', Ok tt) /\
    heap s' =
      <[this := PWindow (set_AnchorControls (AnchorControls w ++ grown ++ shrunk) w)]> (heap s) /\
    Forall (fun a => anchor_scale a = 1) grown /\
    Forall (fun a => anchor_scale a = -1) shrunk.
Proof.
  intros Hw this_br grown h1 shrunk.
  destruct (acts_on_GatherAnchorControls_children snap_query snap_anchors this mask s w Hw)
    as (s' & w' & [] & Hrun & Hh & _ & HQ).
  simpl in HQ. subst w'.
  exists s'. split; [exact Hrun |]. split; [exact Hh |].
  split.
  - unfold grown. destruct (positive_mask mask); [| constructor].
    unfold with_scale. apply Forall_map. apply Forall_true. intros; reflexivity.
  - unfold shrunk. destruct (negative_mask mask); [| constructor].
    unfold with_scale. apply Forall_map. apply Forall_true. intros; reflexivity.
Qed.

Lemma GatherAnchorControls_children_scales_witness :
  is_win Examples.in_container 1%nat
    (Examples.window (mkint2 5 5) (mkint2 100 100) (Some 0%nat) []) /\
  AnchorControls <$>
    window_at (GatherAnchorControls_children Examples.no_snap Examples.child_2 1%nat
                 (mkint2 1 (-1)) Examples.in_container).1 1%nat
  = Some [(Some 2%nat, mkint2 1 (-1), 1); (Some 2%nat, mkint2 1 (-1), -1)].
Proof.
  split; [reflexivity |].
  destruct (GatherAnchorControls_children_scales Examples.no_snap Examples.child_2 1%nat
              (mkint2 1 (-1)) Examples.in_container
              (Examples.window (mkint2 5 5) (mkint2 100 100) (Some 0%nat) []))
    as (s' & Hrun & Hh & _); [reflexivity |].
  rewrite Hrun. unfold window_at. simpl. rewrite Hh, lookup_insert_eq. reflexivity.
Defined.

(** The whole of [GatherAnchorControls] on an anchored window (no sibling
    gathering): the list holds the children found, and only them. *)
Example gather_on_anchored_window :
  AnchorControls <$>
    window_at (GatherAnchorControls 5 AABB_Intersect Examples.no_snap Examples.child_2 1%nat
                 (mkint2 (-1) 0) false Examples.chain).1 1%nat
  = Some [(Some 2%nat, mkint2 (-1) 0, -1)].
Proof. vm_compute. reflexivity. Qed.

(** ** Move ticks *)

(** C10: in a move tick of a window inside a container, a BottomRight snap
    decides the final position, whatever the TopLeft query answered:
    position = snapped BottomRight point - size, on both axes; the TopLeft
    override only shows in the point the BottomRight query was asked at.
    When only the TopLeft query snaps, the position is the snapped TopLeft
    point, on both axes.  The size is unchanged. *)
Theorem OnMove_BottomRight_snap_wins snap_query snap_anchors
    (this pc : nat) (event : int2) (s : State) (w : Window) :
  is_win s this w ->
  ParentContainer w = Some pc ->
  let w1 := dragged w event in
  let h1 := <[this := PWindow w1]> (heap s) in
  let snap_tl := move_snap_tl snap_query h1 this pc w1 in
  let snap_br := move_snap_br snap_query h1 this pc w1 in
  exists s' w',
    OnMove snap_query snap_anchors this event s = (s', Ok tt) /\
    is_win s' this w' /\
    Size w' = Size w /\
    (fst snap_br <> SnapCodes.None ->
     Position w' = Int2.Sub (snd snap_br) (Size w)) /\
    (fst snap_br = SnapCodes.None -> fst snap_tl <> SnapCodes.None ->
     Position w' = snd snap_tl).
Proof.
  intros Hw Hpc w1 h1 snap_tl snap_br.
  destruct (OnMove_with_container snap_query snap_anchors this pc event s w Hw Hpc)
    as (s' & w' & Hrun & Hh & [r ->]).
  eexists s', _. split; [exact Hrun |].
  split; [unfold is_win; rewrite Hh; apply is_win_insert |].
  subst snap_tl snap_br h1 w1.
  unfold move_after_br, move_after_tl.
  set (tl := move_snap_tl _ _ _ _ _).
  set (br := move_snap_br _ _ _ _ _).
  destruct (Z.eqb_spec (fst br) SnapCodes.None) as [Hbr | Hbr],
           (Z.eqb_spec (fst tl) SnapCodes.None) as [Htl | Htl]; simpl;
    repeat split; intros; try reflexivity; try contradiction.
Qed.

Lemma OnMove_BottomRight_snap_wins_witness :
  let w := Examples.window (mkint2 5 5) (mkint2 100 100) (Some 0%nat) [] in
  is_win Examples.in_container 1%nat w /\
  exists s' w',
    OnMove Examples.snap_both Examples.no_anchors 1%nat (mkint2 3 4) Examples.in_container
    = (s', Ok tt) /\
    is_win s' 1%nat w' /\
    Position w' = mkint2 200 300.
Proof.
  intros w. split; [reflexivity |].
  destruct (OnMove_BottomRight_snap_wins Examples.snap_both Examples.no_anchors 1%nat 0%nat
              (mkint2 3 4) Examples.in_container w)
    as (s' & w' & Hrun & Hw' & _ & Hbr & _); [reflexivity | reflexivity |].
  exists s', w'. split; [exact Hrun |]. split; [exact Hw' |].
  rewrite Hbr; [reflexivity | vm_compute; discriminate].
Defined.

(** ** Where the code departs from its guards *)

(** The guard after [control[0] as Window] lets every non-null control
    through: on a control that is not a window the call throws. *)
Lemma call_as_Window_on_control (c : nat) (ctl : Control) (method : nat -> M unit)
    (s : State) :
  heap s !! c = Some (PControl ctl) ->
  call_as_Window (Some c) method s = (s, Threw TypeError).
Proof.
  intros Hc. unfold call_as_Window. rewrite bind_unfold. simpl. rewrite Hc. reflexivity.
Qed.

(** C7: on a window with no parent container the snap queries and ruler
    updates are skipped and the position or size update is applied, but the
    tick then fails: the unguarded [this.ParentContainer.UpdateControlSizes()]
    throws a TypeError, in [OnMove] and in [OnSize]. *)
Theorem tick_without_container_throws :
  let moved := OnMove Examples.no_snap Examples.no_anchors 1%nat (mkint2 30 40)
                 Examples.alone in
  let sized := OnSize Examples.no_snap Examples.no_anchors 1 (mkint2 20 0) (mkint2 1 0) 1
                 None 1%nat Examples.alone in
  moved.2 = Threw TypeError /\
  Position <$> window_at moved.1 1%nat = Some (mkint2 30 40) /\
  effects moved.1 = [] /\
  sized.2 = Threw TypeError /\
  Size <$> window_at sized.1 1%nat = Some (mkint2 120 100) /\
  effects sized.1 = [SetCursor "e-resize"].
Proof. vm_compute. repeat split; reflexivity. Qed.

(** C8: an anchor entry whose panel is not a window is not skipped: the
    propagation loops of [OnBeginSize], [OnSize] and [OnEndSize] throw a
    TypeError on it, and [OnEndSize] then leaves the anchor list of the
    master in place. *)
Theorem non_window_anchor_throws :
  let begun := OnBeginSize 5 AABB_Intersect Examples.no_snap Examples.child_2 2
                 (mkint2 0 0) (Some (mkint2 1 0)) true 1%nat Examples.with_button in
  let sized := OnSize Examples.no_snap Examples.no_anchors 2 (mkint2 20 0) (mkint2 1 0) 1
                 None 1%nat Examples.with_button in
  let ended := OnEndSize 2 (mkint2 20 0) (mkint2 1 0) 1%nat Examples.with_button in
  heap Examples.with_button !! 2%nat
    = Some (PControl (mkControl (mkint2 80 80) (mkint2 10 10))) /\
  begun.2 = Threw TypeError /\
  AnchorControls <$> window_at begun.1 1%nat = Some [(Some 2%nat, mkint2 1 0, 1)] /\
  timers begun.1 = [] /\
  sized.2 = Threw TypeError /\
  ended.2 = Threw TypeError /\
  AnchorControls <$> window_at ended.1 1%nat = Some [(Some 2%nat, mkint2 1 0, 1)].
Proof. vm_compute. repeat split; reflexivity. Qed.

(** * Further properties of the code *)

(** ** Cursor and hit-testing *)

(** X1: [SetResizeCursor] builds a valid CSS cursor keyword for every mask:
    it depends on the signs of the mask only, it is empty exactly for the
    zero mask, and otherwise it is one of the eight compass keywords, the
    vertical letter first. *)
Theorem resize_cursor_compass (size_mask : int2) :
  resize_cursor size_mask = cursor_of_signs (y size_mask) (x size_mask) /\
  (resize_cursor size_mask = EmptyString <-> size_mask = mkint2 0 0).
Proof.
  destruct size_mask as [mx my]. simpl.
  split.
  - destruct mx, my; reflexivity.
  - split.
    + destruct mx, my; simpl; intros H; try reflexivity; discriminate.
    + intros [= -> ->]. reflexivity.
Qed.

(** X2: every component of the mask [GetSizeMask] returns is -1, 0 or 1,
    wherever the pointer is and whatever the grab-zone width. *)
Theorem GetSizeMask_range (w : Window) (mouse_pos : int2) :
  (x (GetSizeMask w mouse_pos) = -1 \/ x (GetSizeMask w mouse_pos) = 0 \/
   x (GetSizeMask w mouse_pos) = 1) /\
  (y (GetSizeMask w mouse_pos) = -1 \/ y (GetSizeMask w mouse_pos) = 0 \/
   y (GetSizeMask w mouse_pos) = 1).
Proof.
  pose proof (GetSizeMask_axes w mouse_pos) as H. simpl in H. rewrite H. simpl.
  unfold code_axis_mask.
  split; repeat match goal with |- context [if ?c then _ else _] => destruct c end; auto.
Qed.

(** X3: on a window at least 2 * grab-zone width - 1 wide and high the two
    grab zones of an axis cannot both contain the pointer, and [GetSizeMask]
    is the rule of the specification: BottomRight zone +1, else TopLeft zone
    -1, else 0. *)
Theorem GetSizeMask_disjoint_zones (w : Window) (mouse_pos : int2) :
  2 * SideBarSize w - 1 <= x (Size w) ->
  2 * SideBarSize w - 1 <= y (Size w) ->
  let m := local_mouse w mouse_pos in
  GetSizeMask w mouse_pos =
  mkint2 (spec_axis_mask (SideBarSize w) (x (BottomRight w) - x m) (x m - x (TopLeft w)))
         (spec_axis_mask (SideBarSize w) (y (BottomRight w) - y m) (y m - y (TopLeft w))).
Proof.
  intros Hx Hy m.
  pose proof (GetSizeMask_axes w mouse_pos) as H. simpl in H. fold m in H. rewrite H.
  unfold code_axis_mask, spec_axis_mask, in_grab_zone, BottomRight, TopLeft. simpl.
  f_equal;
    repeat match goal with |- context [if ?c then _ else _] => destruct c eqn:? end;
    try reflexivity; exfalso; lia.
Qed.

Lemma GetSizeMask_disjoint_zones_witness :
  2 * SideBarSize Examples.alone_window - 1 <= x (Size Examples.alone_window) /\
  GetSizeMask Examples.alone_window (mkint2 98 50) = mkint2 1 0.
Proof.
  split; [vm_compute; discriminate |].
  rewrite (GetSizeMask_disjoint_zones Examples.alone_window (mkint2 98 50));
    [reflexivity | vm_compute; discriminate | vm_compute; discriminate].
Defined.

(** ** The island loops *)

Section IslandFacts.

Variable Intersect : AABB -> AABB -> bool.
Variable box : Anchor -> option AABB.

Lemma connected_pool_ext (b_this : AABB) (pool pool' : list Anchor) (a : Anchor) :
  (forall e, e ∈ pool -> e ∈ pool') ->
  connected Intersect box b_this pool a -> connected Intersect box b_this pool' a.
Proof.
  intros Hsub Hc.
  induction Hc as [a b Ha Hb Hint | a0 b0 a b Hc0 IHc Hb0 Ha Hb Hint].
  - eapply connected_seed; eauto.
  - eapply connected_step; eauto.
Qed.

Lemma connected_in_pool (b_this : AABB) (pool : list Anchor) (a : Anchor) :
  connected Intersect box b_this pool a -> a ∈ pool.
Proof. intros Hc. destruct Hc; assumption. Qed.

(** A chain only runs through connected entries, so it survives when the
    pool is cut down to a set that holds every connected entry. *)
Lemma connected_restrict (b_this : AABB) (pool island : list Anchor) (a : Anchor) :
  (forall e, connected Intersect box b_this pool e -> e ∈ island) ->
  connected Intersect box b_this pool a -> connected Intersect box b_this island a.
Proof.
  intros Hall Hc.
  induction Hc as [a b Ha Hb Hint | a0 b0 a b Hc0 IHc Hb0 Ha Hb Hint].
  - eapply connected_seed; eauto. apply Hall. eapply connected_seed; eauto.
  - eapply connected_step; eauto. apply Hall. eapply connected_step; eauto.
Qed.

(** X4: one pass of [TakeConnectedAnchorControls] over a pool of existing
    controls examines every entry, also those swapped in from the back: it
    ends by its loop condition, appends to the output exactly entries whose
    box intersects the seed box, leaves in the pool only entries whose box
    does not, and loses or duplicates nothing. *)
Theorem TakeConnectedAnchorControls_partitions (aabb_0 : AABB)
    (pool anchor_controls : list Anchor) :
  Forall (fun a => is_Some (box a)) pool ->
  exists pool' taken,
    take_connected Intersect box aabb_0 pool anchor_controls
    = (LoopDone, pool', anchor_controls ++ taken) /\
    pool ≡ₚ pool' ++ taken /\
    Forall (hits Intersect box aabb_0) taken /\
    Forall (misses Intersect box aabb_0) pool'.
Proof.
  intros Hboxes.
  destruct (take_connected Intersect box aabb_0 pool anchor_controls)
    as [[e pool'] out'] eqn:Hrun.
  destruct (take_connected_spec Intersect box _ _ _ _ _ _ Hrun)
    as (Hnf & Hnt & Hmiss & taken & -> & Hhits & Hperm).
  destruct e; [| exfalso; apply Hnt; auto | exfalso; apply Hnf; auto].
  exists pool', taken. auto.
Qed.

(** X5: the island does not depend on the order of the pool: two pools with
    the same entries give islands with the same entries. *)
Theorem island_independent_of_pool_order (b_this : AABB) (pool pool' : list Anchor) :
  pool ≡ₚ pool' ->
  Forall (fun a => is_Some (box a)) pool ->
  exists rest island rest' island',
    make_island Intersect box b_this pool = (LoopDone, rest, island) /\
    make_island Intersect box b_this pool' = (LoopDone, rest', island') /\
    forall a, a ∈ island <-> a ∈ island'.
Proof.
  intros Hperm Hboxes.
  assert (Hboxes' : Forall (fun a => is_Some (box a)) pool') by (rewrite <- Hperm; exact Hboxes).
  destruct (make_island_spec Intersect box b_this pool Hboxes)
    as (rest & island & Hrun & _ & Hconn & _).
  destruct (make_island_spec Intersect box b_this pool' Hboxes')
    as (rest' & island' & Hrun' & _ & Hconn' & _).
  exists rest, island, rest', island'. split; [exact Hrun |]. split; [exact Hrun' |].
  intros a. rewrite Hconn, Hconn'.
  split; apply connected_pool_ext; intros e He; [rewrite <- Hperm | rewrite Hperm]; exact He.
Qed.

(** X6: island discovery is idempotent: run again on its own result, it
    takes every entry and leaves none behind. *)
Theorem island_idempotent (b_this : AABB) (pool rest island : list Anchor) :
  Forall (fun a => is_Some (box a)) pool ->
  make_island Intersect box b_this pool = (LoopDone, rest, island) ->
  exists island2,
    make_island Intersect box b_this island = (LoopDone, [], island2) /\
    island ≡ₚ island2.
Proof.
  intros Hboxes Hrun.
  destruct (make_island_spec Intersect box b_this pool Hboxes)
    as (rest0 & island0 & Hrun0 & Hperm & Hconn & _).
  rewrite Hrun in Hrun0. inversion Hrun0; subst rest0 island0. clear Hrun0.
  assert (Hboxes2 : Forall (fun a => is_Some (box a)) island).
  { rewrite Hperm in Hboxes. apply Forall_app in Hboxes. tauto. }
  destruct (make_island_spec Intersect box b_this island Hboxes2)
    as (rest2 & island2 & Hrun2 & Hperm2 & Hconn2 & Hseed2 & Hdone2).
  assert (Hrest : rest2 = []).
  { destruct rest2 as [| r rest2]; [reflexivity | exfalso].
    assert (Hr : r ∈ island) by (rewrite Hperm2; left).
    assert (Hc : connected Intersect box b_this island r).
    { apply (connected_restrict b_this pool island r); [apply Hconn | apply Hconn; exact Hr]. }
    apply Forall_cons in Hseed2 as [(br & Hbr & Hmiss) _].
    destruct Hc as [r b Hin Hb Hint | a0 b0 r b Hc0 Hb0 Hin Hb Hint].
    - congruence.
    - assert (Ha0 : a0 ∈ island2) by (apply Hconn2; exact Hc0).
      specialize (Hdone2 a0 b0 Ha0 Hb0).
      apply Forall_cons in Hdone2 as [(br' & Hbr' & Hmiss') _]. congruence. }
  subst rest2. exists island2. split; [exact Hrun2 | exact Hperm2].
Qed.

End IslandFacts.

Lemma TakeConnectedAnchorControls_partitions_witness :
  let pool := [(Some 7%nat, mkint2 1 0, 1); (Some 9%nat, mkint2 1 0, 1);
               (Some 8%nat, mkint2 1 0, 1)] in
  let seed := mkAABB (mkint2 5 5) (mkint2 20 20) in
  Forall (fun a => is_Some (example_box a)) pool /\
  exists pool' taken,
    take_connected AABB_Intersect example_box seed pool []
    = (LoopDone, pool', [] ++ taken) /\
    pool ≡ₚ pool' ++ taken.
Proof.
  intros pool seed.
  assert (Hb : Forall (fun a => is_Some (example_box a)) pool).
  { repeat constructor; vm_compute; eauto. }
  split; [exact Hb |].
  destruct (TakeConnectedAnchorControls_partitions AABB_Intersect example_box seed pool [] Hb)
    as (pool' & taken & Hrun & Hperm & _).
  exists pool', taken. split; [exact Hrun | exact Hperm].
Defined.

Lemma island_idempotent_witness :
  let pool := [(Some 7%nat, mkint2 1 0, 1); (Some 9%nat, mkint2 1 0, 1);
               (Some 8%nat, mkint2 1 0, 1)] in
  let seed := mkAABB (mkint2 5 5) (mkint2 20 20) in
  Forall (fun a => is_Some (example_box a)) pool /\
  make_island AABB_Intersect example_box seed pool
  = (LoopDone, [(Some 9%nat, mkint2 1 0, 1)],
     [(Some 7%nat, mkint2 1 0, 1); (Some 8%nat, mkint2 1 0, 1)]) /\
  exists island2,
    make_island AABB_Intersect example_box seed
      [(Some 7%nat, mkint2 1 0, 1); (Some 8%nat, mkint2 1 0, 1)]
    = (LoopDone, [], island2).
Proof.
  intros pool seed.
  assert (Hb : Forall (fun a => is_Some (example_box a)) pool).
  { repeat constructor; vm_compute; eauto. }
  assert (Hrun : make_island AABB_Intersect example_box seed pool
                 = (LoopDone, [(Some 9%nat, mkint2 1 0, 1)],
                    [(Some 7%nat, mkint2 1 0, 1); (Some 8%nat, mkint2 1 0, 1)])).
  { vm_compute. reflexivity. }
  split; [exact Hb |]. split; [exact Hrun |].
  destruct (island_idempotent AABB_Intersect example_box seed pool _ _ Hb Hrun)
    as (island2 & Hrun2 & _).
  exists island2. exact Hrun2.
Defined.

Lemma island_independent_of_pool_order_witness :
  let pool := [(Some 7%nat, mkint2 1 0, 1); (Some 9%nat, mkint2 1 0, 1);
               (Some 8%nat, mkint2 1 0, 1)] in
  let pool' := [(Some 9%nat, mkint2 1 0, 1); (Some 7%nat, mkint2 1 0, 1);
                (Some 8%nat, mkint2 1 0, 1)] in
  let seed := mkAABB (mkint2 5 5) (mkint2 20 20) in
  pool ≡ₚ pool' /\ Forall (fun a => is_Some (example_box a)) pool /\
  exists rest island rest' island',
    make_island AABB_Intersect example_box seed pool = (LoopDone, rest, island) /\
    make_island AABB_Intersect example_box seed pool' = (LoopDone, rest', island') /\
    forall a, a ∈ island <-> a ∈ island'.
Proof.
  intros pool pool' seed.
  assert (Hp : pool ≡ₚ pool') by apply perm_swap.
  assert (Hb : Forall (fun a => is_Some (example_box a)) pool).
  { repeat constructor; vm_compute; eauto. }
  split; [exact Hp |]. split; [exact Hb |].
  exact (island_independent_of_pool_order AABB_Intersect example_box seed pool pool' Hp Hb).
Defined.

(** ** Snap rulers *)

Lemma put_is_win (s : State) (this : nat) (w' : Window) (es : list Effect) :
  is_win (put s this w' es) this w'.
Proof. apply is_win_insert. Qed.

Lemma put_put (s : State) (this : nat) (w1 w2 : Window) (e1 e2 : list Effect) :
  put (put s this w1 e1) this w2 e2 = put s this w2 (e1 ++ e2).
Proof.
  unfold put. cbn [heap effects timers]. rewrite insert_insert_eq, app_assoc. reflexivity.
Qed.

Lemma put_id (s : State) (this : nat) (w : Window) :
  is_win s this w -> put s this w [] = s.
Proof.
  intros Hw. destruct s as [h es ts]. unfold put, is_win in *. cbn [heap effects timers] in *.
  rewrite (insert_id h this _ Hw), app_nil_r. reflexivity.
Qed.

Lemma update_this_put (this : nat) (f : Window -> Window) (s : State) (w : Window) :
  is_win s this w -> update_this this f s = (put s this (f w) [], Ok tt).
Proof.
  intros Hw. rewrite (update_this_run _ _ _ _ Hw). unfold put. rewrite app_nil_r.
  reflexivity.
Qed.

Lemma emit_put (this : nat) (e : Effect) (s : State) (w : Window) :
  is_win s this w -> emit e s = (put s this w [e], Ok tt).
Proof.
  intros Hw. unfold emit, put. rewrite (insert_id _ _ _ Hw). reflexivity.
Qed.

Lemma with_slot_same (side : Side) (w : Window) :
  with_slot side (get_slot side (SnapRulers w)) w = w.
Proof.
  destruct w as [? ? ? ? ? ? ? ? ? ? [l r t b] ? ? ?]. destruct side; reflexivity.
Qed.

Lemma with_slot_with_slot (side : Side) (v v' : option Ruler) (w : Window) :
  with_slot side v' (with_slot side v w) = with_slot side v' w.
Proof. destruct w, side; reflexivity. Qed.

Lemma get_slot_with_slot (side side' : Side) (v : option Ruler) (w : Window) :
  get_slot side' (SnapRulers (with_slot side v w))
  = if decide (side' = side) then v else get_slot side' (SnapRulers w).
Proof. destruct w, side, side'; reflexivity. Qed.

(** [SetSnapRuler], run: the slot holds a ruler at the position; a ruler
    made for an empty slot is added to the container, one already there
    keeps its orientation and no call is made. *)
Lemma SetSnapRuler_run (this : nat) (side : Side) (position : Z) (s : State) (w : Window) :
  is_win s this w ->
  SetSnapRuler this side position s =
  (put s this
     (with_slot side
        (Some (mkRuler (match get_slot side (SnapRulers w) with
                        | Some ruler => ruler_orient ruler
                        | None => orient_of side
                        end) position)) w)
     (match get_slot side (SnapRulers w) with
      | Some _ => []
      | None => container_calls w (fun pc => ContainerAdd pc (mkRuler (orient_of side) position))
      end),
   Ok tt).
Proof.
  intros Hw. unfold SetSnapRuler.
  rewrite (bind_Ok _ _ _ _ _ (this_window_run _ _ _ Hw)).
  destruct (get_slot side (SnapRulers w)) as [ruler |].
  - apply (update_this_put _ _ _ _ Hw).
  - rewrite (bind_Ok _ _ _ _ _ (update_this_put _ _ _ _ Hw)).
    unfold container_calls. destruct (ParentContainer w) as [pc |].
    + rewrite (emit_put this _ _ _ (put_is_win _ _ _ _)), put_put. reflexivity.
    + reflexivity.
Qed.

(** [RemoveSnapRuler], run: the slot is empty; a ruler that was there is
    removed from the container first. *)
Lemma RemoveSnapRuler_run (this : nat) (side : Side) (s : State) (w : Window) :
  is_win s this w ->
  RemoveSnapRuler this side s = (put s this (with_slot side None w) (removal side w), Ok tt).
Proof.
  intros Hw. unfold RemoveSnapRuler, removal.
  rewrite (bind_Ok _ _ _ _ _ (this_window_run _ _ _ Hw)).
  destruct (get_slot side (SnapRulers w)) as [ruler |] eqn:Hslot.
  - unfold container_calls. destruct (ParentContainer w) as [pc |].
    + rewrite (bind_Ok _ _ _ _ _ (emit_put this _ _ _ Hw)).
      rewrite (update_this_put _ _ _ _ (put_is_win _ _ _ _)), put_put. reflexivity.
    + rewrite (bind_Ok _ _ s s tt eq_refl). apply (update_this_put _ _ _ _ Hw).
  - unfold with_slot. rewrite (set_slot_None_id _ _ Hslot), (put_id _ _ _ Hw). reflexivity.
Qed.

Lemma RemoveSnapRulers_run (this : nat) (s : State) (w : Window) :
  is_win s this w ->
  RemoveSnapRulers this s =
  (put s this (set_SnapRulers no_rulers w)
     (removal Left w ++ removal Right w ++ removal Top w ++ removal Bottom w),
   Ok tt).
Proof.
  intros Hw. unfold RemoveSnapRulers.
  rewrite (bind_Ok _ _ _ _ _ (RemoveSnapRuler_run _ Left _ _ Hw)).
  rewrite (bind_Ok _ _ _ _ _ (RemoveSnapRuler_run _ Right _ _ (put_is_win _ _ _ _))), put_put.
  rewrite (bind_Ok _ _ _ _ _ (RemoveSnapRuler_run _ Top _ _ (put_is_win _ _ _ _))), put_put.
  rewrite (RemoveSnapRuler_run _ Bottom _ _ (put_is_win _ _ _ _)), put_put.
  rewrite <- !app_assoc.
  destruct w as [? ? pc ? ? ? ? ? ? ? [l r t b] ? ? ?]. reflexivity.
Qed.

Lemma UpdateSnapRuler_run (this : nat) (side : Side) (show : bool) (position : Z)
    (s : State) (w : Window) :
  is_win s this w ->
  exists es,
    UpdateSnapRuler this side show position s =
    (put s this
       (with_slot side
          (if show
           then Some (mkRuler (match get_slot side (SnapRulers w) with
                               | Some ruler => ruler_orient ruler
                               | None => orient_of side
                               end) position)
           else None) w) es,
     Ok tt) /\
    Forall ruler_call es /\ (ParentContainer w = None -> es = []).
Proof.
  intros Hw. unfold UpdateSnapRuler. destruct show.
  - eexists. split; [apply (SetSnapRuler_run _ _ _ _ _ Hw) |].
    unfold container_calls.
    destruct (get_slot side (SnapRulers w)), (ParentContainer w);
      repeat constructor; discriminate.
  - eexists. split; [apply (RemoveSnapRuler_run _ _ _ _ Hw) |].
    unfold removal, container_calls.
    destruct (get_slot side (SnapRulers w)), (ParentContainer w);
      repeat constructor; discriminate.
Qed.

Lemma with_slot_only_rulers (side : Side) (v : option Ruler) (w : Window) :
  only_rulers w (with_slot side v w).
Proof. eexists. reflexivity. Qed.

Lemma TopLeft_with_slot (side : Side) (v : option Ruler) (w : Window) :
  TopLeft (with_slot side v w) = TopLeft w.
Proof. destruct w; reflexivity. Qed.

Lemma BottomRight_with_slot (side : Side) (v : option Ruler) (w : Window) :
  BottomRight (with_slot side v w) = BottomRight w.
Proof. destruct w; reflexivity. Qed.

(** X7: showing a ruler on a side that has none and hiding it again leaves
    the store as it was; a window in a container has told the container to
    add and then to remove that same ruler, a window without one has made
    no call at all. *)
Theorem show_then_hide_ruler (this : nat) (side : Side) (position : Z)
    (s : State) (w : Window) :
  is_win s this w ->
  get_slot side (SnapRulers w) = None ->
  exists s',
    (SetSnapRuler this side position ;; RemoveSnapRuler this side) s = (s', Ok tt) /\
    heap s' = heap s /\ timers s' = timers s /\
    effects s' = effects s ++
      match ParentContainer w with
      | Some pc => [ContainerAdd pc (mkRuler (orient_of side) position);
                    ContainerRemove pc (mkRuler (orient_of side) position)]
      | None => []
      end.
Proof.
  intros Hw Hslot.
  rewrite (bind_Ok _ _ _ _ _ (SetSnapRuler_run _ side position _ _ Hw)).
  rewrite (RemoveSnapRuler_run _ side _ _ (put_is_win _ _ _ _)), put_put.
  eexists. split; [reflexivity |]. rewrite Hslot, with_slot_with_slot.
  unfold removal. rewrite get_slot_with_slot, decide_True by reflexivity.
  replace (with_slot side None w) with w
    by (rewrite <- Hslot; symmetry; apply with_slot_same).
  unfold put. cbn [heap effects timers].
  split; [apply (insert_id _ _ _ Hw) |]. split; [reflexivity |].
  unfold container_calls. destruct w as [? ? [pc |] ? ? ? ? ? ? ? ? ? ? ?]; reflexivity.
Qed.

Lemma show_then_hide_ruler_witness :
  let w := Examples.window (mkint2 5 5) (mkint2 100 100) (Some 0%nat) [] in
  is_win Examples.in_container 1%nat w /\
  get_slot Top (SnapRulers w) = None /\
  exists s',
    (SetSnapRuler 1%nat Top 17 ;; RemoveSnapRuler 1%nat Top) Examples.in_container
    = (s', Ok tt) /\
    heap s' = heap Examples.in_container /\
    effects s' = effects Examples.in_container ++
      [ContainerAdd 0%nat (mkRuler Horizontal 17); ContainerRemove 0%nat (mkRuler Horizontal 17)].
Proof.
  intros w.
  assert (Hw : is_win Examples.in_container 1%nat w) by (vm_compute; reflexivity).
  assert (Hslot : get_slot Top (SnapRulers w) = None) by reflexivity.
  split; [exact Hw |]. split; [exact Hslot |].
  destruct (show_then_hide_ruler 1%nat Top 17 _ w Hw Hslot) as (s' & Hrun & Hh & _ & He).
  exists s'. split; [exact Hrun |]. split; [exact Hh | exact He].
Defined.

(** X8: however often a ruler is shown on a side, the container is told at
    most once: a second [SetSnapRuler] makes no call and only moves the
    ruler, so the window ends as after the second call alone. *)
Theorem SetSnapRuler_twice_adds_once (this : nat) (side : Side) (p1 p2 : Z)
    (s : State) (w : Window) :
  is_win s this w ->
  exists s1 s2 s2',
    SetSnapRuler this side p1 s = (s1, Ok tt) /\
    SetSnapRuler this side p2 s1 = (s2, Ok tt) /\
    SetSnapRuler this side p2 s = (s2', Ok tt) /\
    effects s2 = effects s1 /\
    heap s2 = heap s2'.
Proof.
  intros Hw.
  do 3 eexists.
  split; [apply (SetSnapRuler_run _ _ _ _ _ Hw) |].
  split; [apply (SetSnapRuler_run _ _ _ _ _ (put_is_win _ _ _ _)) |].
  split; [apply (SetSnapRuler_run _ _ _ _ _ Hw) |].
  rewrite put_put, !get_slot_with_slot, !decide_True by reflexivity.
  unfold put. cbn [heap effects timers]. rewrite !app_nil_r, with_slot_with_slot.
  split; [reflexivity |].
  destruct (get_slot side (SnapRulers w)); reflexivity.
Qed.

Lemma SetSnapRuler_twice_adds_once_witness :
  let w := Examples.window (mkint2 5 5) (mkint2 100 100) (Some 0%nat) [] in
  is_win Examples.in_container 1%nat w /\
  exists s1 s2,
    SetSnapRuler 1%nat Left 2 Examples.in_container = (s1, Ok tt) /\
    SetSnapRuler 1%nat Left 40 s1 = (s2, Ok tt) /\
    effects s2 = effects s1.
Proof.
  intros w.
  assert (Hw : is_win Examples.in_container 1%nat w) by (vm_compute; reflexivity).
  split; [exact Hw |].
  destruct (SetSnapRuler_twice_adds_once 1%nat Left 2 40 _ w Hw)
    as (s1 & s2 & _ & Hrun1 & Hrun2 & _ & He & _).
  exists s1, s2. split; [exact Hrun1 |]. split; [exact Hrun2 | exact He].
Defined.

(** X9: [RemoveSnapRulers] leaves no ruler on any side and changes nothing
    else of the window; it tells the container to remove each ruler that was
    shown, in the order left, right, top, bottom; and run a second time it
    changes nothing and makes no call. *)
Theorem RemoveSnapRulers_clears_once (this : nat) (s : State) (w : Window) :
  is_win s this w ->
  exists s',
    RemoveSnapRulers this s = (s', Ok tt) /\
    is_win s' this (set_SnapRulers no_rulers w) /\
    effects s' = effects s ++ removal Left w ++ removal Right w
                           ++ removal Top w ++ removal Bottom w /\
    RemoveSnapRulers this s' = (s', Ok tt).
Proof.
  intros Hw. eexists.
  split; [apply (RemoveSnapRulers_run _ _ _ Hw) |].
  split; [apply put_is_win |]. split; [reflexivity |].
  rewrite (RemoveSnapRulers_run _ _ _ (put_is_win _ _ _ _)), put_put.
  unfold removal. cbn [get_slot SnapRulers set_SnapRulers no_rulers slot_Left slot_Right
    slot_Top slot_Bottom]. rewrite !app_nil_r. reflexivity.
Qed.

Lemma RemoveSnapRulers_clears_once_witness :
  let w := Examples.window (mkint2 5 5) (mkint2 100 100) (Some 0%nat) [] in
  is_win Examples.in_container 1%nat w /\
  exists s', RemoveSnapRulers 1%nat Examples.in_container = (s', Ok tt) /\
             RemoveSnapRulers 1%nat s' = (s', Ok tt).
Proof.
  intros w.
  assert (Hw : is_win Examples.in_container 1%nat w) by (vm_compute; reflexivity).
  split; [exact Hw |].
  destruct (RemoveSnapRulers_clears_once 1%nat _ w Hw) as (s' & Hrun & _ & _ & Hagain).
  exists s'. split; [exact Hrun | exact Hagain].
Defined.

(** Two sides updated in turn: each slot follows its flag, the other slots
    stay, and the only calls are ruler calls to the container. *)
Lemma Update_snap_slots (this : nat) (side1 side2 : Side) (show1 show2 : bool) (p1 p2 : Z)
    (s : State) (w : Window) :
  is_win s this w -> side1 <> side2 ->
  exists w' es,
    (UpdateSnapRuler this side1 show1 p1 ;; UpdateSnapRuler this side2 show2 p2) s
    = (put s this w' es, Ok tt) /\
    Forall ruler_call es /\ (ParentContainer w = None -> es = []) /\
    only_rulers w w' /\
    (is_Some (get_slot side1 (SnapRulers w')) <-> show1 = true) /\
    (is_Some (get_slot side2 (SnapRulers w')) <-> show2 = true) /\
    (forall r, get_slot side1 (SnapRulers w') = Some r -> ruler_position r = p1) /\
    (forall r, get_slot side2 (SnapRulers w') = Some r -> ruler_position r = p2) /\
    (forall side, side <> side1 -> side <> side2 ->
       get_slot side (SnapRulers w') = get_slot side (SnapRulers w)).
Proof.
  intros Hw Hne.
  destruct (UpdateSnapRuler_run this side1 show1 p1 s w Hw) as (es1 & Hrun1 & Hes1 & Hno1).
  rewrite (bind_Ok _ _ _ _ _ Hrun1).
  match type of Hrun1 with
  | _ = (put _ _ ?w1 _, _) =>
      destruct (UpdateSnapRuler_run this side2 show2 p2 _ _ (put_is_win s this w1 es1))
        as (es2 & Hrun2 & Hes2 & Hno2)
  end.
  rewrite Hrun2, put_put. clear Hrun1 Hrun2.
  eexists _, _. split; [reflexivity |].
  split; [apply Forall_app; auto |].
  split.
  { intros Hpc. rewrite (Hno1 Hpc), Hno2; [reflexivity |].
    destruct w; exact Hpc. }
  split; [eapply only_rulers_trans; apply with_slot_only_rulers |].
  rewrite !get_slot_with_slot.
  rewrite (decide_False (P := side1 = side2)) by exact Hne.
  rewrite !decide_True by reflexivity.
  repeat split.
  - destruct show1; [reflexivity | intros [? ?]; discriminate].
  - destruct show1; [eauto | discriminate].
  - destruct show2; [reflexivity | intros [? ?]; discriminate].
  - destruct show2; [eauto | discriminate].
  - destruct show1; intros r Hr; inversion Hr; reflexivity.
  - destruct show2; intros r Hr; inversion Hr; reflexivity.
  - intros side H1 H2. rewrite !get_slot_with_slot.
    rewrite !decide_False by assumption. reflexivity.
Qed.

(** [UpdateTLSnapRulers] and [UpdateBRSnapRulers] read the corner before
    each update; the first update does not move it. *)
Lemma UpdateTLSnapRulers_unfold (this : nat) (snap_code : SnapCode) (s : State) (w : Window) :
  is_win s this w ->
  UpdateTLSnapRulers this snap_code s =
  (UpdateSnapRuler this Top (negb (Z.land snap_code SnapCodes.Y =? 0)) (y (TopLeft w) - 3) ;;
   UpdateSnapRuler this Left (negb (Z.land snap_code SnapCodes.X =? 0)) (x (TopLeft w) - 3)) s.
Proof.
  intros Hw. unfold UpdateTLSnapRulers.
  rewrite (bind_Ok _ _ _ _ _ (this_window_run _ _ _ Hw)).
  destruct (UpdateSnapRuler_run this Top (negb (Z.land snap_code SnapCodes.Y =? 0))
              (y (TopLeft w) - 3) s w Hw) as (es1 & Hrun1 & _).
  rewrite !(bind_Ok _ _ _ _ _ Hrun1).
  rewrite (bind_Ok _ _ _ _ _ (this_window_run _ _ _ (put_is_win _ _ _ _))).
  rewrite TopLeft_with_slot. reflexivity.
Qed.

Lemma UpdateBRSnapRulers_unfold (this : nat) (snap_code : SnapCode) (s : State) (w : Window) :
  is_win s this w ->
  UpdateBRSnapRulers this snap_code s =
  (UpdateSnapRuler this Bottom (negb (Z.land snap_code SnapCodes.Y =? 0))
     (y (BottomRight w) + 1) ;;
   UpdateSnapRuler this Right (negb (Z.land snap_code SnapCodes.X =? 0))
     (x (BottomRight w) + 1)) s.
Proof.
  intros Hw. unfold UpdateBRSnapRulers.
  rewrite (bind_Ok _ _ _ _ _ (this_window_run _ _ _ Hw)).
  destruct (UpdateSnapRuler_run this Bottom (negb (Z.land snap_code SnapCodes.Y =? 0))
              (y (BottomRight w) + 1) s w Hw) as (es1 & Hrun1 & _).
  rewrite !(bind_Ok _ _ _ _ _ Hrun1).
  rewrite (bind_Ok _ _ _ _ _ (this_window_run _ _ _ (put_is_win _ _ _ _))).
  rewrite BottomRight_with_slot. reflexivity.
Qed.

Lemma UpdateTLSnapRulers_run (this : nat) (snap_code : SnapCode) (s : State) (w : Window) :
  is_win s this w ->
  exists w' es,
    UpdateTLSnapRulers this snap_code s = (put s this w' es, Ok tt) /\
    Forall ruler_call es /\ (ParentContainer w = None -> es = []) /\
    only_rulers w w' /\
    (snap_code = SnapCodes.None ->
     w' = with_slot Left None (with_slot Top None w) /\
     es = removal Top w ++ removal Left w).
Proof.
  intros Hw. rewrite (UpdateTLSnapRulers_unfold _ _ _ _ Hw).
  destruct (Update_snap_slots this Top Left (negb (Z.land snap_code SnapCodes.Y =? 0))
              (negb (Z.land snap_code SnapCodes.X =? 0))
              (y (TopLeft w) - 3) (x (TopLeft w) - 3) s w Hw ltac:(discriminate))
    as (w' & es & Hrun & Hes & Hno & Hr & _).
  destruct (Z.eq_dec snap_code SnapCodes.None) as [-> | Hne].
  - clear Hrun. unfold UpdateSnapRuler.
    change (negb (Z.land SnapCodes.None SnapCodes.Y =? 0)) with false.
    change (negb (Z.land SnapCodes.None SnapCodes.X =? 0)) with false.
    cbv iota.
    rewrite (bind_Ok _ _ _ _ _ (RemoveSnapRuler_run _ Top _ _ Hw)).
    rewrite (RemoveSnapRuler_run _ Left _ _ (put_is_win _ _ _ _)), put_put.
    assert (Hrem : removal Left (with_slot Top None w) = removal Left w)
      by (destruct w; reflexivity).
    rewrite Hrem.
    eexists _, _. split; [reflexivity |].
    split.
    { apply Forall_app. unfold removal, container_calls.
      split; [destruct (get_slot Top (SnapRulers w)) | destruct (get_slot Left (SnapRulers w))];
        destruct (ParentContainer w); repeat constructor. }
    split.
    { intros Hpc. unfold removal, container_calls. rewrite Hpc.
      destruct (get_slot Top (SnapRulers w)), (get_slot Left (SnapRulers w)); reflexivity. }
    split; [eapply only_rulers_trans; apply with_slot_only_rulers |].
    intros _. auto.
  - exists w', es. repeat split; auto; contradiction.
Qed.

Lemma UpdateBRSnapRulers_run (this : nat) (snap_code : SnapCode) (s : State) (w : Window) :
  is_win s this w ->
  exists w' es,
    UpdateBRSnapRulers this snap_code s = (put s this w' es, Ok tt) /\
    Forall ruler_call es /\ (ParentContainer w = None -> es = []) /\
    only_rulers w w' /\
    (snap_code = SnapCodes.None ->
     w' = with_slot Right None (with_slot Bottom None w) /\
     es = removal Bottom w ++ removal Right w).
Proof.
  intros Hw. rewrite (UpdateBRSnapRulers_unfold _ _ _ _ Hw).
  destruct (Update_snap_slots this Bottom Right (negb (Z.land snap_code SnapCodes.Y =? 0))
              (negb (Z.land snap_code SnapCodes.X =? 0))
              (y (BottomRight w) + 1) (x (BottomRight w) + 1) s w Hw ltac:(discriminate))
    as (w' & es & Hrun & Hes & Hno & Hr & _).
  destruct (Z.eq_dec snap_code SnapCodes.None) as [-> | Hne].
  - clear Hrun. unfold UpdateSnapRuler.
    change (negb (Z.land SnapCodes.None SnapCodes.Y =? 0)) with false.
    change (negb (Z.land SnapCodes.None SnapCodes.X =? 0)) with false.
    cbv iota.
    rewrite (bind_Ok _ _ _ _ _ (RemoveSnapRuler_run _ Bottom _ _ Hw)).
    rewrite (RemoveSnapRuler_run _ Right _ _ (put_is_win _ _ _ _)), put_put.
    assert (Hrem : removal Right (with_slot Bottom None w) = removal Right w)
      by (destruct w; reflexivity).
    rewrite Hrem.
    eexists _, _. split; [reflexivity |].
    split.
    { apply Forall_app. unfold removal, container_calls.
      split; [destruct (get_slot Bottom (SnapRulers w))
             | destruct (get_slot Right (SnapRulers w))];
        destruct (ParentContainer w); repeat constructor. }
    split.
    { intros Hpc. unfold removal, container_calls. rewrite Hpc.
      destruct (get_slot Bottom (SnapRulers w)), (get_slot Right (SnapRulers w)); reflexivity. }
    split; [eapply only_rulers_trans; apply with_slot_only_rulers |].
    intros _. auto.
  - exists w', es. repeat split; auto; contradiction.
Qed.

(** X10: after [UpdateTLSnapRulers] the top ruler is shown exactly when the
    snap code has its Y bit and the left ruler exactly when it has its X
    bit, each three pixels before the top-left corner; the bottom and right
    rulers and every other field of the window are as before. *)
Theorem UpdateTLSnapRulers_mirrors_snap_code (this : nat) (snap_code : SnapCode)
    (s : State) (w : Window) :
  is_win s this w ->
  exists s' w',
    UpdateTLSnapRulers this snap_code s = (s', Ok tt) /\
    is_win s' this w' /\ only_rulers w w' /\
    (is_Some (get_slot Top (SnapRulers w')) <-> Z.land snap_code SnapCodes.Y <> 0) /\
    (is_Some (get_slot Left (SnapRulers w')) <-> Z.land snap_code SnapCodes.X <> 0) /\
    (forall r, get_slot Top (SnapRulers w') = Some r -> ruler_position r = y (TopLeft w) - 3) /\
    (forall r, get_slot Left (SnapRulers w') = Some r -> ruler_position r = x (TopLeft w) - 3) /\
    get_slot Bottom (SnapRulers w') = get_slot Bottom (SnapRulers w) /\
    get_slot Right (SnapRulers w') = get_slot Right (SnapRulers w).
Proof.
  intros Hw. rewrite (UpdateTLSnapRulers_unfold _ _ _ _ Hw).
  destruct (Update_snap_slots this Top Left (negb (Z.land snap_code SnapCodes.Y =? 0))
              (negb (Z.land snap_code SnapCodes.X =? 0))
              (y (TopLeft w) - 3) (x (TopLeft w) - 3) s w Hw ltac:(discriminate))
    as (w' & es & Hrun' & _ & _ & Hr & H1 & H2 & Hp1 & Hp2 & Hrest).
  exists (put s this w' es), w'.
  split; [exact Hrun' |]. split; [apply put_is_win |]. split; [exact Hr |].
  rewrite H1, H2, !negb_true_iff, !Z.eqb_neq.
  repeat split; auto; apply Hrest; discriminate.
Qed.

Lemma UpdateTLSnapRulers_mirrors_snap_code_witness :
  let w := Examples.window (mkint2 5 5) (mkint2 100 100) (Some 0%nat) [] in
  is_win Examples.in_container 1%nat w /\
  exists s' w',
    UpdateTLSnapRulers 1%nat SnapCodes.Y Examples.in_container = (s', Ok tt) /\
    is_win s' 1%nat w' /\
    is_Some (get_slot Top (SnapRulers w')) /\
    ~ is_Some (get_slot Left (SnapRulers w')).
Proof.
  intros w.
  assert (Hw : is_win Examples.in_container 1%nat w) by (vm_compute; reflexivity).
  split; [exact Hw |].
  destruct (UpdateTLSnapRulers_mirrors_snap_code 1%nat SnapCodes.Y _ w Hw)
    as (s' & w' & Hrun & Hw' & _ & HT & HL & _).
  exists s', w'. split; [exact Hrun |]. split; [exact Hw' |].
  split; [apply HT; discriminate | intros H; apply HL in H; apply H; reflexivity].
Defined.

(** X11: after [UpdateBRSnapRulers] the bottom ruler is shown exactly when
    the snap code has its Y bit and the right ruler exactly when it has its
    X bit, each one pixel past the bottom-right corner; the top and left
    rulers and every other field of the window are as before. *)
Theorem UpdateBRSnapRulers_mirrors_snap_code (this : nat) (snap_code : SnapCode)
    (s : State) (w : Window) :
  is_win s this w ->
  exists s' w',
    UpdateBRSnapRulers this snap_code s = (s', Ok tt) /\
    is_win s' this w' /\ only_rulers w w' /\
    (is_Some (get_slot Bottom (SnapRulers w')) <-> Z.land snap_code SnapCodes.Y <> 0) /\
    (is_Some (get_slot Right (SnapRulers w')) <-> Z.land snap_code SnapCodes.X <> 0) /\
    (forall r, get_slot Bottom (SnapRulers w') = Some r ->
               ruler_position r = y (BottomRight w) + 1) /\
    (forall r, get_slot Right (SnapRulers w') = Some r ->
               ruler_position r = x (BottomRight w) + 1) /\
    get_slot Top (SnapRulers w') = get_slot Top (SnapRulers w) /\
    get_slot Left (SnapRulers w') = get_slot Left (SnapRulers w).
Proof.
  intros Hw. rewrite (UpdateBRSnapRulers_unfold _ _ _ _ Hw).
  destruct (Update_snap_slots this Bottom Right (negb (Z.land snap_code SnapCodes.Y =? 0))
              (negb (Z.land snap_code SnapCodes.X =? 0))
              (y (BottomRight w) + 1) (x (BottomRight w) + 1) s w Hw ltac:(discriminate))
    as (w' & es & Hrun' & _ & _ & Hr & H1 & H2 & Hp1 & Hp2 & Hrest).
  exists (put s this w' es), w'.
  split; [exact Hrun' |]. split; [apply put_is_win |]. split; [exact Hr |].
  rewrite H1, H2, !negb_true_iff, !Z.eqb_neq.
  repeat split; auto; apply Hrest; discriminate.
Qed.

Lemma UpdateBRSnapRulers_mirrors_snap_code_witness :
  let w := Examples.window (mkint2 5 5) (mkint2 100 100) (Some 0%nat) [] in
  is_win Examples.in_container 1%nat w /\
  exists s' w',
    UpdateBRSnapRulers 1%nat SnapCodes.X Examples.in_container = (s', Ok tt) /\
    is_win s' 1%nat w' /\
    is_Some (get_slot Right (SnapRulers w')) /\
    ~ is_Some (get_slot Bottom (SnapRulers w')).
Proof.
  intros w.
  assert (Hw : is_win Examples.in_container 1%nat w) by (vm_compute; reflexivity).
  split; [exact Hw |].
  destruct (UpdateBRSnapRulers_mirrors_snap_code 1%nat SnapCodes.X _ w Hw)
    as (s' & w' & Hrun & Hw' & _ & HB & HR & _).
  exists s', w'. split; [exact Hrun |]. split; [exact Hw' |].
  split; [apply HR; discriminate | intros H; apply HB in H; apply H; reflexivity].
Defined.

(** ** The move gesture *)

Section MoveFacts.

Variable snap_query :
  gmap nat Panel -> nat -> int2 -> int2 -> list (option nat) -> SnapCode * int2.
Variable snap_anchors :
  gmap nat Panel -> nat -> int2 -> int2 -> list (option nat) -> list (option nat * int2).

Lemma GetSnapControls_query_run (container : nat) (pos mask : int2)
    (excluding : list (option nat)) (offset_scale : Z) (s : State) :
  GetSnapControls snap_query snap_anchors container pos mask excluding None offset_scale s
  = (s, Ok (snap_query (heap s) container pos mask excluding)).
Proof. reflexivity. Qed.

Lemma ParentContainer_only_rulers (w w' : Window) :
  only_rulers w w' -> ParentContainer w' = ParentContainer w.
Proof. intros [r ->]. reflexivity. Qed.

Lemma OnBeginMove_run (this : nat) (event : int2) (s : State) (w : Window) :
  is_win s this w ->
  exists w' es,
    OnBeginMove snap_query snap_anchors this event s
    = (put s this w' (es ++ [Subscribe MouseMoveEvent (HOnMove this);
                             Subscribe MouseUpEvent (HOnEndMove this);
                             StopDefaultAction]), Ok tt) /\
    Forall ruler_call es /\ (ParentContainer w = None -> es = []) /\
    only_rulers
      (set_DragWindowStartPosition (Position w) (set_DragMouseStartPosition event w)) w'.
Proof.
  intros Hw. unfold OnBeginMove.
  rewrite (bind_Ok _ _ _ _ _ (update_this_put _ _ _ _ Hw)).
  rewrite (bind_Ok _ _ _ _ _ (update_this_put _ _ _ _ (put_is_win _ _ _ _))), put_put.
  rewrite (bind_Ok _ _ _ _ _ (this_window_run _ _ _ (put_is_win _ _ _ _))).
  cbn [app].
  set (w0 := set_DragWindowStartPosition _ _).
  assert (Hpc0 : ParentContainer w0 = ParentContainer w) by reflexivity.
  clearbody w0.
  destruct (ParentContainer w0) as [pc |] eqn:Hpc.
  - rewrite bind_unfold.
    rewrite (bind_Ok _ _ _ _ _ (GetSnapControls_query_run _ _ _ _ _ _)).
    rewrite (bind_Ok _ _ _ _ _ (GetSnapControls_query_run _ _ _ _ _ _)).
    match goal with
    | |- context [UpdateTLSnapRulers this ?c] =>
        destruct (UpdateTLSnapRulers_run this c _ _ (put_is_win s this w0 []))
          as (w1 & es1 & Hrun1 & Hes1 & _ & Hr1 & _)
    end.
    rewrite (bind_Ok _ _ _ _ _ Hrun1), put_put.
    match goal with
    | |- context [UpdateBRSnapRulers this ?c] =>
        destruct (UpdateBRSnapRulers_run this c _ _ (put_is_win s this w1 ([] ++ es1)))
          as (w2 & es2 & Hrun2 & Hes2 & _ & Hr2 & _)
    end.
    rewrite Hrun2, put_put.
    rewrite (bind_Ok _ _ _ _ _ (emit_put this _ _ _ (put_is_win _ _ _ _))), put_put.
    rewrite (bind_Ok _ _ _ _ _ (emit_put this _ _ _ (put_is_win _ _ _ _))), put_put.
    rewrite (emit_put this _ _ _ (put_is_win _ _ _ _)), put_put.
    exists w2, (es1 ++ es2).
    split; [cbn [app]; rewrite <- !app_assoc; reflexivity |].
    split; [apply Forall_app; auto |].
    split; [intros Hnone; congruence |].
    eapply only_rulers_trans; eassumption.
  - rewrite (bind_Ok _ _ (put s this w0 []) (put s this w0 []) tt eq_refl).
    rewrite (bind_Ok _ _ _ _ _ (emit_put this _ _ _ (put_is_win _ _ _ _))), put_put.
    rewrite (bind_Ok _ _ _ _ _ (emit_put this _ _ _ (put_is_win _ _ _ _))), put_put.
    rewrite (emit_put this _ _ _ (put_is_win _ _ _ _)), put_put.
    exists w0, []. split; [reflexivity |].
    split; [constructor |]. split; [reflexivity |]. apply only_rulers_refl.
Qed.


Lemma deref_ParentContainer_run (this pc : nat) (s : State) (w : Window) :
  is_win s this w -> ParentContainer w = Some pc ->
  deref_ParentContainer this s = (s, Ok pc).
Proof.
  intros Hw Hpc. unfold deref_ParentContainer.
  rewrite (bind_Ok _ _ _ _ _ (this_window_run _ _ _ Hw)), Hpc. reflexivity.
Qed.

Lemma removal_set_Position (side : Side) (p : int2) (w : Window) :
  removal side (set_Position p w) = removal side w.
Proof. reflexivity. Qed.

Lemma OnMove_free_run (this pc : nat) (event : int2) (s : State) (w : Window) :
  is_win s this w ->
  ParentContainer w = Some pc ->
  let w1 := dragged w event in
  let h1 := <[this := PWindow w1]> (heap s) in
  fst (snap_query h1 pc (TopLeft w1) (mkint2 (-1) (-1)) [Some this]) = SnapCodes.None ->
  fst (snap_query h1 pc (BottomRight w1) (mkint2 1 1) [Some this]) = SnapCodes.None ->
  OnMove snap_query snap_anchors this event s
  = (put s this (set_SnapRulers no_rulers w1)
       (removal Top w ++ removal Left w ++ removal Bottom w ++ removal Right w
        ++ [UpdateControlSizes pc; StopDefaultAction]), Ok tt).
Proof.
  intros Hw Hpc w1 h1 Htl Hbr. unfold OnMove.
  rewrite (bind_Ok _ _ _ _ _ (this_window_run _ _ _ Hw)).
  rewrite (bind_Ok _ _ _ _ _ (update_this_put _ _ _ _ Hw)).
  fold (dragged w event). fold w1.
  rewrite (bind_Ok _ _ _ _ _ (this_window_run _ _ _ (put_is_win _ _ _ _))).
  change (ParentContainer w1) with (ParentContainer w). rewrite Hpc.
  unfold OnMove_snap.
  rewrite bind_unfold.
  rewrite (bind_Ok _ _ _ _ _ (this_window_run _ _ _ (put_is_win _ _ _ _))).
  rewrite (bind_Ok _ _ _ _ _ (GetSnapControls_query_run _ _ _ _ _ _)).
  change (heap (put s this w1 [])) with h1. rewrite Htl.
  change (negb (SnapCodes.None =? SnapCodes.None)) with false. unfold when at 1.
  rewrite (bind_Ok _ _ (put s this w1 []) (put s this w1 []) tt eq_refl).
  rewrite (bind_Ok _ _ _ _ _ (this_window_run _ _ _ (put_is_win _ _ _ _))).
  rewrite (bind_Ok _ _ _ _ _ (GetSnapControls_query_run _ _ _ _ _ _)).
  change (heap (put s this w1 [])) with h1. rewrite Hbr.
  change (negb (SnapCodes.None =? SnapCodes.None)) with false. unfold when.
  rewrite (bind_Ok _ _ (put s this w1 []) (put s this w1 []) tt eq_refl).
  destruct (UpdateTLSnapRulers_run this SnapCodes.None _ _ (put_is_win s this w1 []))
    as (w2 & es2 & Hrun2 & _ & _ & _ & Hnone2).
  destruct (Hnone2 eq_refl) as [-> ->]. clear Hnone2.
  rewrite (bind_Ok _ _ _ _ _ Hrun2), put_put.
  destruct (UpdateBRSnapRulers_run this SnapCodes.None _ _
              (put_is_win s this (with_slot Left None (with_slot Top None w1))
                 ([] ++ removal Top w1 ++ removal Left w1)))
    as (w3 & es3 & Hrun3 & _ & _ & _ & Hnone3).
  destruct (Hnone3 eq_refl) as [-> ->]. clear Hnone3.
  rewrite Hrun3, put_put.
  match goal with
  | |- context [put s this ?w3 ?es] =>
      rewrite (bind_Ok _ _ _ _ _
                 (deref_ParentContainer_run this pc _ w3 (put_is_win s this w3 es) Hpc))
  end.
  rewrite (bind_Ok _ _ _ _ _ (emit_put this _ _ _ (put_is_win _ _ _ _))), put_put.
  rewrite (emit_put this _ _ _ (put_is_win _ _ _ _)), put_put.
  cbn [app]. rewrite <- !app_assoc. reflexivity.
Qed.

(** X13: a move tick that finds nothing to snap to puts the window at its
    start position plus the pointer travel since the press, keeps its size
    and hides every ruler; it then has the container update its control
    sizes and stops the default action. *)
Theorem OnMove_without_snap (this pc : nat) (event : int2) (s : State) (w : Window) :
  is_win s this w ->
  ParentContainer w = Some pc ->
  let w1 := dragged w event in
  let h1 := <[this := PWindow w1]> (heap s) in
  fst (snap_query h1 pc (TopLeft w1) (mkint2 (-1) (-1)) [Some this]) = SnapCodes.None ->
  fst (snap_query h1 pc (BottomRight w1) (mkint2 1 1) [Some this]) = SnapCodes.None ->
  exists s',
    OnMove snap_query snap_anchors this event s = (s', Ok tt) /\
    heap s' = <[this := PWindow (set_SnapRulers no_rulers w1)]> (heap s) /\
    timers s' = timers s /\
    effects s' = effects s ++ removal Top w ++ removal Left w ++ removal Bottom w
                           ++ removal Right w ++ [UpdateControlSizes pc; StopDefaultAction].
Proof.
  intros Hw Hpc w1 h1 Htl Hbr.
  eexists. split; [apply (OnMove_free_run this pc event s w Hw Hpc Htl Hbr) |].
  repeat split.
Qed.

(** X14: on a window that is in no container a move tick still moves the
    window, then fails with a TypeError at the unguarded call on the
    container: no call is made and the default action is not stopped. *)
Theorem OnMove_without_container_throws (this : nat) (event : int2) (s : State)
    (w : Window) :
  is_win s this w ->
  ParentContainer w = None ->
  exists s',
    OnMove snap_query snap_anchors this event s = (s', Threw TypeError) /\
    heap s' = <[this := PWindow (dragged w event)]> (heap s) /\
    effects s' = effects s /\ timers s' = timers s.
Proof.
  intros Hw Hpc. eexists.
  split; [apply (OnMove_without_container snap_query snap_anchors _ _ _ _ Hw Hpc) |].
  repeat split.
Qed.

Lemma OnEndMove_run (this : nat) (s : State) (w : Window) :
  is_win s this w ->
  OnEndMove this s
  = (put s this (set_SnapRulers no_rulers w)
       (removal Left w ++ removal Right w ++ removal Top w ++ removal Bottom w
        ++ [Unsubscribe MouseMoveEvent (Some (HOnMove this));
            Unsubscribe MouseUpEvent (Some (HOnEndMove this));
            StopDefaultAction]), Ok tt).
Proof.
  intros Hw. unfold OnEndMove.
  rewrite (bind_Ok _ _ _ _ _ (RemoveSnapRulers_run _ _ _ Hw)).
  rewrite (bind_Ok _ _ _ _ _ (emit_put this _ _ _ (put_is_win _ _ _ _))), put_put.
  rewrite (bind_Ok _ _ _ _ _ (emit_put this _ _ _ (put_is_win _ _ _ _))), put_put.
  rewrite (emit_put this _ _ _ (put_is_win _ _ _ _)), put_put.
  rewrite <- !app_assoc. reflexivity.
Qed.

(** X15: [OnEndMove] hides every ruler of the window and changes nothing
    else in the store; after the container has been told to remove the
    rulers that were shown, it unsubscribes [OnMove] and [OnEndMove] and
    stops the default action. *)
Theorem OnEndMove_hides_and_unsubscribes (this : nat) (s : State) (w : Window) :
  is_win s this w ->
  exists s',
    OnEndMove this s = (s', Ok tt) /\
    heap s' = <[this := PWindow (set_SnapRulers no_rulers w)]> (heap s) /\
    timers s' = timers s /\
    effects s' = effects s ++ removal Left w ++ removal Right w ++ removal Top w
                           ++ removal Bottom w
                           ++ [Unsubscribe MouseMoveEvent (Some (HOnMove this));
                               Unsubscribe MouseUpEvent (Some (HOnEndMove this));
                               StopDefaultAction].
Proof.
  intros Hw. eexists. split; [apply (OnEndMove_run _ _ _ Hw) |]. repeat split.
Qed.

(** X16: a whole move gesture in a container where the snap search finds
    nothing: press at [e0], one tick at [e1], release.  The window ends
    translated by the pointer travel [e1 - e0], with its size unchanged, no
    ruler shown, and the press recorded as the drag start; nothing else in
    the store changes and no timer is armed. *)
Theorem move_gesture_translates (this pc : nat) (e0 e1 : int2) (s : State) (w : Window) :
  is_win s this w ->
  ParentContainer w = Some pc ->
  (forall h c pos mask excluding, fst (snap_query h c pos mask excluding) = SnapCodes.None) ->
  exists s',
    (OnBeginMove snap_query snap_anchors this e0 ;;
     OnMove snap_query snap_anchors this e1 ;;
     OnEndMove this) s = (s', Ok tt) /\
    heap s' =
      <[this := PWindow
          (set_SnapRulers no_rulers
             (set_Position (Int2.Add (Position w) (Int2.Sub e1 e0))
                (set_DragWindowStartPosition (Position w)
                   (set_DragMouseStartPosition e0 w))))]> (heap s) /\
    timers s' = timers s.
Proof.
  intros Hw Hpc Hnone.
  destruct (OnBeginMove_run this e0 s w Hw) as (w0 & es0 & Hrun0 & _ & _ & [r0 ->]).
  rewrite (bind_Ok _ _ _ _ _ Hrun0).
  match goal with
  | |- context [put s this ?w0 ?es] =>
      rewrite (bind_Ok _ _ _ _ _
                 (OnMove_free_run this pc e1 _ w0 (put_is_win s this w0 es) Hpc
                    (Hnone _ _ _ _ _) (Hnone _ _ _ _ _))), put_put
  end.
  rewrite (OnEndMove_run _ _ _ (put_is_win _ _ _ _)), put_put.
  eexists. split; [reflexivity |]. split; reflexivity.
Qed.

End MoveFacts.


Lemma OnMove_without_snap_witness :
  let w := Examples.window (mkint2 5 5) (mkint2 100 100) (Some 0%nat) [] in
  is_win Examples.in_container 1%nat w /\
  ParentContainer w = Some 0%nat /\
  exists s',
    OnMove Examples.no_snap Examples.no_anchors 1%nat (mkint2 7 9) Examples.in_container
    = (s', Ok tt) /\
    window_at s' 1%nat
    = Some (set_SnapRulers no_rulers (set_Position (mkint2 12 14) w)) /\
    effects s' = [UpdateControlSizes 0%nat; StopDefaultAction].
Proof.
  intros w.
  assert (Hw : is_win Examples.in_container 1%nat w) by (vm_compute; reflexivity).
  split; [exact Hw |]. split; [reflexivity |].
  destruct (OnMove_without_snap Examples.no_snap Examples.no_anchors 1%nat 0%nat
              (mkint2 7 9) _ w Hw eq_refl eq_refl eq_refl)
    as (s' & Hrun & Hh & _ & He).
  exists s'. split; [exact Hrun |].
  split; [unfold window_at; rewrite Hh, lookup_insert_eq; reflexivity | exact He].
Defined.

Lemma OnMove_without_container_throws_witness :
  is_win Examples.alone 1%nat Examples.alone_window /\
  ParentContainer Examples.alone_window = None /\
  exists s',
    OnMove Examples.no_snap Examples.no_anchors 1%nat (mkint2 7 9) Examples.alone
    = (s', Threw TypeError) /\
    window_at s' 1%nat = Some (set_Position (mkint2 7 9) Examples.alone_window).
Proof.
  assert (Hw : is_win Examples.alone 1%nat Examples.alone_window) by (vm_compute; reflexivity).
  split; [exact Hw |]. split; [reflexivity |].
  destruct (OnMove_without_container_throws Examples.no_snap Examples.no_anchors 1%nat
              (mkint2 7 9) _ _ Hw eq_refl) as (s' & Hrun & Hh & _).
  exists s'. split; [exact Hrun |].
  unfold window_at. rewrite Hh, lookup_insert_eq. reflexivity.
Defined.

Lemma OnEndMove_hides_and_unsubscribes_witness :
  is_win Examples.alone 1%nat Examples.alone_window /\
  exists s',
    OnEndMove 1%nat Examples.alone = (s', Ok tt) /\
    effects s' = [Unsubscribe MouseMoveEvent (Some (HOnMove 1%nat));
                  Unsubscribe MouseUpEvent (Some (HOnEndMove 1%nat));
                  StopDefaultAction].
Proof.
  assert (Hw : is_win Examples.alone 1%nat Examples.alone_window) by (vm_compute; reflexivity).
  split; [exact Hw |].
  destruct (OnEndMove_hides_and_unsubscribes 1%nat _ _ Hw) as (s' & Hrun & _ & _ & He).
  exists s'. split; [exact Hrun | exact He].
Defined.

Lemma move_gesture_translates_witness :
  let w := Examples.window (mkint2 5 5) (mkint2 100 100) (Some 0%nat) [] in
  is_win Examples.in_container 1%nat w /\
  ParentContainer w = Some 0%nat /\
  (forall h c pos mask excluding,
     fst (Examples.no_snap h c pos mask excluding) = SnapCodes.None) /\
  exists s',
    (OnBeginMove Examples.no_snap Examples.no_anchors 1%nat (mkint2 7 9) ;;
     OnMove Examples.no_snap Examples.no_anchors 1%nat (mkint2 10 4) ;;
     OnEndMove 1%nat) Examples.in_container = (s', Ok tt) /\
    option_map Position (window_at s' 1%nat) = Some (mkint2 8 0).
Proof.
  intros w.
  assert (Hw : is_win Examples.in_container 1%nat w) by (vm_compute; reflexivity).
  assert (Hn : forall h c pos mask excluding,
             fst (Examples.no_snap h c pos mask excluding) = SnapCodes.None)
    by (intros; reflexivity).
  split; [exact Hw |]. split; [reflexivity |]. split; [exact Hn |].
  destruct (move_gesture_translates Examples.no_snap Examples.no_anchors 1%nat 0%nat
              (mkint2 7 9) (mkint2 10 4) _ w Hw eq_refl Hn) as (s' & Hrun & Hh & _).
  exists s'. split; [exact Hrun |].
  unfold window_at. rewrite Hh, lookup_insert_eq. reflexivity.
Defined.

(** ** Hovering the sizer *)

(** X17: the hit test only sees the pointer relative to the window: moving
    the window and the pointer by the same amount gives the same mask. *)
Theorem GetSizeMask_translation (w : Window) (mouse_pos d : int2) :
  GetSizeMask (set_Position (Int2.Add (Position w) d) w) (Int2.Add mouse_pos d)
  = GetSizeMask w mouse_pos.
Proof.
  rewrite !GetSizeMask_axes. cbv zeta. unfold local_mouse, BottomRight, TopLeft.
  destruct w as [[px py] [sx sy] pc pn ? sb ? ? ? ? ? ? ? ?].
  destruct mouse_pos as [mx my], d as [dx dy].
  cbn [ParentNode set_Position Position Size SideBarSize].
  destruct pn as [[nx ny] |]; cbn [Int2.Sub Int2.Add x y]; f_equal; f_equal; lia.
Qed.

Lemma resize_cursor_empty (size_mask : int2) :
  resize_cursor size_mask = EmptyString <-> size_mask = mkint2 0 0.
Proof.
  destruct size_mask as [mx my]. split.
  - destruct mx, my; simpl; intros H; try reflexivity; discriminate.
  - intros [= -> ->]. reflexivity.
Qed.

Lemma code_axis_mask_zero (width to_bottom_right from_top_left : Z) :
  code_axis_mask width to_bottom_right from_top_left = 0 <->
  in_grab_zone width to_bottom_right = false /\ in_grab_zone width from_top_left = false.
Proof.
  unfold code_axis_mask.
  destruct (in_grab_zone width from_top_left), (in_grab_zone width to_bottom_right);
    split; try discriminate; try tauto; intros [? ?]; discriminate.
Qed.

(** X18: hovering the sizer changes nothing in the store: [OnMoveOverSize]
    makes one call, which sets the cursor for the edge under the pointer.
    The cursor is reset to the empty string exactly when the pointer is in
    none of the four grab zones. *)
Theorem OnMoveOverSize_sets_cursor (this : nat) (event : int2) (s : State) (w : Window) :
  is_win s this w ->
  let m := local_mouse w event in
  exists cursor,
    OnMoveOverSize this event s
    = (mkState (heap s) (effects s ++ [SetCursor cursor]) (timers s), Ok tt) /\
    (cursor = EmptyString <->
     in_grab_zone (SideBarSize w) (x (BottomRight w) - x m) = false /\
     in_grab_zone (SideBarSize w) (x m - x (TopLeft w)) = false /\
     in_grab_zone (SideBarSize w) (y (BottomRight w) - y m) = false /\
     in_grab_zone (SideBarSize w) (y m - y (TopLeft w)) = false).
Proof.
  intros Hw m. exists (resize_cursor (GetSizeMask w event)). split.
  - unfold OnMoveOverSize. rewrite (bind_Ok _ _ _ _ _ (this_window_run _ _ _ Hw)).
    reflexivity.
  - rewrite resize_cursor_empty, GetSizeMask_axes. cbv zeta. fold m.
    split.
    + intros [= Hx Hy]. apply code_axis_mask_zero in Hx, Hy. tauto.
    + intros (H1 & H2 & H3 & H4). f_equal; apply code_axis_mask_zero; auto.
Qed.

Lemma OnMoveOverSize_sets_cursor_witness :
  is_win Examples.alone 1%nat Examples.alone_window /\
  exists cursor,
    OnMoveOverSize 1%nat (mkint2 50 50) Examples.alone
    = (mkState (heap Examples.alone) (effects Examples.alone ++ [SetCursor cursor])
         (timers Examples.alone), Ok tt) /\
    cursor = EmptyString.
Proof.
  assert (Hw : is_win Examples.alone 1%nat Examples.alone_window) by (vm_compute; reflexivity).
  split; [exact Hw |].
  destruct (OnMoveOverSize_sets_cursor 1%nat (mkint2 50 50) _ _ Hw) as (cursor & Hrun & Hc).
  exists cursor. split; [exact Hrun |]. apply Hc. vm_compute. auto.
Defined.

(** ** What the resize handlers leave alone *)

Lemma holds_update_this (W : Window -> Prop) (v this : nat) (f : Window -> Window) :
  (forall w, W w -> W (f w)) ->
  preserves (fun h => holds W h v) (update_this this f).
Proof.
  intros Hf s (wv & Hv & HW). unfold update_this.
  destruct (heap s !! this) as [[w | c] |] eqn:Hthis; simpl; try (exists wv; auto; fail).
  destruct (decide (v = this)) as [-> | Hne].
  - rewrite Hv in Hthis. inversion Hthis; subst. exists (f w).
    rewrite lookup_insert_eq. auto.
  - exists wv. rewrite lookup_insert_ne by auto. auto.
Qed.

Ltac keep_window :=
  lazymatch goal with
  | |- preserves _ (_ ≫= _) => apply preserves_bind; [| intros ?]
  | |- preserves _ (mret _) => apply preserves_ret
  | |- preserves _ (ret _) => apply preserves_ret
  | |- preserves _ (throw _) => apply preserves_throw
  | |- preserves _ out_of_fuel => apply preserves_out_of_fuel
  | |- preserves _ (emit _) => apply preserves_emit
  | |- preserves _ get_heap => apply preserves_get_heap
  | |- preserves _ (this_window _) => apply preserves_this_window
  | |- preserves _ (deref_ParentContainer _) => apply preserves_deref_ParentContainer
  | |- preserves _ (setTimeout _ _) => apply preserves_setTimeout
  | |- preserves (fun h => holds _ h _) (update_this _ _) =>
      apply holds_update_this;
      let H := fresh in intros ? H; first [exact H | reflexivity | intuition (auto; fail)]
  | |- preserves _ (when ?b _) => destruct b; unfold when
  | |- preserves _ (let _ := _ in _) => cbv zeta
  | |- preserves _ (match ?t with _ => _ end) => destruct t
  end.

(** The loop over the anchors, given the property for the handler it
    calls. *)
Ltac keep_anchors IH :=
  lazymatch goal with
  | |- preserves _ (for_each _ _) =>
      apply preserves_for_each; intros ? _;
      apply preserves_call_as_Window; intros ? ? ? _ _ ?; apply IH; assumption
  end.

Ltac unfold_methods :=
  unfold GatherAnchorControls, GatherAnchorControls_siblings,
    GatherAnchorControls_children, MakeAnchorControlIsland, OnBeginSize_arm,
    OnSize_resize, OnEndSize_finish, GetSnapControls,
    UpdateBRSnapRulers, UpdateTLSnapRulers, UpdateSnapRuler, RemoveSnapRulers,
    SetSnapRuler, RemoveSnapRuler.

Section Frames.

Variable SnapBorderSize : Z.
Variable Intersect : AABB -> AABB -> bool.
Variable snap_query :
  gmap nat Panel -> nat -> int2 -> int2 -> list (option nat) -> SnapCode * int2.
Variable snap_anchors :
  gmap nat Panel -> nat -> int2 -> int2 -> list (option nat) -> list (option nat * int2).

Lemma same_layout_refl (w : Window) : same_layout w w.
Proof. repeat split. Qed.

Lemma layout_OnBeginSize (v : nat) (wv : Window) (event : int2) (fuel : nat) :
  forall in_mask master_control this,
  preserves (fun h => holds (same_layout wv) h v)
    (OnBeginSize SnapBorderSize Intersect snap_query snap_anchors fuel event in_mask
       master_control this).
Proof.
  induction fuel as [| fuel IH]; intros in_mask master_control this; simpl;
    [apply preserves_out_of_fuel |].
  unfold_methods.
  repeat first [keep_anchors IH | keep_window].
Qed.

Lemma layout_OnEndSize (v : nat) (wv : Window) (event mask : int2) (fuel : nat) :
  forall this,
  preserves (fun h => holds (same_layout wv) h v) (OnEndSize fuel event mask this).
Proof.
  induction fuel as [| fuel IH]; intros this; simpl; [apply preserves_out_of_fuel |].
  unfold_methods.
  repeat first [keep_anchors IH | keep_window].
Qed.

Lemma snapshot_OnBeginSize (v : nat) (w0 : Window) (event : int2) (fuel : nat) :
  forall in_mask master_control this,
  preserves (fun h => holds (snapshot_of event w0) h v)
    (OnBeginSize SnapBorderSize Intersect snap_query snap_anchors fuel event in_mask
       master_control this).
Proof.
  induction fuel as [| fuel IH]; intros in_mask master_control this; simpl;
    [apply preserves_out_of_fuel |].
  unfold_methods.
  repeat first
    [ keep_anchors IH
    | keep_window
    | apply holds_update_this; intros w (H1 & H2 & H3 & H4 & H5 & H6);
      repeat split; simpl; congruence ].
Qed.

Lemma moved_OnSize (v : nat) (event : int2) (fuel : nat) :
  forall mask offset_scale master_offset this,
  preserves (fun h => holds (fun w => SizerMoved w = true) h v)
    (OnSize snap_query snap_anchors fuel event mask offset_scale master_offset this).
Proof.
  induction fuel as [| fuel IH]; intros mask offset_scale master_offset this; simpl;
    [apply preserves_out_of_fuel |].
  unfold_methods.
  repeat first [keep_anchors IH | keep_window].
Qed.

(** X19: beginning a resize moves and resizes nothing: whatever the
    outcome of [OnBeginSize], every window of the store is still a window,
    at the same position, with the same size and in the same container. *)
Theorem OnBeginSize_moves_nothing (fuel : nat) (event : int2) (in_mask : option int2)
    (master_control : bool) (this : nat) (s : State) (v : nat) (wv : Window) :
  is_win s v wv ->
  holds (same_layout wv)
    (heap (OnBeginSize SnapBorderSize Intersect snap_query snap_anchors fuel event in_mask
             master_control this s).1) v.
Proof.
  intros Hv. apply layout_OnBeginSize. exists wv. split; [exact Hv | apply same_layout_refl].
Qed.

(** X20: ending a resize moves and resizes nothing: whatever the outcome of
    [OnEndSize], every window of the store is still a window, at the same
    position, with the same size and in the same container. *)
Theorem OnEndSize_moves_nothing (fuel : nat) (event mask : int2) (this : nat) (s : State)
    (v : nat) (wv : Window) :
  is_win s v wv ->
  holds (same_layout wv) (heap (OnEndSize fuel event mask this s).1) v.
Proof.
  intros Hv. apply layout_OnEndSize. exists wv. split; [exact Hv | apply same_layout_refl].
Qed.

Lemma keeps_gesture_refl (w : Window) : keeps_gesture w w.
Proof. repeat split. Qed.

(** X21: a resize tick changes no anchor list, no drag snapshot and no
    parent container: whatever the outcome of [OnSize], and however far it
    cascades, every window of the store is still a window with these fields
    as they were. *)
Theorem OnSize_keeps_gesture (fuel : nat) (event mask : int2) (offset_scale : Z)
    (master_offset : option int2) (this : nat) (s : State) (v : nat) (wv : Window) :
  is_win s v wv ->
  holds (keeps_gesture wv)
    (heap (OnSize snap_query snap_anchors fuel event mask offset_scale master_offset
             this s).1) v.
Proof.
  intros Hv.
  assert (Hv0 : holds (keeps_gesture wv) (heap s) v)
    by (exists wv; split; [exact Hv | apply keeps_gesture_refl]).
  destruct (heap s !! this) as [[w | c] |] eqn:Hthis.
  - eapply (OnSize_preserves snap_query snap_anchors (keeps_gesture wv)); eauto.
    intros w1 w2 H1 _ H2. unfold keeps_gesture in *. intuition congruence.
  - destruct fuel; simpl; [exact Hv0 |].
    unfold OnSize_resize. rewrite !bind_unfold. unfold update_this. rewrite Hthis.
    exact Hv0.
  - destruct fuel; simpl; [exact Hv0 |].
    unfold OnSize_resize. rewrite !bind_unfold. unfold update_this. rewrite Hthis.
    exact Hv0.
Qed.

(** X23: [OnBeginSize] takes the drag snapshot of the window it is called
    on: the pointer position, the window position and the window size at
    the press.  The snapshot survives the whole cascade over the anchors,
    whatever the outcome, also when the window is reached a second time. *)
Theorem OnBeginSize_takes_snapshot (fuel : nat) (event : int2) (in_mask : option int2)
    (master_control : bool) (this : nat) (s : State) (w : Window) :
  is_win s this w ->
  holds (snapshot_of event w)
    (heap (OnBeginSize SnapBorderSize Intersect snap_query snap_anchors (S fuel) event
             in_mask master_control this s).1) this.
Proof.
  intros Hw. simpl.
  rewrite (bind_Ok _ _ _ _ _ (update_this_put _ _ _ _ Hw)).
  rewrite (bind_Ok _ _ _ _ _ (update_this_put _ _ _ _ (put_is_win _ _ _ _))), put_put.
  rewrite (bind_Ok _ _ _ _ _ (update_this_put _ _ _ _ (put_is_win _ _ _ _))), put_put.
  match goal with
  | |- holds ?W (heap (?m ?s3).1) ?p =>
      assert (Hrest : preserves (fun h => holds W h p) m)
  end.
  { unfold_methods.
    repeat first [keep_anchors (snapshot_OnBeginSize this w event fuel) | keep_window]. }
  apply Hrest. eexists. split; [apply put_is_win |]. repeat split.
Qed.

(** X24: once a tick has run on a window, the detach timer armed for it does
    nothing: whatever the outcome of [OnSize], the callback then completes
    and leaves the whole store as it is. *)
Theorem tick_disarms_detach_timer (fuel : nat) (event mask : int2) (offset_scale : Z)
    (master_offset : option int2) (this : nat) (s : State) (w : Window) :
  is_win s this w ->
  let s1 := (OnSize snap_query snap_anchors (S fuel) event mask offset_scale master_offset
               this s).1 in
  exists s', fire_timer (DetachTimer this) s1 = (s', Ok tt) /\ heap s' = heap s1.
Proof.
  intros Hw s1.
  assert (Hmoved : holds (fun w' => SizerMoved w' = true) (heap s1) this).
  { assert (H1 : holds (fun w' => SizerMoved w' = true)
                   (heap (OnSize_resize snap_query snap_anchors this event mask offset_scale
                            master_offset s).1) this).
    { unfold OnSize_resize.
      rewrite (bind_Ok _ _ _ _ _ (update_this_put _ _ _ _ Hw)).
      match goal with
      | |- holds ?W (heap (?m ?s1).1) ?p =>
          assert (Hrest : preserves (fun h => holds W h p) m)
      end.
      { unfold_methods. repeat keep_window. }
      apply Hrest. eexists. split; [apply put_is_win | reflexivity]. }
    subst s1. simpl.
    match goal with
    | |- holds ?W (heap ((_ ≫= ?k) s).1) ?p =>
        assert (Hk : forall offset, preserves (fun h => holds W h p) (k offset))
    end.
    { intros offset.
      repeat first [keep_anchors (moved_OnSize this event fuel) | keep_window]. }
    rewrite bind_unfold.
    destruct (OnSize_resize snap_query snap_anchors this event mask offset_scale
                master_offset s) as [s1 [offset | e |]]; simpl in H1 |- *;
      [apply Hk; exact H1 | exact H1 | exact H1]. }
  destruct Hmoved as (w1 & Hw1 & Hm).
  apply (detach_timer_after_move this s1 w1 Hw1 Hm).
Qed.

End Frames.

Lemma OnBeginSize_moves_nothing_witness :
  exists wv,
    is_win Examples.chain 2%nat wv /\
    holds (same_layout wv)
      (heap (OnBeginSize 5 AABB_Intersect Examples.no_snap Examples.no_anchors 3
               (mkint2 99 50) None true 1%nat Examples.chain).1) 2%nat.
Proof.
  destruct (heap Examples.chain !! 2%nat) as [[wv | c] |] eqn:Hv;
    try (vm_compute in Hv; discriminate).
  exists wv. split; [exact Hv |].
  apply (OnBeginSize_moves_nothing 5 AABB_Intersect Examples.no_snap Examples.no_anchors 3
           (mkint2 99 50) None true 1%nat Examples.chain 2%nat wv Hv).
Defined.

Lemma OnEndSize_moves_nothing_witness :
  exists wv,
    is_win Examples.chain 2%nat wv /\
    holds (same_layout wv)
      (heap (OnEndSize 3 (mkint2 120 50) (mkint2 1 0) 1%nat Examples.chain).1) 2%nat.
Proof.
  destruct (heap Examples.chain !! 2%nat) as [[wv | c] |] eqn:Hv;
    try (vm_compute in Hv; discriminate).
  exists wv. split; [exact Hv |].
  apply (OnEndSize_moves_nothing 3 (mkint2 120 50) (mkint2 1 0) 1%nat Examples.chain
           2%nat wv Hv).
Defined.

Lemma OnSize_keeps_gesture_witness :
  exists wv,
    is_win Examples.chain 2%nat wv /\
    holds (keeps_gesture wv)
      (heap (OnSize Examples.no_snap Examples.no_anchors 3 (mkint2 120 50) (mkint2 1 0) 1
               None 1%nat Examples.chain).1) 2%nat.
Proof.
  destruct (heap Examples.chain !! 2%nat) as [[wv | c] |] eqn:Hv;
    try (vm_compute in Hv; discriminate).
  exists wv. split; [exact Hv |].
  apply (OnSize_keeps_gesture Examples.no_snap Examples.no_anchors 3 (mkint2 120 50)
           (mkint2 1 0) 1 None 1%nat Examples.chain 2%nat wv Hv).
Defined.

Lemma OnBeginSize_takes_snapshot_witness :
  exists w,
    is_win Examples.chain 1%nat w /\
    holds (snapshot_of (mkint2 99 50) w)
      (heap (OnBeginSize 5 AABB_Intersect Examples.no_snap Examples.no_anchors 3
               (mkint2 99 50) None true 1%nat Examples.chain).1) 1%nat.
Proof.
  destruct (heap Examples.chain !! 1%nat) as [[w | c] |] eqn:Hw;
    try (vm_compute in Hw; discriminate).
  exists w. split; [exact Hw |].
  apply (OnBeginSize_takes_snapshot 5 AABB_Intersect Examples.no_snap Examples.no_anchors 2
           (mkint2 99 50) None true 1%nat Examples.chain w Hw).
Defined.

Lemma tick_disarms_detach_timer_witness :
  exists w,
    is_win Examples.chain 1%nat w /\
    exists s',
      fire_timer (DetachTimer 1%nat)
        (OnSize Examples.no_snap Examples.no_anchors 3 (mkint2 120 50) (mkint2 1 0) 1
           None 1%nat Examples.chain).1 = (s', Ok tt).
Proof.
  destruct (heap Examples.chain !! 1%nat) as [[w | c] |] eqn:Hw;
    try (vm_compute in Hw; discriminate).
  exists w. split; [exact Hw |].
  destruct (tick_disarms_detach_timer Examples.no_snap Examples.no_anchors 2 (mkint2 120 50)
              (mkint2 1 0) 1 None 1%nat Examples.chain w Hw) as (s' & Hfire & _).
  exists s'. exact Hfire.
Defined.

(** ** Timers and calls of the resize handlers *)

Section Keeps.

Context {B : Type} (proj : State -> B).

(** [proj] does not look at the store. *)
Hypothesis proj_heap : forall s h, proj (mkState h (effects s) (timers s)) = proj s.

Lemma keeps_ret {A} (a : A) : keeps proj (mret a).
Proof. intros s. reflexivity. Qed.

Lemma keeps_throw {A} (e : Error) : keeps proj (@throw A e).
Proof. intros s. reflexivity. Qed.

Lemma keeps_out_of_fuel {A} : keeps proj (@out_of_fuel A).
Proof. intros s. reflexivity. Qed.

Lemma keeps_bind {A C} (m : M A) (k : A -> M C) :
  keeps proj m -> (forall a, keeps proj (k a)) -> keeps proj (m ≫= k).
Proof.
  intros Hm Hk s. rewrite bind_unfold. specialize (Hm s).
  destruct (m s) as [s1 [a | e |]]; simpl in *; auto.
  rewrite Hk. exact Hm.
Qed.

Lemma keeps_get_heap : keeps proj get_heap.
Proof. intros s. reflexivity. Qed.

Lemma keeps_this_window (this : nat) : keeps proj (this_window this).
Proof.
  intros s. unfold this_window. destruct (heap s !! this) as [[w | c] |]; reflexivity.
Qed.

Lemma keeps_update_this (this : nat) (f : Window -> Window) :
  keeps proj (update_this this f).
Proof.
  intros s. unfold update_this.
  destruct (heap s !! this) as [[w | c] |]; try reflexivity. apply proj_heap.
Qed.

Lemma keeps_for_each {A} (l : list A) (body : A -> M unit) :
  (forall a, keeps proj (body a)) -> keeps proj (for_each l body).
Proof.
  intros Hbody. induction l as [| a l IH]; simpl.
  - apply keeps_ret.
  - apply keeps_bind; [apply Hbody | intros _; exact IH].
Qed.

Lemma keeps_call_as_Window (control : option nat) (method : nat -> M unit) :
  (forall c, keeps proj (method c)) -> keeps proj (call_as_Window control method).
Proof.
  intros Hm. unfold call_as_Window. destruct control as [c |]; [| apply keeps_ret].
  apply keeps_bind; [apply keeps_get_heap | intros h].
  destruct (h !! c) as [[w | ?] |]; [apply Hm | apply keeps_throw ..].
Qed.

End Keeps.

Lemma timers_heap (s : State) (h : gmap nat Panel) :
  timers (mkState h (effects s) (timers s)) = timers s.
Proof. reflexivity. Qed.

Lemma outside_heap (s : State) (h : gmap nat Panel) :
  outside (mkState h (effects s) (timers s)) = outside s.
Proof. reflexivity. Qed.

Lemma keeps_timers_emit (e : Effect) : keeps timers (emit e).
Proof. intros s. reflexivity. Qed.

Ltac keep_out Hp :=
  lazymatch goal with
  | |- keeps _ (_ ≫= _) => apply keeps_bind; [| intros ?]
  | |- keeps _ (mret _) => apply keeps_ret
  | |- keeps _ (ret _) => apply keeps_ret
  | |- keeps _ (throw _) => apply keeps_throw
  | |- keeps _ out_of_fuel => apply keeps_out_of_fuel
  | |- keeps _ get_heap => apply keeps_get_heap
  | |- keeps _ (this_window _) => apply keeps_this_window
  | |- keeps _ (deref_ParentContainer _) => unfold deref_ParentContainer
  | |- keeps _ (update_this _ _) => apply keeps_update_this; exact Hp
  | |- keeps timers (emit _) => apply keeps_timers_emit
  | |- keeps _ (when ?b _) => destruct b; unfold when
  | |- keeps _ (let _ := _ in _) => cbv zeta
  | |- keeps _ (match ?t with _ => _ end) => destruct t
  end.

Ltac keep_out_anchors IH :=
  lazymatch goal with
  | |- keeps _ (for_each _ _) =>
      apply keeps_for_each; intros ?; apply keeps_call_as_Window; intros ?; apply IH
  end.

Section Timers.

Variable SnapBorderSize : Z.
Variable Intersect : AABB -> AABB -> bool.
Variable snap_query :
  gmap nat Panel -> nat -> int2 -> int2 -> list (option nat) -> SnapCode * int2.
Variable snap_anchors :
  gmap nat Panel -> nat -> int2 -> int2 -> list (option nat) -> list (option nat * int2).

Lemma timers_OnSize (event : int2) (fuel : nat) :
  forall mask offset_scale master_offset this,
  keeps timers
    (OnSize snap_query snap_anchors fuel event mask offset_scale master_offset this).
Proof.
  induction fuel as [| fuel IH]; intros mask offset_scale master_offset this; simpl;
    [apply keeps_out_of_fuel |].
  unfold_methods.
  repeat first [keep_out_anchors IH | keep_out timers_heap].
Qed.

Lemma timers_OnEndSize (event mask : int2) (fuel : nat) :
  forall this, keeps timers (OnEndSize fuel event mask this).
Proof.
  induction fuel as [| fuel IH]; intros this; simpl; [apply keeps_out_of_fuel |].
  unfold_methods.
  repeat first [keep_out_anchors IH | keep_out timers_heap].
Qed.

Lemma silent_OnBeginSize (event : int2) (fuel : nat) :
  forall in_mask this,
  keeps outside
    (OnBeginSize SnapBorderSize Intersect snap_query snap_anchors fuel event in_mask
       false this).
Proof.
  induction fuel as [| fuel IH]; intros in_mask this; simpl; [apply keeps_out_of_fuel |].
  unfold_methods.
  repeat first [keep_out_anchors IH | keep_out outside_heap].
Qed.

Lemma timers_OnBeginSize_anchored (event : int2) (fuel : nat) (in_mask : option int2)
    (this : nat) :
  keeps timers
    (OnBeginSize SnapBorderSize Intersect snap_query snap_anchors fuel event in_mask
       false this).
Proof.
  intros s. pose proof (silent_OnBeginSize event fuel in_mask this s) as H.
  unfold outside in H. congruence.
Qed.

Lemma arms_bind_l {A C} (t : Z * Timer) (m : M A) (k : A -> M C) :
  keeps timers m -> (forall a, arms t (k a)) -> arms t (m ≫= k).
Proof.
  intros Hm Hk s s' c Hrun.
  apply bind_Ok_inv in Hrun. destruct Hrun as (s1 & a & Hrun1 & Hrun2).
  rewrite (Hk a _ _ _ Hrun2). specialize (Hm s). rewrite Hrun1 in Hm. simpl in Hm.
  rewrite Hm. reflexivity.
Qed.

Lemma arms_bind_r {A C} (t : Z * Timer) (m : M A) (k : A -> M C) :
  arms t m -> (forall a, keeps timers (k a)) -> arms t (m ≫= k).
Proof.
  intros Hm Hk s s' c Hrun.
  apply bind_Ok_inv in Hrun. destruct Hrun as (s1 & a & Hrun1 & Hrun2).
  specialize (Hk a s1). rewrite Hrun2 in Hk. simpl in Hk.
  rewrite Hk. apply (Hm _ _ _ Hrun1).
Qed.

Lemma arms_OnBeginSize_arm (this : nat) (mask : int2) :
  arms (1000, DetachTimer this) (OnBeginSize_arm this mask).
Proof.
  unfold OnBeginSize_arm. apply arms_bind_r.
  - intros s s' a [= <- _]. reflexivity.
  - intros _. repeat keep_out timers_heap.
Qed.

Lemma arms_OnBeginSize (event : int2) (fuel : nat) (in_mask : option int2) (this : nat) :
  arms (1000, DetachTimer this)
    (OnBeginSize SnapBorderSize Intersect snap_query snap_anchors fuel event in_mask
       true this).
Proof.
  destruct fuel as [| fuel]; [intros s s' a H; discriminate |]. simpl.
  repeat (apply arms_bind_l;
          [ solve [ unfold_methods;
                    repeat first [ keep_out_anchors (timers_OnBeginSize_anchored event fuel)
                                 | keep_out timers_heap ] ]
          | intros ? ]).
  apply arms_OnBeginSize_arm.
Qed.

(** X25: neither a resize tick nor the end of a resize arms or cancels a
    timer, whatever the outcome and however far the cascade goes.  In
    particular [OnEndSize] leaves the detach timer of the gesture pending. *)
Theorem ticks_and_end_keep_timers (fuel : nat) (event mask : int2) (offset_scale : Z)
    (master_offset : option int2) (this : nat) (s : State) :
  timers (OnSize snap_query snap_anchors fuel event mask offset_scale master_offset
            this s).1 = timers s /\
  timers (OnEndSize fuel event mask this s).1 = timers s.
Proof. split; [apply timers_OnSize | apply timers_OnEndSize]. Qed.


End Timers.


(** ** A late timer *)

Lemma fire_timer_run (this : nat) (s : State) (w : Window) :
  is_win s this w ->
  fire_timer (DetachTimer this) s =
  if SizerMoved w then (s, Ok tt)
  else (put s this (set_SnapRulers no_rulers (set_AnchorControls [] w))
          (removal Left w ++ removal Right w ++ removal Top w ++ removal Bottom w), Ok tt).
Proof.
  intros Hw. unfold fire_timer.
  rewrite (bind_Ok _ _ _ _ _ (this_window_run _ _ _ Hw)).
  destruct (SizerMoved w); [reflexivity |]. cbn [negb].
  rewrite (bind_Ok _ _ _ _ _ (update_this_put _ _ _ _ Hw)).
  rewrite (RemoveSnapRulers_run _ _ _ (put_is_win _ _ _ _)), put_put. reflexivity.
Qed.

(** X27: [OnEndSize] does not cancel the detach timer (it arms and cancels
    none), so the timer of a short gesture fires after the release.  It is
    harmless then: once [OnEndSize] has completed on the master, the
    callback completes, makes no call and leaves the state exactly as it
    is.  [OnEndSize] does complete, within a recursion budget above the
    master's rank, when the anchor lists hold windows and descend along a
    rank. *)
Theorem late_detach_timer_is_harmless (fuel : nat) (event mask : int2) (this : nat)
    (s : State) :
  (forall s1,
     OnEndSize fuel event mask this s = (s1, Ok tt) ->
     fire_timer (DetachTimer this) s1 = (s1, Ok tt)) /\
  (forall rank w,
     gesture_wf rank (heap s) -> is_win s this w -> (rank this < fuel)%nat ->
     exists s1, OnEndSize fuel event mask this s = (s1, Ok tt)).
Proof.
  split.
  - intros s1 Hrun.
    destruct (OnEndSize_closes (heap s) event mask fuel this s s1 (Ok tt)) as [_ Hcl].
    + intros q. left. reflexivity.
    + exact Hrun.
    + destruct (Hcl eq_refl this) as (w1 & Hw1 & Hanch & Hrul); [apply rtc_refl |].
      rewrite (fire_timer_run _ _ _ Hw1).
      destruct (SizerMoved w1); [reflexivity |].
      assert (Hsame : set_SnapRulers no_rulers (set_AnchorControls [] w1) = w1).
      { destruct w1; simpl in *; subst; reflexivity. }
      assert (Hnone : removal Left w1 ++ removal Right w1 ++ removal Top w1
                      ++ removal Bottom w1 = []).
      { unfold removal. rewrite Hrul. reflexivity. }
      rewrite Hsame, Hnone, (put_id _ _ _ Hw1). reflexivity.
  - intros rank w Hwf Hw Hlt. eapply OnEndSize_completes; eauto.
Qed.

Lemma late_detach_timer_is_harmless_witness :
  (exists s1,
     OnEndSize 3 (mkint2 7 0) (mkint2 1 0) 1%nat Examples.chain = (s1, Ok tt) /\
     fire_timer (DetachTimer 1%nat) s1 = (s1, Ok tt)) /\
  gesture_wf Examples.chain_rank (heap Examples.chain) /\
  exists s1, OnEndSize 3 (mkint2 7 0) (mkint2 1 0) 1%nat Examples.chain = (s1, Ok tt).
Proof.
  assert (Hwf : gesture_wf Examples.chain_rank (heap Examples.chain)).
  { intros p c (w & a & Hp & Ha & Hac).
    unfold Examples.chain, Examples.store in Hp. simpl in Hp.
    repeat match type of Hp with
    | <[?k := _]> _ !! p = _ =>
        destruct (decide (p = k)) as [-> | ?];
        [ rewrite lookup_insert_eq in Hp; inversion Hp; subst w; clear Hp;
          first [ apply list_elem_of_singleton in Ha; subst a; inversion Hac; subst c;
                  split; [simpl; lia | eexists; vm_compute; reflexivity]
                | inversion Ha ]
        | rewrite lookup_insert_ne in Hp by auto ]
    end.
    rewrite lookup_empty in Hp. discriminate. }
  split.
  - set (run := OnEndSize 3 (mkint2 7 0) (mkint2 1 0) 1%nat Examples.chain).
    assert (Hrun : run = (run.1, Ok tt)) by (vm_compute; reflexivity).
    exists run.1. split; [exact Hrun |].
    exact (proj1 (late_detach_timer_is_harmless 3 (mkint2 7 0) (mkint2 1 0) 1%nat
                    Examples.chain) run.1 Hrun).
  - split; [exact Hwf |].
    apply (proj2 (late_detach_timer_is_harmless 3 (mkint2 7 0) (mkint2 1 0) 1%nat
                    Examples.chain) Examples.chain_rank Examples.chain_master).
    + exact Hwf.
    + reflexivity.
    + simpl. lia.
Defined.

(** ** Gathering on corners, and a click without a drag *)

Section Gathering.

Variable SnapBorderSize : Z.
Variable Intersect : AABB -> AABB -> bool.
Variable snap_query :
  gmap nat Panel -> nat -> int2 -> int2 -> list (option nat) -> SnapCode * int2.
Variable snap_anchors :
  gmap nat Panel -> nat -> int2 -> int2 -> list (option nat) -> list (option nat * int2).

(** The island of an empty anchor list is empty. *)
Lemma MakeAnchorControlIsland_empty (this : nat) (s : State) (w : Window) :
  is_win s this w -> AnchorControls w = [] ->
  MakeAnchorControlIsland SnapBorderSize Intersect this s = (put s this w [], Ok tt).
Proof.
  intros Hw Hnil. unfold MakeAnchorControlIsland.
  rewrite (bind_Ok get_heap _ s s (heap s) eq_refl).
  rewrite (bind_Ok _ _ _ _ _ (this_window_run _ _ _ Hw)).
  unfold MakeControlAABB. rewrite Hw, Hnil. cbn [make_island take_connected take_loop
    island_loop length lookup list_lookup].
  rewrite (update_this_put _ _ _ _ Hw).
  replace (set_AnchorControls [] w) with w; [reflexivity |].
  destruct w; simpl in *; subst; reflexivity.
Qed.

(** X28: on a corner grip, or with a zero mask, the master recruits no
    sibling and shows no ruler: [GatherAnchorControls] then does exactly what
    it does for an anchored window, which gathers children only. *)
Theorem corner_grip_recruits_no_siblings (this : nat) (mask : int2) (s : State)
    (w : Window) :
  is_win s this w ->
  (x mask =? 0) = (y mask =? 0) ->
  GatherAnchorControls SnapBorderSize Intersect snap_query snap_anchors this mask true s
  = GatherAnchorControls SnapBorderSize Intersect snap_query snap_anchors this mask false s.
Proof.
  intros Hw Hcorner. unfold GatherAnchorControls.
  rewrite !(bind_Ok _ _ _ _ _ (update_this_put _ _ _ _ Hw)).
  rewrite !(bind_Ok _ _ _ _ _ (this_window_run _ _ _ (put_is_win _ _ _ _))).
  destruct (ParentContainer (set_AnchorControls [] w)) as [pc |]; [| reflexivity].
  rewrite !bind_unfold. f_equal.
  unfold GatherAnchorControls_siblings.
  rewrite (bind_Ok _ _ _ _ _ (this_window_run _ _ _ (put_is_win _ _ _ _))).
  rewrite Hcorner, Bool.eqb_reflx. cbn [negb when].
  rewrite (bind_Ok _ _ (put s this (set_AnchorControls [] w) [])
             (put s this (set_AnchorControls [] w) []) tt eq_refl).
  rewrite (MakeAnchorControlIsland_empty this _ (set_AnchorControls [] w)
             (put_is_win _ _ _ _) eq_refl), put_put.
  reflexivity.
Qed.

End Gathering.

Lemma corner_grip_recruits_no_siblings_witness :
  let w := Examples.window (mkint2 5 5) (mkint2 100 100) (Some 0%nat) [] in
  is_win Examples.in_container 1%nat w /\
  ((1 =? 0) = (1 =? 0)) /\
  GatherAnchorControls 5 AABB_Intersect Examples.snap_both Examples.child_2 1%nat
    (mkint2 1 1) true Examples.in_container
  = GatherAnchorControls 5 AABB_Intersect Examples.snap_both Examples.child_2 1%nat
      (mkint2 1 1) false Examples.in_container.
Proof.
  intros w.
  assert (Hw : is_win Examples.in_container 1%nat w) by (vm_compute; reflexivity).
  split; [exact Hw |]. split; [reflexivity |].
  apply (corner_grip_recruits_no_siblings 5 AABB_Intersect Examples.snap_both
           Examples.child_2 1%nat (mkint2 1 1) Examples.in_container w Hw eq_refl).
Defined.

(** ** A tick that snaps to nothing *)

Section FreeTick.

Variable snap_query :
  gmap nat Panel -> nat -> int2 -> int2 -> list (option nat) -> SnapCode * int2.
Variable snap_anchors :
  gmap nat Panel -> nat -> int2 -> int2 -> list (option nat) -> list (option nat * int2).

(** The snap search finds no edge to snap to. *)
Hypothesis no_snap :
  forall h container pos mask excluding,
    fst (snap_query h container pos mask excluding) = SnapCodes.None.

Lemma acts_on_OnSize_resize_free (this : nat) (event mask : int2) (offset_scale : Z)
    (master_offset : option int2) :
  acts_on this
    (OnSize_resize snap_query snap_anchors this event mask offset_scale master_offset)
    (fun _ w w' offset =>
       let d := tick_offset w event offset_scale master_offset in
       offset = d /\ only_rulers (resized w d mask) w').
Proof.
  unfold OnSize_resize.
  eapply acts_on_conseq;
    [repeat first [ apply acts_on_GetSnapControls_query
                  | apply acts_on_UpdateBRSnapRulers
                  | apply acts_on_UpdateTLSnapRulers
                  | acts_basic ] |].
  simpl. intros h w w' offset _ H.
  repeat match goal with
  | H : exists _, _ |- _ => destruct H
  | H : _ /\ _ |- _ => destruct H
  end; subst; simpl in *.
  destruct (ParentContainer w) eqn:Hpc.
  - repeat match goal with
    | H : exists _, _ |- _ => destruct H
    | H : _ /\ _ |- _ => destruct H
    | H : only_rulers _ _ |- _ => destruct H
    | H : context [fst (snap_query _ _ _ _ _)] |- _ => rewrite no_snap in H
    | H : if ?c then _ else _ |- _ => destruct c eqn:?
    | _ => progress (subst; simpl in * )
    end;
    try discriminate;
    (split; [reflexivity |]); eexists; unfold resized, tick_offset; reflexivity.
  - repeat match goal with
    | H : exists _, _ |- _ => destruct H
    | H : _ /\ _ |- _ => destruct H
    | _ => progress (subst; simpl in * )
    end.
    split; [reflexivity |]. eexists. unfold resized, tick_offset.
    instantiate (1 := SnapRulers w). destruct w; reflexivity.
Qed.

Lemma resized_only_rulers (w w' : Window) (d mask : int2) :
  only_rulers (resized w d mask) w' ->
  ParentContainer w' = ParentContainer w /\ AnchorControls w' = AnchorControls w /\
  Size w' = Int2.Max (Int2.Add (DragWindowStartSize w) (Int2.Mul d mask)) min_window_size /\
  Position w' =
    Int2.Min (Int2.Sub (DragWindowStartPosition w) (Int2.Mul d (Int2.Min0 mask)))
             (Int2.Sub (Int2.Add (DragWindowStartPosition w) (DragWindowStartSize w))
                       min_window_size).
Proof. intros [r ->]. repeat split. Qed.

(** The tail of [OnSize], after the loop over the anchors. *)
Lemma OnSize_tail_run (this pc : nat) (mask : int2) (s : State) (w : Window) :
  is_win s this w -> ParentContainer w = Some pc ->
  (emit (SetCursor (resize_cursor mask)) ;;
   pc ← deref_ParentContainer this;
   emit (UpdateControlSizes pc) ;;
   emit StopDefaultAction) s
  = (mkState (heap s)
       (effects s ++ [SetCursor (resize_cursor mask); UpdateControlSizes pc;
                      StopDefaultAction])
       (timers s), Ok tt).
Proof.
  intros Hw Hpc.
  rewrite (bind_Ok _ _ _ _ _ (emit_put this _ _ _ Hw)).
  rewrite (bind_Ok _ _ _ _ _
             (deref_ParentContainer_run this pc _ w (put_is_win _ _ _ _) Hpc)).
  rewrite (bind_Ok _ _ _ _ _ (emit_put this _ _ _ (put_is_win _ _ _ _))), put_put.
  rewrite (emit_put this _ _ _ (put_is_win _ _ _ _)), put_put.
  unfold put. cbn [heap effects timers app]. rewrite (insert_id _ _ _ Hw).
  reflexivity.
Qed.

Lemma OnSize_unfold (fuel : nat) (event mask : int2) (offset_scale : Z)
    (master_offset : option int2) (this : nat) :
  OnSize snap_query snap_anchors (S fuel) event mask offset_scale master_offset this
  = (offset ← OnSize_resize snap_query snap_anchors this event mask offset_scale
                master_offset;
     w ← this_window this;
     for_each (AnchorControls w) (fun control =>
       call_as_Window (anchor_control control)
         (OnSize snap_query snap_anchors fuel event (anchor_mask control)
            (anchor_scale control) (Some offset))) ;;
     emit (SetCursor (resize_cursor mask)) ;;
     pc ← deref_ParentContainer this;
     emit (UpdateControlSizes pc) ;;
     emit StopDefaultAction).
Proof. reflexivity. Qed.

Lemma OnSize_leaf_free (fuel : nat) (event mask : int2) (offset_scale : Z)
    (master_offset : option int2) (this pc : nat) (s : State) (w : Window) :
  is_win s this w ->
  ParentContainer w = Some pc ->
  AnchorControls w = [] ->
  let d := tick_offset w event offset_scale master_offset in
  exists s' w' es,
    OnSize snap_query snap_anchors (S fuel) event mask offset_scale master_offset this s
    = (s', Ok tt) /\
    heap s' = <[this := PWindow w']> (heap s) /\
    timers s' = timers s /\
    effects s' = es ++ [SetCursor (resize_cursor mask); UpdateControlSizes pc;
                        StopDefaultAction] /\
    only_rulers (resized w d mask) w'.
Proof.
  intros Hw Hpc Hanch d. simpl.
  destruct (acts_on_OnSize_resize_free this event mask offset_scale master_offset s w Hw)
    as (s1 & w1 & offset & Hrun & Hh1 & Ht1 & _ & Hr).
  fold d in Hr.
  destruct (resized_only_rulers _ _ _ _ Hr) as (Hpc1 & Hanch1 & _).
  assert (Hw1 : is_win s1 this w1) by (unfold is_win; rewrite Hh1; apply is_win_insert).
  rewrite (bind_Ok _ _ _ _ _ Hrun).
  rewrite (bind_Ok _ _ _ _ _ (this_window_run _ _ _ Hw1)).
  rewrite Hanch1, Hanch. cbn [for_each].
  rewrite (bind_Ok _ _ s1 s1 tt eq_refl).
  rewrite (OnSize_tail_run this pc mask s1 w1 Hw1 ltac:(congruence)).
  eexists _, w1, (effects s1). repeat split; auto.
Qed.

(** X29: a resize tick on a window that sits in a container, anchors
    nothing and finds nothing to snap to runs to completion.  The window
    gets size max(start size + d*mask, 50) and position min(start position
    - d*min0(mask), start position + start size - 50), [d] being the offset
    the tick works with; nothing else in the store changes, no timer is
    armed, and the last three calls set the resize cursor, have the
    container update its control sizes and stop the default action. *)
Theorem OnSize_in_container (fuel : nat) (event mask : int2) (offset_scale : Z)
    (master_offset : option int2) (this pc : nat) (s : State) (w : Window) :
  is_win s this w ->
  ParentContainer w = Some pc ->
  AnchorControls w = [] ->
  let d := tick_offset w event offset_scale master_offset in
  exists s' w' es,
    OnSize snap_query snap_anchors (S fuel) event mask offset_scale master_offset this s
    = (s', Ok tt) /\
    heap s' = <[this := PWindow w']> (heap s) /\
    timers s' = timers s /\
    effects s' = es ++ [SetCursor (resize_cursor mask); UpdateControlSizes pc;
                        StopDefaultAction] /\
    only_rulers (resized w d mask) w' /\
    Size w' = Int2.Max (Int2.Add (DragWindowStartSize w) (Int2.Mul d mask))
                       min_window_size /\
    Position w' =
      Int2.Min (Int2.Sub (DragWindowStartPosition w) (Int2.Mul d (Int2.Min0 mask)))
               (Int2.Sub (Int2.Add (DragWindowStartPosition w) (DragWindowStartSize w))
                         min_window_size).
Proof.
  intros Hw Hpc Hanch d.
  destruct (OnSize_leaf_free fuel event mask offset_scale master_offset this pc s w
              Hw Hpc Hanch) as (s' & w' & es & Hrun & Hh & Ht & He & Hr).
  fold d in Hr. destruct (resized_only_rulers _ _ _ _ Hr) as (_ & _ & Hsize & Hpos).
  exists s', w', es. repeat split; auto.
Qed.

(** X30: the master's offset reaches an anchored window.  A master in a
    container that anchors one window, itself in a container and anchoring
    nothing, is ticked where nothing snaps: the tick completes; the master
    is resized by its own offset [d]; the anchored window is resized by
    [d] times its anchor scale along its anchor mask, from its own drag
    snapshot and with the same clamps; it does not use the pointer position
    or its own recorded start position of the pointer. *)
Theorem OnSize_reaches_anchor (fuel : nat) (event mask : int2) (offset_scale : Z)
    (master_offset : option int2) (this pc c pcc : nat) (mask_c : int2) (scale_c : Z)
    (s : State) (w wc : Window) :
  is_win s this w ->
  is_win s c wc ->
  c <> this ->
  ParentContainer w = Some pc ->
  ParentContainer wc = Some pcc ->
  AnchorControls w = [(Some c, mask_c, scale_c)] ->
  AnchorControls wc = [] ->
  let d := tick_offset w event offset_scale master_offset in
  exists s' w' wc',
    OnSize snap_query snap_anchors (S (S fuel)) event mask offset_scale master_offset
      this s = (s', Ok tt) /\
    heap s' = <[c := PWindow wc']> (<[this := PWindow w']> (heap s)) /\
    only_rulers (resized w d mask) w' /\
    only_rulers (resized wc (Int2.Mul d (Int2.splat scale_c)) mask_c) wc'.
Proof.
  intros Hw Hc Hne Hpc Hpcc Hanch Hanchc d.
  rewrite OnSize_unfold.
  destruct (acts_on_OnSize_resize_free this event mask offset_scale master_offset s w Hw)
    as (s1 & w1 & offset & Hrun & Hh1 & Ht1 & Hoff & Hr).
  fold d in Hr, Hoff. subst offset.
  destruct (resized_only_rulers _ _ _ _ Hr) as (Hpc1 & Hanch1 & _).
  assert (Hw1 : is_win s1 this w1) by (unfold is_win; rewrite Hh1; apply is_win_insert).
  assert (Hc1 : is_win s1 c wc).
  { unfold is_win. rewrite Hh1, lookup_insert_ne by auto. exact Hc. }
  rewrite (bind_Ok _ _ _ _ _ Hrun).
  rewrite (bind_Ok _ _ _ _ _ (this_window_run _ _ _ Hw1)).
  rewrite Hanch1, Hanch.
  destruct (OnSize_leaf_free fuel event mask_c scale_c (Some d) c pcc s1 wc Hc1 Hpcc Hanchc)
    as (s2 & wc' & es & Hrun2 & Hh2 & Ht2 & He2 & Hrc).
  match goal with
  | |- context [for_each ?l ?body] =>
      assert (Hloop : for_each l body s1 = (s2, Ok tt))
  end.
  { cbn [for_each anchor_control anchor_mask anchor_scale fst snd].
    rewrite bind_unfold. unfold call_as_Window.
    rewrite (bind_Ok get_heap _ s1 s1 (heap s1) eq_refl), Hc1, Hrun2. reflexivity. }
  rewrite (bind_Ok _ _ _ _ _ Hloop).
  assert (Hw2 : is_win s2 this w1).
  { unfold is_win. rewrite Hh2, lookup_insert_ne by auto. exact Hw1. }
  rewrite (OnSize_tail_run this pc mask s2 w1 Hw2 ltac:(congruence)).
  eexists _, w1, wc'. split; [reflexivity |].
  cbn [heap]. rewrite Hh2, Hh1. split; [reflexivity |]. split; [exact Hr | exact Hrc].
Qed.

End FreeTick.

Lemma OnSize_in_container_witness :
  let w := Examples.window (mkint2 5 5) (mkint2 100 100) (Some 0%nat) [] in
  (forall h container pos mask excluding,
     fst (Examples.no_snap h container pos mask excluding) = SnapCodes.None) /\
  is_win Examples.in_container 1%nat w /\
  ParentContainer w = Some 0%nat /\
  AnchorControls w = [] /\
  exists s' w',
    OnSize Examples.no_snap Examples.no_anchors 1 (mkint2 30 0) (mkint2 1 0) 1 None 1%nat
      Examples.in_container = (s', Ok tt) /\
    is_win s' 1%nat w' /\ Size w' = mkint2 130 100 /\ Position w' = mkint2 5 5.
Proof.
  intros w.
  assert (Hn : forall h container pos mask excluding,
             fst (Examples.no_snap h container pos mask excluding) = SnapCodes.None)
    by (intros; reflexivity).
  assert (Hw : is_win Examples.in_container 1%nat w) by (vm_compute; reflexivity).
  split; [exact Hn |]. split; [exact Hw |]. split; [reflexivity |]. split; [reflexivity |].
  destruct (OnSize_in_container Examples.no_snap Examples.no_anchors Hn 0 (mkint2 30 0)
              (mkint2 1 0) 1 None 1%nat 0%nat Examples.in_container w Hw eq_refl eq_refl)
    as (s' & w' & es & Hrun & Hh & _ & _ & _ & Hsize & Hpos).
  exists s', w'. split; [exact Hrun |].
  split; [unfold is_win; rewrite Hh; apply lookup_insert_eq |].
  split; [rewrite Hsize | rewrite Hpos]; reflexivity.
Defined.

Lemma OnSize_reaches_anchor_witness :
  let w := Examples.window (mkint2 0 0) (mkint2 100 100) (Some 0%nat)
             [(Some 2%nat, mkint2 (-1) 0, 1)] in
  let wc := Examples.window (mkint2 100 0) (mkint2 100 100) (Some 0%nat) [] in
  (forall h container pos mask excluding,
     fst (Examples.no_snap h container pos mask excluding) = SnapCodes.None) /\
  is_win anchored_pair 1%nat w /\ is_win anchored_pair 2%nat wc /\ 2%nat <> 1%nat /\
  exists s' wc',
    OnSize Examples.no_snap Examples.no_anchors 2 (mkint2 30 0) (mkint2 1 0) 1 None 1%nat
      anchored_pair = (s', Ok tt) /\
    is_win s' 2%nat wc' /\ Size wc' = mkint2 70 100 /\ Position wc' = mkint2 130 0.
Proof.
  intros w wc.
  assert (Hn : forall h container pos mask excluding,
             fst (Examples.no_snap h container pos mask excluding) = SnapCodes.None)
    by (intros; reflexivity).
  assert (Hw : is_win anchored_pair 1%nat w) by (vm_compute; reflexivity).
  assert (Hc : is_win anchored_pair 2%nat wc) by (vm_compute; reflexivity).
  assert (Hne : 2%nat <> 1%nat) by lia.
  split; [exact Hn |]. split; [exact Hw |]. split; [exact Hc |]. split; [exact Hne |].
  destruct (OnSize_reaches_anchor Examples.no_snap Examples.no_anchors Hn 0 (mkint2 30 0)
              (mkint2 1 0) 1 None 1%nat 0%nat 2%nat 0%nat (mkint2 (-1) 0) 1
              anchored_pair w wc Hw Hc Hne eq_refl eq_refl eq_refl eq_refl)
    as (s' & w' & wc' & Hrun & Hh & _ & [r ->]).
  eexists s', _. split; [exact Hrun |].
  split; [unfold is_win; rewrite Hh; apply lookup_insert_eq |].
  split; reflexivity.
Defined.

(** ** The minimum-size clamp and the far corner *)

Lemma anchored_anchors_at (h : gmap nat Panel) (p c : nat) :
  anchored h p c <->
  exists l a, anchors_at h p = Some l /\ a ∈ l /\ anchor_control a = Some c.
Proof.
  unfold anchored, anchors_at. split.
  - intros (w & a & Hp & Ha & Hc). rewrite Hp. eauto.
  - intros (l & a & Hl & Ha & Hc).
    destruct (h !! p) as [[w | ?] |]; try discriminate.
    inversion Hl; subst l. eauto.
Qed.

Lemma same_anchors_anchored (h0 h : gmap nat Panel) (p c : nat) :
  same_anchors h0 h -> anchored h p c -> anchored h0 p c.
Proof. intros Hsame. rewrite !anchored_anchors_at, Hsame. auto. Qed.

Lemma same_anchors_insert (h0 h : gmap nat Panel) (p : nat) (w w' : Window) :
  same_anchors h0 h -> h !! p = Some (PWindow w) -> AnchorControls w' = AnchorControls w ->
  same_anchors h0 (<[p := PWindow w']> h).
Proof.
  intros Hsame Hp Ha q. rewrite <- Hsame. unfold anchors_at.
  destruct (decide (q = p)) as [-> | Hne].
  - rewrite lookup_insert_eq, Hp, Ha. reflexivity.
  - rewrite lookup_insert_ne by auto. reflexivity.
Qed.

Section FarCorner.

Variable snap_query :
  gmap nat Panel -> nat -> int2 -> int2 -> list (option nat) -> SnapCode * int2.
Variable snap_anchors :
  gmap nat Panel -> nat -> int2 -> int2 -> list (option nat) -> list (option nat * int2).

(** A tick on [c] writes to no window that the anchor lists do not lead to
    from [c], and changes no anchor list. *)
Lemma OnSize_unreached (h0 : gmap nat Panel) (v : nat) (event : int2) (fuel : nat) :
  forall (mask : int2) (offset_scale : Z) (master_offset : option int2) (c : nat)
         (s : State),
    ~ participates h0 c v ->
    same_anchors h0 (heap s) ->
    let s' := (OnSize snap_query snap_anchors fuel event mask offset_scale master_offset
                 c s).1 in
    heap s' !! v = heap s !! v /\ same_anchors h0 (heap s').
Proof.
  induction fuel as [| fuel IH]; intros mask offset_scale master_offset c s Hnot Hsame;
    [split; [reflexivity | exact Hsame] |].
  cbv zeta. rewrite OnSize_unfold.
  destruct (heap s !! c) as [[w | ctl] |] eqn:Hc.
  - destruct (acts_on_OnSize_resize snap_query snap_anchors c event mask offset_scale
                master_offset s w Hc)
      as (s1 & w1 & offset & Hrun & Hh1 & _ & _ & Hkeep & _).
    destruct Hkeep as (_ & _ & _ & _ & Hanch).
    assert (Hw1 : is_win s1 c w1) by (unfold is_win; rewrite Hh1; apply is_win_insert).
    assert (Hvc : v <> c) by (intros ->; apply Hnot; apply rtc_refl).
    rewrite (bind_Ok _ _ _ _ _ Hrun).
    rewrite (bind_Ok _ _ _ _ _ (this_window_run _ _ _ Hw1)).
    pose (P := fun h : gmap nat Panel => h !! v = heap s !! v /\ same_anchors h0 h).
    assert (H1 : P (heap s1)).
    { split.
      - rewrite Hh1, lookup_insert_ne by auto. reflexivity.
      - rewrite Hh1. eapply same_anchors_insert; eauto. }
    match goal with
    | |- context [(?m s1).1] => assert (Hrest : preserves P m)
    end.
    { apply preserves_bind.
      - apply preserves_for_each. intros a Ha.
        apply preserves_call_as_Window. intros ca s2 w2 Hca Hw2 [Hv2 Hsame2].
        assert (Hanc : anchored h0 c ca).
        { apply (same_anchors_anchored h0 (heap s1)); [apply H1 |].
          exists w1, a. auto. }
        destruct (IH (anchor_mask a) (anchor_scale a) (Some offset) ca s2) as [Hv3 Hsame3];
          [intros Hp; apply Hnot; eapply rtc_l; eauto | exact Hsame2 |].
        split; [rewrite Hv3; exact Hv2 | exact Hsame3].
      - intros _. apply preserves_bind; [apply preserves_emit | intros _].
        apply preserves_bind; [apply preserves_deref_ParentContainer | intros pc].
        apply preserves_bind; [apply preserves_emit | intros _; apply preserves_emit]. }
    apply (Hrest s1 H1).
  - unfold OnSize_resize. rewrite !bind_unfold. unfold update_this. rewrite Hc.
    split; [reflexivity | exact Hsame].
  - unfold OnSize_resize. rewrite !bind_unfold. unfold update_this. rewrite Hc.
    split; [reflexivity | exact Hsame].
Qed.

(** The window a tick leaves when nothing snaps and no anchor leads back to
    it: the cascade over the anchors does not touch it again. *)
Lemma OnSize_free_result (fuel : nat) (event mask : int2) (offset_scale : Z)
    (master_offset : option int2) (this : nat) (s : State) (w : Window) :
  (forall h container pos m excluding,
     fst (snap_query h container pos m excluding) = SnapCodes.None) ->
  is_win s this w ->
  (forall c, anchored (heap s) this c -> ~ participates (heap s) c this) ->
  exists w',
    heap (OnSize snap_query snap_anchors (S fuel) event mask offset_scale master_offset
            this s).1 !! this = Some (PWindow w') /\
    only_rulers (resized w (tick_offset w event offset_scale master_offset) mask) w'.
Proof.
  intros Hfree Hw Hacyc.
  rewrite OnSize_unfold.
  destruct (acts_on_OnSize_resize_free snap_query snap_anchors Hfree this event mask
              offset_scale master_offset s w Hw)
    as (s1 & w1 & offset & Hrun & Hh1 & _ & _ & Hr).
  destruct (resized_only_rulers _ _ _ _ Hr) as (_ & Hanch & _).
  assert (Hw1 : is_win s1 this w1) by (unfold is_win; rewrite Hh1; apply is_win_insert).
  rewrite (bind_Ok _ _ _ _ _ Hrun).
  rewrite (bind_Ok _ _ _ _ _ (this_window_run _ _ _ Hw1)).
  exists w1. split; [| exact Hr].
  pose (P := fun h : gmap nat Panel =>
               h !! this = Some (PWindow w1) /\ same_anchors (heap s) h).
  assert (H1 : P (heap s1)).
  { split; [exact Hw1 |]. rewrite Hh1.
    eapply same_anchors_insert; [intros p; reflexivity | exact Hw | exact Hanch]. }
  match goal with
  | |- (heap (?m s1).1) !! _ = _ => assert (Hrest : preserves P m)
  end.
  { apply preserves_bind.
    - apply preserves_for_each. intros a Ha.
      apply preserves_call_as_Window. intros ca s2 w2 Hca Hw2 [Hv2 Hsame2].
      assert (Hanc : anchored (heap s) this ca).
      { exists w, a. rewrite <- Hanch. auto. }
      destruct (OnSize_unreached (heap s) this event fuel (anchor_mask a) (anchor_scale a)
                  (Some offset) ca s2 (Hacyc ca Hanc) Hsame2) as [Hv3 Hsame3].
      split; [rewrite Hv3; exact Hv2 | exact Hsame3].
    - intros _. apply preserves_bind; [apply preserves_emit | intros _].
      apply preserves_bind; [apply preserves_deref_ParentContainer | intros pc].
      apply preserves_bind; [apply preserves_emit | intros _; apply preserves_emit]. }
  apply (Hrest s1 H1).
Qed.

End FarCorner.


Lemma anchored_pair_acyclic (c : nat) :
  anchored (heap anchored_pair) 1%nat c -> ~ participates (heap anchored_pair) c 1%nat.
Proof.
  intros (w & a & Hp & Ha & Hc) Hpart.
  vm_compute in Hp. inversion Hp; subst w. clear Hp.
  apply list_elem_of_singleton in Ha. subst a. inversion Hc; subst c. clear Hc.
  inversion Hpart as [| ? q ? (w2 & a2 & Hp2 & Ha2 & _) _]; subst.
  vm_compute in Hp2. inversion Hp2; subst w2. inversion Ha2.
Qed.


